(** * OpSpawn Orchestrator: the state-mutation engine of [orchestrator.js]

    A shallow embedding of the engine (shared state document, task board,
    agent registry, resource locks, event journal) and the properties its
    specification states about it, followed by the read-only views
    ([listWorkstreams], [listKnowledge], [status]), the runner's
    [collectResults] and the request handler of [server.js], with
    properties of the code beyond the specification.

    Modelling conventions.
    - A timestamp is the number of milliseconds since the epoch, an integer
      [Z]: [new Date().toISOString()] has millisecond precision and
      [new Date(s).getTime()] reads it back, so the ISO text is a faithful
      carrier of that integer.  [Date.now()] is the same clock.
    - Numbers (version, priority, ttl) are integers [Z]; the model covers
      the range in which a JavaScript number is an exact integer.
    - The objects used as dictionaries ([state.workstreams], [state.agents],
      [state.locks]) are finite maps with string keys for the entries they
      own.  A read [obj[k]] also finds what every object inherits (under
      "constructor", "toString", "__proto__", ...), an assignment under
      "__proto__" creates no entry, and a [heartbeat] under "__proto__"
      adds two names to those every object of the process inherits; the
      model has all three.  The messages of the [TypeError]s this leads
      to are worded as current Node.js words them.
    - [state.json] and [events.jsonl] are the persisted state: the file
      contents are modelled by the value they serialise, [loadState] and
      [saveState] being parse and print of the whole document.
    - The wall clock and the random source are oracles: the n-th reading of
      the clock is [clock n], the n-th random byte is [entropy n]; the world
      counts how many readings were taken.
    - The order in which [Object.entries] lists the keys of an object and
      [readdirSync] the files of the knowledge directory is an oracle as
      well, [entries]; what is proved of the views that iterate in that
      order holds for every listing that has each entry once.
    - A knowledge topic is a plain file name, without a path separator.
    - A request to the HTTP server is one whose URL parses and whose body
      arrives whole, taken after routing: its method and path have been
      matched and the path segments decoded, or found undecodable.  A JSON
      body is [null] or an object whose fields, where present, have the
      types the engine works with (strings, integers, a list of strings).
      Of a response the status code and the body are modelled, not the
      headers. *)

From Stdlib Require Import ZArith Lia Ascii String.
From Stdlib Require Strings.Byte.
From stdpp Require Import base option list strings pretty gmap sorting.

Set Default Proof Using "Type".

Local Open Scope string_scope.
Local Open Scope Z_scope.
Local Open Scope list_scope.

(** ** Data model *)

(** A JSON scalar, for the open-ended fields ([result], event payloads). *)
Inductive jsval : Type :=
  | JNull
  | JBool (b : bool)
  | JNum (n : Z)
  | JStr (s : string).

Inductive TaskStatus : Type := pending | in_progress | done_.

#[global] Instance TaskStatus_eq_dec : EqDecision TaskStatus.
Proof. solve_decision. Defined.

#[global] Instance jsval_eq_dec : EqDecision jsval.
Proof. solve_decision. Defined.

(** The text of a status, as stored in the document and quoted in errors. *)
Definition status_text (s : TaskStatus) : string :=
  match s with
  | pending => "pending"
  | in_progress => "in_progress"
  | done_ => "done"
  end.

Record Task : Type := mkTask {
  task_id : string;
  title : string;
  description : string;
  status : TaskStatus;
  priority : Z;
  estimate : option string;
  assigned_to : option string;
  created_at : Z;
  task_updated_at : Z;
  result : jsval
}.

Record Workstream : Type := mkWorkstream {
  ws_description : string;
  ws_priority : Z;
  ws_status : string;
  tasks : list Task;
  ws_created_at : Z
}.

Record Agent : Type := mkAgent {
  agent_type : string;
  agent_status : string;
  capabilities : list string;
  registered_at : Z;
  last_seen : Z
}.

Record Lock : Type := mkLock {
  lock_agent : string;
  acquired_at : Z;
  ttl_ms : Z
}.

Record State : Type := mkState {
  version : Z;
  updated_at : Z;
  workstreams : gmap string Workstream;
  agents : gmap string Agent;
  locks : gmap string Lock
}.

Record Event : Type := mkEvent {
  ts : Z;
  agent : string;
  action : string;
  data : list (string * jsval)
}.

(** The world an engine call runs in: the two persisted files, the
    knowledge directory, the positions in the clock and random oracles,
    and whether the running process has had the two fields of an agent
    written onto [Object.prototype] (see [heartbeat]). *)
Record World : Type := mkWorld {
  disk : State;
  journal : list Event;
  knowledge : gmap string string;
  ticks : nat;
  drawn : nat;
  polluted : bool
}.

(** Field updates, one per assignment the source makes. *)
Definition set_workstreams (m : gmap string Workstream) (s : State) : State :=
  mkState (version s) (updated_at s) m (agents s) (locks s).
Definition set_agents (m : gmap string Agent) (s : State) : State :=
  mkState (version s) (updated_at s) (workstreams s) m (locks s).
Definition set_locks (m : gmap string Lock) (s : State) : State :=
  mkState (version s) (updated_at s) (workstreams s) (agents s) m.
Definition set_tasks (l : list Task) (w : Workstream) : Workstream :=
  mkWorkstream (ws_description w) (ws_priority w) (ws_status w) l (ws_created_at w).

(** ** Objects used as dictionaries

    [state.workstreams], [state.agents] and [state.locks] are plain
    objects, as [JSON.parse] creates them: [obj[k]] finds the entries the
    object owns and, where it owns none under [k], what every object
    inherits from [Object.prototype]. *)

(** The property names of [Object.prototype] as the runtime creates
    it. *)
Definition inherited_names : list string :=
  ["constructor"; "__defineGetter__"; "__defineSetter__"; "hasOwnProperty";
   "__lookupGetter__"; "__lookupSetter__"; "isPrototypeOf";
   "propertyIsEnumerable"; "toString"; "valueOf"; "__proto__";
   "toLocaleString"].

(** The two names [heartbeat] can add to them. *)
Definition agent_fields : list string := ["last_seen"; "status"].

(** The names every object inherits a truthy value under, in a process
    whose [Object.prototype] is as created ([false]) or carries the two
    agent fields as well ([true]). *)
Definition inherited (tainted : bool) (k : string) : Prop :=
  k ∈ inherited_names \/ (tainted = true /\ k ∈ agent_fields).

#[global] Instance inherited_dec p k : Decision (inherited p k).
Proof. unfold inherited. apply _. Defined.

(** What [obj[k]] evaluates to: an entry of the object, an inherited
    value (a built-in function, [Object.prototype] itself under
    ["__proto__"], or the text of an agent field: truthy, and with none
    of the fields of a workstream, an agent or a lock), or
    [undefined]. *)
Inductive Found (V : Type) : Type :=
  | Own (v : V)
  | Builtin
  | Missing.
Arguments Own {V} v.
Arguments Builtin {V}.
Arguments Missing {V}.

Definition get {V : Type} (tainted : bool) (obj : gmap string V) (k : string)
  : Found V :=
  match obj !! k with
  | Some v => Own v
  | None => if decide (inherited tainted k) then Builtin else Missing
  end.

(** [obj[k] = v]: the entry is created or replaced, except that
    ["__proto__"] on an object that owns no such entry is the inherited
    setter: it makes [v] the prototype of [obj] and creates no entry, so
    nothing of it reaches [JSON.stringify]. *)
Definition put {V : Type} (k : string) (v : V) (obj : gmap string V)
  : gmap string V :=
  if decide (k = "__proto__" /\ obj !! k = None) then obj else <[k := v]> obj.

(** ** Errors and the engine monad *)

(** The four [throw new Error(...)] sites of the engine, by message, and
    the [TypeError] the runtime raises when a member is read from
    [undefined] (as in [ws.tasks.find] for a [ws] without [tasks]). *)
Inductive Error : Type :=
  | WorkstreamExists (name : string)
  | WorkstreamNotFound (name : string)
  | TaskNotFound (taskId : string)
  | TaskNotPending (taskId : string) (st : TaskStatus)
  | TypeError (member : string).

(** The taxonomy the specification sorts the engine's errors into; a
    [TypeError] is none of its kinds. *)
Inductive ErrorKind : Type := AlreadyExists | NotFound | InvalidState | Unexpected.

Definition kind_of (e : Error) : ErrorKind :=
  match e with
  | WorkstreamExists _ => AlreadyExists
  | WorkstreamNotFound _ => NotFound
  | TaskNotFound _ => NotFound
  | TaskNotPending _ _ => InvalidState
  | TypeError _ => Unexpected
  end.

(** The double quote that surrounds names in the messages. *)
Definition dq : string := String "034"%char EmptyString.

Definition message (e : Error) : string :=
  match e with
  | WorkstreamExists n => "Workstream " ++ dq ++ n ++ dq ++ " already exists"
  | WorkstreamNotFound n => "Workstream " ++ dq ++ n ++ dq ++ " not found"
  | TaskNotFound i => "Task " ++ dq ++ i ++ dq ++ " not found"
  | TaskNotPending i st =>
      "Task " ++ dq ++ i ++ dq ++ " is " ++ status_text st ++ ", not pending"
  | TypeError m =>
      "Cannot read properties of undefined (reading '" ++ m ++ "')"
  end%string.

(** A call either returns a value or throws; either way it leaves a world
    behind (what was written before a [throw] stays written). *)
Inductive Outcome (A : Type) : Type :=
  | Returned (a : A)
  | Threw (e : Error).
Arguments Returned {A} a.
Arguments Threw {A} e.

Definition M (A : Type) : Type := World -> Outcome A * World.

Definition ret {A : Type} (a : A) : M A := fun w => (Returned a, w).

Definition throw {A : Type} (e : Error) : M A := fun w => (Threw e, w).

Definition bind {A B : Type} (m : M A) (k : A -> M B) : M B :=
  fun w =>
    match m w with
    | (Returned a, w') => k a w'
    | (Threw e, w') => (Threw e, w')
    end.

#[global] Instance M_ret : MRet M := @ret.
#[global] Instance M_bind : MBind M := fun A B k m => bind m k.
#[global] Instance M_fmap : FMap M := fun A B f m => bind m (fun a => ret (f a)).

(** ** JavaScript's [x || d] on the optional fields of an options object *)

(** On a string: [undefined] and the empty string are falsy. *)
Definition str_or (o : option string) (d : string) : string :=
  match o with
  | Some s => if decide (s = EmptyString) then d else s
  | None => d
  end.

(** On a number: [undefined] and [0] are falsy. *)
Definition num_or (o : option Z) (d : Z) : Z :=
  match o with
  | Some n => if decide (n = 0) then d else n
  | None => d
  end.

(** [x || null] on a string. *)
Definition str_or_null (o : option string) : option string :=
  match o with
  | Some s => if decide (s = EmptyString) then None else Some s
  | None => None
  end.

(** [if (x)] on an optional string and on an optional number. *)
Definition truthy_str (o : option string) : option string := str_or_null o.

Definition truthy_num (o : option Z) : option Z :=
  match o with
  | Some n => if decide (n = 0) then None else Some n
  | None => None
  end.

(** ** Identifiers: [crypto.randomBytes(4).toString('hex')] *)

Definition hex_digit (n : N) : ascii :=
  match n with
  | 0%N => "0" | 1%N => "1" | 2%N => "2" | 3%N => "3"
  | 4%N => "4" | 5%N => "5" | 6%N => "6" | 7%N => "7"
  | 8%N => "8" | 9%N => "9" | 10%N => "a" | 11%N => "b"
  | 12%N => "c" | 13%N => "d" | 14%N => "e" | _ => "f"
  end%char.

Definition hex_of_byte (b : Byte.byte) : string :=
  String (hex_digit (N.div (Byte.to_N b) 16))
    (String (hex_digit (N.modulo (Byte.to_N b) 16)) EmptyString).

Fixpoint to_hex (bs : list Byte.byte) : string :=
  match bs with
  | [] => EmptyString
  | b :: bs' => (hex_of_byte b ++ to_hex bs')%string
  end.

Definition is_lower_hex (c : ascii) : bool :=
  let n := N_of_ascii c in
  ((48 <=? n) && (n <=? 57) || (97 <=? n) && (n <=? 102))%N.

(** ** Options objects *)

Record WorkstreamOpts : Type := mkWorkstreamOpts {
  wo_description : option string;
  wo_priority : option Z
}.

Record TaskOpts : Type := mkTaskOpts {
  to_title : string;
  to_description : option string;
  to_priority : option Z;
  to_estimate : option string
}.

Record AgentOpts : Type := mkAgentOpts {
  ao_type : option string;
  ao_capabilities : option (list string)
}.

(** The options of an event query.  [q_since] is present when [opts.since]
    is a non-empty date text, and is the instant that text denotes. *)
Record EventQuery : Type := mkEventQuery {
  q_agent : option string;
  q_action : option string;
  q_since : option Z;
  q_last : option Z
}.

(** ** [Array.prototype.sort] with the comparator [a.priority - b.priority]

    The language standard makes the sort stable, so its result is the one
    stable arrangement by ascending priority; insertion from the right
    computes it. *)
Fixpoint insert_by_priority (x : Task) (l : list Task) : list Task :=
  match l with
  | [] => [x]
  | y :: l' =>
      if decide (priority x <= priority y) then x :: y :: l'
      else y :: insert_by_priority x l'
  end.

Fixpoint sort_by_priority (l : list Task) : list Task :=
  match l with
  | [] => []
  | x :: l' => insert_by_priority x (sort_by_priority l')
  end.

(** [Array.prototype.slice(start)] with one argument: a negative start
    counts from the end, and both ends are clamped to the array. *)
Definition slice_from {A : Type} (start : Z) (l : list A) : list A :=
  let len := Z.of_nat (length l) in
  let k := if decide (start < 0) then Z.max (len + start) 0 else Z.min start len in
  drop (Z.to_nat k) l.

(** ** The engine *)

Section Engine.

(** The n-th reading of the wall clock, the n-th random byte, and the
    ISO-8601 rendering of an instant. *)
Variable clock : nat -> Z.
Variable entropy : nat -> Byte.byte.
Variable toISOString : Z -> string.

(** [new Date()] / [Date.now()]: take the next reading. *)
Definition now : M Z :=
  fun w =>
    (Returned (clock (ticks w)),
     mkWorld (disk w) (journal w) (knowledge w) (S (ticks w)) (drawn w) (polluted w)).

(** [crypto.randomBytes(n)]: take the next [n] bytes. *)
Definition randomBytes (n : nat) : M (list Byte.byte) :=
  fun w =>
    (Returned (map entropy (seq (drawn w) n)),
     mkWorld (disk w) (journal w) (knowledge w) (ticks w) (drawn w + n)%nat (polluted w)).

Definition loadState : M State :=
  fun w => (Returned (disk w), w).

Definition writeState (s : State) : M unit :=
  fun w =>
    (Returned tt, mkWorld s (journal w) (knowledge w) (ticks w) (drawn w) (polluted w)).

Definition appendEvent (e : Event) : M unit :=
  fun w =>
    (Returned tt,
     mkWorld (disk w) (journal w ++ [e]) (knowledge w) (ticks w) (drawn w) (polluted w)).

(** [obj[k]], read in the running process. *)
Definition lookup {V : Type} (obj : gmap string V) (k : string) : M (Found V) :=
  fun w => (Returned (get (polluted w) obj k), w).

(** [state.agents[k].last_seen = ...; state.agents[k].status = ...] where
    [state.agents[k]] is an inherited value: the two fields are written
    onto that value, not into the document.  Under ["__proto__"] the
    value is [Object.prototype], and from then on every object of the
    process inherits the two names. *)
Definition taint (k : string) : M unit :=
  fun w =>
    (Returned tt,
     mkWorld (disk w) (journal w) (knowledge w) (ticks w) (drawn w)
       (polluted w || bool_decide (k = "__proto__"))).

Definition saveState (state : State) : M unit :=
  t ← now;
  let state := mkState (version state) t (workstreams state)
                 (agents state) (locks state) in
  let state := mkState (version state + 1) (updated_at state)
                 (workstreams state) (agents state) (locks state) in
  writeState state.

Definition genId : M string :=
  bs ← randomBytes 4;
  mret (to_hex bs).

(** The world the module's start-up code creates when no files exist:
    version 0, empty maps, an empty journal; the document's [updated_at]
    is the first reading of the clock. *)
Definition init : World :=
  mkWorld (mkState 0 (clock 0%nat) ∅ ∅ ∅) [] ∅ 1%nat 0%nat false.

(** *** Event log *)

(** The keys of the three fields every record starts with. *)
Definition envelope_keys : list string := ["ts"; "agent"; "action"].

(** A payload that carries none of them. *)
Definition plain_payload (data : list (string * jsval)) : Prop :=
  forall k, k ∈ envelope_keys -> k ∉ data.*1.

(** The record is [{ts, agent, action, ...data}]: the payload is spread
    after the three fields, so a payload key named like one of them
    would replace it.  The payloads the engine passes are all
    [plain_payload]s, and [logEvent] is modelled for those. *)
Definition logEvent (agentId action : string) (data : list (string * jsval))
  : M Event :=
  t ← now;
  let event := mkEvent t agentId action data in
  appendEvent event;;
  mret event.

(** An empty journal file yields the empty list before any filter runs,
    which is also what the filters make of it. *)
Definition getEvents (opts : EventQuery) : M (list Event) :=
  fun w =>
    let events := journal w in
    let events :=
      match truthy_str (q_agent opts) with
      | Some a => filter (fun e => agent e = a) events
      | None => events
      end in
    let events :=
      match truthy_str (q_action opts) with
      | Some a => filter (fun e => action e = a) events
      | None => events
      end in
    let events :=
      match q_since opts with
      | Some since => filter (fun e => since <= ts e) events
      | None => events
      end in
    let events :=
      match truthy_num (q_last opts) with
      | Some n => slice_from (- n) events
      | None => events
      end in
    (Returned events, w).

(** *** Workstreams *)

(** The guard [if (state.workstreams[name])] also fires on an inherited
    value. *)
Definition createWorkstream (name : string) (opts : WorkstreamOpts)
  : M Workstream :=
  state ← loadState;
  existing ← lookup (workstreams state) name;
  match existing with
  | Own _ | Builtin => throw (WorkstreamExists name)
  | Missing =>
      t ← now;
      let ws := mkWorkstream (str_or (wo_description opts) EmptyString)
                  (num_or (wo_priority opts) 5) "active" [] t in
      let state :=
        set_workstreams (put name ws (workstreams state)) state in
      saveState state;;
      logEvent "system" "workstream_created" [("workstream", JStr name)];;
      mret ws
  end.

(** *** Tasks *)

(** The guard [if (!ws)] lets an inherited value pass: the task object is
    built (identifier, two clock readings) and [ws.tasks.push] throws,
    [ws.tasks] being [undefined].  [claimTask], [completeTask] and
    [getNextTask] throw likewise on their first use of [ws.tasks]. *)
Definition addTask (workstream : string) (opts : TaskOpts) : M Task :=
  state ← loadState;
  ws ← lookup (workstreams state) workstream;
  match ws with
  | Missing => throw (WorkstreamNotFound workstream)
  | Builtin =>
      i ← genId;
      t1 ← now;
      t2 ← now;
      throw (TypeError "push")
  | Own ws =>
      i ← genId;
      t1 ← now;
      t2 ← now;
      let task := mkTask i (to_title opts)
                    (str_or (to_description opts) EmptyString)
                    pending
                    (num_or (to_priority opts) 5)
                    (str_or_null (to_estimate opts))
                    None t1 t2 JNull in
      let ws := set_tasks (tasks ws ++ [task]) ws in
      let state :=
        set_workstreams (<[workstream := ws]> (workstreams state)) state in
      saveState state;;
      logEvent "system" "task_created"
        [("workstream", JStr workstream); ("task_id", JStr (task_id task));
         ("title", JStr (title task))];;
      mret task
  end.

(** [ws.tasks.find(t => t.id === taskId)]: the first task with that id,
    with its position (the found object is updated in place). *)
Definition find_task (taskId : string) (l : list Task) : option (nat * Task) :=
  list_find (fun t => task_id t = taskId) l.

Definition claimTask (workstream taskId agentId : string) : M Task :=
  state ← loadState;
  ws ← lookup (workstreams state) workstream;
  match ws with
  | Missing => throw (WorkstreamNotFound workstream)
  | Builtin => throw (TypeError "find")
  | Own ws =>
      match find_task taskId (tasks ws) with
      | None => throw (TaskNotFound taskId)
      | Some (i, task) =>
          if decide (status task ≠ pending)
          then throw (TaskNotPending taskId (status task))
          else
            t ← now;
            let task := mkTask (task_id task) (title task) (description task)
                          in_progress (priority task) (estimate task)
                          (Some agentId) (created_at task) t (result task) in
            let ws := set_tasks (<[i := task]> (tasks ws)) ws in
            let state :=
              set_workstreams (<[workstream := ws]> (workstreams state)) state in
            saveState state;;
            logEvent agentId "task_claimed"
              [("workstream", JStr workstream); ("task_id", JStr taskId)];;
            mret task
      end
  end.

Definition completeTask (workstream taskId : string) (res : jsval) : M Task :=
  state ← loadState;
  ws ← lookup (workstreams state) workstream;
  match ws with
  | Missing => throw (WorkstreamNotFound workstream)
  | Builtin => throw (TypeError "find")
  | Own ws =>
      match find_task taskId (tasks ws) with
      | None => throw (TaskNotFound taskId)
      | Some (i, task) =>
          t ← now;
          let task := mkTask (task_id task) (title task) (description task)
                        done_ (priority task) (estimate task)
                        (assigned_to task) (created_at task) t res in
          let ws := set_tasks (<[i := task]> (tasks ws)) ws in
          let state :=
            set_workstreams (<[workstream := ws]> (workstreams state)) state in
          saveState state;;
          logEvent (str_or (assigned_to task) "system") "task_completed"
            [("workstream", JStr workstream); ("task_id", JStr taskId);
             ("result", res)];;
          mret task
      end
  end.

Definition getNextTask (workstream agentId : string) : M (option Task) :=
  state ← loadState;
  ws ← lookup (workstreams state) workstream;
  match ws with
  | Missing => throw (WorkstreamNotFound workstream)
  | Builtin => throw (TypeError "filter")
  | Own ws =>
      let pending_tasks :=
        sort_by_priority (filter (fun t => status t = pending) (tasks ws)) in
      match pending_tasks with
      | [] => mret None
      | first :: _ =>
          task ← claimTask workstream (task_id first) agentId;
          mret (Some task)
      end
  end.

(** *** Agents *)

(** [return state.agents[agentId]] is the new record also under
    ["__proto__"], where the read finds the prototype just set. *)
Definition registerAgent (agentId : string) (opts : AgentOpts) : M Agent :=
  state ← loadState;
  t1 ← now;
  t2 ← now;
  let a := mkAgent (str_or (ao_type opts) "general") "active"
             (default [] (ao_capabilities opts)) t1 t2 in
  let state := set_agents (put agentId a (agents state)) state in
  saveState state;;
  logEvent agentId "agent_registered"
    (match ao_type opts with Some ty => [("type", JStr ty)] | None => [] end);;
  mret a.

(** [if (state.agents[agentId])] holds for an inherited value as well:
    the two fields are written onto that value, the document is saved as
    it was loaded. *)
Definition heartbeat (agentId : string) : M unit :=
  state ← loadState;
  found ← lookup (agents state) agentId;
  match found with
  | Own a =>
      t ← now;
      let a := mkAgent (agent_type a) "active" (capabilities a)
                 (registered_at a) t in
      let state := set_agents (<[agentId := a]> (agents state)) state in
      saveState state
  | Builtin =>
      t ← now;
      taint agentId;;
      saveState state
  | Missing => mret tt
  end.

(** *** Locks *)

(** The lease length when the caller passes none. *)
Definition default_ttl : Z := 60000.

(** For an inherited value [existing.acquired_at] and [existing.ttl_ms]
    are [undefined] and [expiresAt] is [NaN]: [Date.now() < expiresAt] is
    evaluated, and false. *)
Definition acquireLock (resource agentId : string) (ttlMs : Z) : M bool :=
  state ← loadState;
  existing ← lookup (locks state) resource;
  held ← match existing with
         | Own existing =>
             let expiresAt := acquired_at existing + ttl_ms existing in
             n ← now;
             mret (bool_decide (n < expiresAt)
                   && bool_decide (lock_agent existing ≠ agentId))
         | Builtin =>
             n ← now;
             mret false
         | Missing => mret false
         end;
  if (held : bool) then mret false
  else
    t ← now;
    let state :=
      set_locks (put resource (mkLock agentId t ttlMs) (locks state)) state in
    saveState state;;
    logEvent agentId "lock_acquired" [("resource", JStr resource)];;
    mret true.

(** An inherited value has no [agent], so only an entry of the object
    can pass the test. *)
Definition releaseLock (resource agentId : string) : M bool :=
  state ← loadState;
  match locks state !! resource with
  | Some l =>
      if decide (lock_agent l = agentId) then
        let state := set_locks (delete resource (locks state)) state in
        saveState state;;
        logEvent agentId "lock_released" [("resource", JStr resource)];;
        mret true
      else mret false
  | None => mret false
  end.

(** *** Knowledge base: one file per topic *)

Definition newline : string := String "010"%char EmptyString.

Definition writeFile (topic content : string) : M unit :=
  fun w =>
    (Returned tt,
     mkWorld (disk w) (journal w) (<[topic := content]> (knowledge w))
       (ticks w) (drawn w) (polluted w)).

Definition unlink (topic : string) : M unit :=
  fun w =>
    (Returned tt,
     mkWorld (disk w) (journal w) (delete topic (knowledge w))
       (ticks w) (drawn w) (polluted w)).

Definition writeKnowledge (topic content agentId : string) : M unit :=
  t ← now;
  let header :=
    ("<!-- Updated by " ++ agentId ++ " at " ++ toISOString t ++ " -->"
       ++ newline)%string in
  writeFile topic (header ++ content)%string;;
  logEvent agentId "knowledge_written" [("topic", JStr topic)];;
  mret tt.

Definition readKnowledge (topic : string) : M (option string) :=
  fun w => (Returned (knowledge w !! topic), w).

Definition deleteKnowledge (topic agentId : string) : M bool :=
  present ← (fun w => (Returned (bool_decide (is_Some (knowledge w !! topic))), w));
  if (present : bool) then
    unlink topic;;
    logEvent agentId "knowledge_deleted" [("topic", JStr topic)];;
    mret true
  else mret false.

(** *** The engine's interface, as one type of calls *)

Inductive Call : Type :=
  | CreateWorkstream (name : string) (opts : WorkstreamOpts)
  | AddTask (workstream : string) (opts : TaskOpts)
  | ClaimTask (workstream taskId agentId : string)
  | CompleteTask (workstream taskId : string) (res : jsval)
  | GetNextTask (workstream agentId : string)
  | RegisterAgent (agentId : string) (opts : AgentOpts)
  | Heartbeat (agentId : string)
  | AcquireLock (resource agentId : string) (ttlMs : Z)
  | ReleaseLock (resource agentId : string)
  | WriteKnowledge (topic content agentId : string)
  | DeleteKnowledge (topic agentId : string).

Inductive Value : Type :=
  | VWorkstream (ws : Workstream)
  | VTask (t : Task)
  | VNoTask
  | VAgent (a : Agent)
  | VBool (b : bool)
  | VUndefined.

Definition run (c : Call) : M Value :=
  match c with
  | CreateWorkstream name opts => VWorkstream <$> createWorkstream name opts
  | AddTask ws opts => VTask <$> addTask ws opts
  | ClaimTask ws i a => VTask <$> claimTask ws i a
  | CompleteTask ws i r => VTask <$> completeTask ws i r
  | GetNextTask ws a =>
      from_option VTask VNoTask <$> getNextTask ws a
  | RegisterAgent a opts => VAgent <$> registerAgent a opts
  | Heartbeat a => (fun _ => VUndefined) <$> heartbeat a
  | AcquireLock r a ttl => VBool <$> acquireLock r a ttl
  | ReleaseLock r a => VBool <$> releaseLock r a
  | WriteKnowledge t c a => (fun _ => VUndefined) <$> writeKnowledge t c a
  | DeleteKnowledge t a => VBool <$> deleteKnowledge t a
  end.

(** ** Outcomes of a call *)

(** A call that completed as a mutation of the state document
    ([heartbeat] saves whenever [state.agents[agentId]] is truthy). *)
Definition mutated (c : Call) (w : World) : bool :=
  match c, fst (run c w) with
  | CreateWorkstream _ _, Returned _ => true
  | AddTask _ _, Returned _ => true
  | ClaimTask _ _ _, Returned _ => true
  | CompleteTask _ _ _, Returned _ => true
  | GetNextTask _ _, Returned (VTask _) => true
  | RegisterAgent _ _, Returned _ => true
  | Heartbeat a, Returned _ =>
      match get (polluted w) (agents (disk w)) a with
      | Missing => false
      | _ => true
      end
  | AcquireLock _ _ _, Returned (VBool true) => true
  | ReleaseLock _ _, Returned (VBool true) => true
  | _, _ => false
  end.

(** A failing call: a raised error, or the boolean failure signal. *)
Definition failed (o : Outcome Value) : bool :=
  match o with
  | Threw _ => true
  | Returned (VBool false) => true
  | Returned _ => false
  end.

(** The grant condition of [acquireLock] as the code evaluates it at clock
    reading [n]: no entry, or the lease is no longer running, or the
    holder asks again. *)
Definition grantable (resource agentId : string) (n : Z) (s : State) : Prop :=
  match locks s !! resource with
  | None => True
  | Some l => acquired_at l + ttl_ms l <= n \/ lock_agent l = agentId
  end.

(** The grant condition in the specification's words: expiry is
    [acquiredAt + ttlMs < now]. *)
Definition spec_grantable (resource agentId : string) (n : Z) (s : State)
  : Prop :=
  match locks s !! resource with
  | None => True
  | Some l => acquired_at l + ttl_ms l < n \/ lock_agent l = agentId
  end.

#[global] Instance grantable_dec r a n s : Decision (grantable r a n s).
Proof. unfold grantable. destruct (locks s !! r); apply _. Defined.

#[global] Instance spec_grantable_dec r a n s : Decision (spec_grantable r a n s).
Proof. unfold spec_grantable. destruct (locks s !! r); apply _. Defined.

(** The clock reading [acquireLock] stamps the new lease with: the check
    of what [state.locks[resource]] found has taken one reading before
    it. *)
Definition stamp_tick (resource : string) (w : World) : nat :=
  match get (polluted w) (locks (disk w)) resource with
  | Missing => ticks w
  | _ => S (ticks w)
  end.

(** ** Vocabulary of the properties

    The predicates, derived records and readings of the specification's
    words that the statements below are written in. *)

(** The record a successful claim leaves in place of [t]. *)
Definition claimed_by (agentId : string) (n : Z) (t : Task) : Task :=
  mkTask (task_id t) (title t) (description t) in_progress (priority t)
    (estimate t) (Some agentId) (created_at t) n (result t).

(** The record a completion leaves in place of [t]. *)
Definition completed_with (res : jsval) (n : Z) (t : Task) : Task :=
  mkTask (task_id t) (title t) (description t) done_ (priority t)
    (estimate t) (assigned_to t) (created_at t) n res.

(** The world after a mutation that replaced the task at position [i] of
    workstream [name] by [t'], saved, and journalled [ev]. *)
Definition after_task_update (w : World) (name : string) (ws : Workstream)
    (i : nat) (t' : Task) (agentId act : string)
    (payload : list (string * jsval)) : World :=
  mkWorld
    (mkState (version (disk w) + 1) (clock (S (ticks w)))
       (<[name := set_tasks (<[i := t']> (tasks ws)) ws]>
          (workstreams (disk w)))
       (agents (disk w)) (locks (disk w)))
    (journal w ++ [mkEvent (clock (S (S (ticks w)))) agentId act payload])
    (knowledge w) (S (S (S (ticks w)))) (drawn w) (polluted w).

(** The agent the specification names for the [task_completed] record:
    the task's assignee, or "system" for a task that has none. *)
Definition assignee_or_system (o : option string) : string :=
  default "system" o.

(** The agent the code names: [task.assigned_to || 'system']. *)
Definition truthy_assignee_or_system (o : option string) : string :=
  str_or o "system".

(** The rule of [completeTask] on the task [t] found at position [i] of
    the workstream [ws] stored under [name], for a given reading
    [attributed] of whom the journal record names: the call succeeds,
    the task becomes [done] and carries the result, the document is
    saved and one [task_completed] record is appended for that agent. *)
Definition completion_rule (attributed : option string -> string)
    (name taskId : string) (res : jsval) (ws : Workstream) (i : nat)
    (t : Task) (w : World) : Prop :=
  exists t' w' ev,
    completeTask name taskId res w = (Returned t', w') /\
    t' = completed_with res (clock (ticks w)) t /\
    status t' = done_ /\
    result t' = res /\
    task_updated_at t' = clock (ticks w) /\
    assigned_to t' = assigned_to t /\
    workstreams (disk w') =
      <[name := set_tasks (<[i := t']> (tasks ws)) ws]>
        (workstreams (disk w)) /\
    version (disk w') = version (disk w) + 1 /\
    journal w' = journal w ++ [ev] /\
    action ev = "task_completed" /\
    data ev = [("workstream", JStr name); ("task_id", JStr taskId);
               ("result", res)] /\
    agent ev = attributed (assigned_to t).

Definition by_priority (a b : Task) : Prop := priority a <= priority b.

(** The element the sort puts first, computed by one scan from the right:
    a task replaces the best of those after it unless it is strictly
    less urgent. *)
Fixpoint lowest (l : list Task) : option Task :=
  match l with
  | [] => None
  | x :: l' =>
      match lowest l' with
      | None => Some x
      | Some y => if decide (priority x <= priority y) then Some x else Some y
      end
  end.

(** A board splits around its most urgent pending task: [t] is pending,
    no pending task is more urgent, and the pending tasks stored before
    it are strictly less urgent. *)
Definition first_lowest_pending (l1 : list Task) (t : Task) (l2 : list Task)
  : Prop :=
  status t = pending /\
  (forall u, u ∈ l1 -> status u = pending -> priority t < priority u) /\
  (forall u, u ∈ l2 -> status u = pending -> priority t <= priority u).

(** The identifier [addTask] draws in world [w]. *)
Definition next_id (w : World) : string :=
  to_hex (map entropy (seq (drawn w) 4)).

(** The task [addTask] builds in world [w]. *)
Definition new_task (opts : TaskOpts) (w : World) : Task :=
  mkTask (next_id w) (to_title opts)
    (str_or (to_description opts) EmptyString) pending
    (num_or (to_priority opts) 5) (str_or_null (to_estimate opts))
    None (clock (ticks w)) (clock (S (ticks w))) JNull.

(** What a granted [acquireLock] leaves behind: a fresh lease stamped with
    a clock reading taken during the call, one save, one journal entry. *)
Definition lock_granted (r a : string) (ttl : Z) (w w' : World) : Prop :=
  locks (disk w') =
    <[r := mkLock a (clock (stamp_tick r w)) ttl]> (locks (disk w)) /\
  (ticks w <= stamp_tick r w < ticks w')%nat /\
  workstreams (disk w') = workstreams (disk w) /\
  agents (disk w') = agents (disk w) /\
  version (disk w') = version (disk w) + 1 /\
  journal w' =
    journal w ++
      [mkEvent (clock (S (S (stamp_tick r w)))) a "lock_acquired"
         [("resource", JStr r)]].

(** The rule of [acquireLock] for a given reading [cond] of "the resource
    can be granted": success exactly under [cond], the boolean failure
    signal otherwise, and the effects of a grant on success. *)
Definition acquire_rule (cond : string -> string -> Z -> State -> Prop)
    (r a : string) (ttl : Z) (w : World) : Prop :=
  (fst (acquireLock r a ttl w) = Returned true <->
     cond r a (clock (ticks w)) (disk w)) /\
  (fst (acquireLock r a ttl w) = Returned true ->
     lock_granted r a ttl w (snd (acquireLock r a ttl w))).

(** The clock never runs backwards. *)
Definition monotone_clock : Prop :=
  forall i j : nat, (i <= j)%nat -> clock i <= clock j.

(** What the specification promises of [getNextTask] on the workstream
    [ws] stored under [name]: the no-task sentinel when nothing is
    pending; otherwise the first of the most urgent pending tasks is the
    one claimed for the caller and returned. *)
Definition next_task_rule (name a : string) (ws : Workstream) (w : World)
  : Prop :=
  ((forall t, t ∈ tasks ws -> status t ≠ pending) ->
     getNextTask name a w = (Returned None, w)) /\
  ((exists u, u ∈ tasks ws /\ status u = pending) ->
     exists t' w', getNextTask name a w = (Returned (Some t'), w')) /\
  (forall l1 t l2,
     tasks ws = l1 ++ t :: l2 ->
     first_lowest_pending l1 t l2 ->
     exists t' w',
       getNextTask name a w = (Returned (Some t'), w') /\
       t' = claimed_by a (clock (ticks w)) t /\
       status t' = in_progress /\
       assigned_to t' = Some a /\
       workstreams (disk w') =
         <[name := set_tasks (l1 ++ t' :: l2) ws]> (workstreams (disk w)) /\
       version (disk w') = version (disk w) + 1 /\
       journal w' =
         journal w ++
           [mkEvent (clock (S (S (ticks w)))) a "task_claimed"
              [("workstream", JStr name); ("task_id", JStr (task_id t))]]).

(** One save happened between [w] and [w']: the version went up by one
    and [updated_at] is a clock reading taken in between. *)
Definition saved_once (w w' : World) : Prop :=
  version (disk w') = version (disk w) + 1 /\
  exists k, (ticks w <= k < ticks w')%nat /\ updated_at (disk w') = clock k.

(** Nothing persisted changed between [w] and [w']. *)
Definition untouched (w w' : World) : Prop :=
  disk w' = disk w /\ journal w' = journal w /\ knowledge w' = knowledge w.

(** The document's save time is not ahead of the clock. *)
Definition settled (w : World) : Prop :=
  updated_at (disk w) <= clock (ticks w).

(** A sequence of calls issued one after the other, each seeing what the
    previous one left, and the number of completed mutations among them. *)
Fixpoint run_all (cs : list Call) (w : World) : World :=
  match cs with
  | [] => w
  | c :: cs' => run_all cs' (snd (run c w))
  end.

Fixpoint mutations (cs : list Call) (w : World) : Z :=
  match cs with
  | [] => 0
  | c :: cs' =>
      (if mutated c w then 1 else 0) + mutations cs' (snd (run c w))
  end.

Fixpoint all_chars (p : ascii -> bool) (s : string) : bool :=
  match s with
  | EmptyString => true
  | String c s' => p c && all_chars p s'
  end.

(** The priority the specification's sentence gives a new task: the
    supplied one whenever there is one, 5 otherwise. *)
Definition supplied_or_5 (o : option Z) : Z :=
  match o with
  | Some p => p
  | None => 5
  end.

(** What [addTask] returns on an existing workstream, for a given reading
    [prio] of "the priority of the new task". *)
Definition addTask_rule (prio : option Z -> Z) (name : string)
    (opts : TaskOpts) (ws : Workstream) (w : World) : Prop :=
  exists t w',
    addTask name opts w = (Returned t, w') /\
    task_id t = to_hex (map entropy (seq (drawn w) 4)) /\
    String.length (task_id t) = 8%nat /\
    all_chars is_lower_hex (task_id t) = true /\
    status t = pending /\
    title t = to_title opts /\
    priority t = prio (to_priority opts) /\
    workstreams (disk w') =
      <[name := set_tasks (tasks ws ++ [t]) ws]> (workstreams (disk w)).

(** A record passes the filters that are present. *)
Definition passes (oa ob : option string) (os : option Z) (e : Event) : Prop :=
  (forall a, oa = Some a -> agent e = a) /\
  (forall a, ob = Some a -> action e = a) /\
  (forall since, os = Some since -> since <= ts e).

#[global] Instance passes_dec oa ob os e : Decision (passes oa ob os e).
Proof.
  unfold passes. destruct oa as [a|], ob as [b|], os as [s|].
  all: try (destruct (decide (agent e = a)) as [?|Hn];
            [|right; intros (H & _ & _); by apply Hn, H]).
  all: try (destruct (decide (action e = b)) as [?|Hn];
            [|right; intros (_ & H & _); by apply Hn, H]).
  all: try (destruct (decide (s <= ts e)) as [?|Hn];
            [|right; intros (_ & _ & H); by apply Hn, H]).
  all: left; repeat split; intros ? [= <-]; done.
Defined.

(** A record matches a query when it passes every filter the query
    carries (an empty agent or action is no filter). *)
Definition matches (opts : EventQuery) (e : Event) : Prop :=
  passes (truthy_str (q_agent opts)) (truthy_str (q_action opts))
    (q_since opts) e.

#[global] Instance matches_dec opts e : Decision (matches opts e) :=
  passes_dec _ _ _ e.

(** The last [n] elements of a list (all of it when it is shorter). *)
Definition last_n {A : Type} (n : nat) (l : list A) : list A :=
  drop (length l - n) l.

(** What the query returns, for a given reading [limits] of "a value of
    [last] that limits the result": all matching records in journal order
    when no [last] is given, and for a limiting [last = n] the final [n]
    matching records, in journal order, never more than [n] of them. *)
Definition query_rule (limits : Z -> Prop) (opts : EventQuery) (w : World)
  : Prop :=
  exists res,
    getEvents opts w = (Returned res, w) /\
    (q_last opts = None -> res = filter (matches opts) (journal w)) /\
    (forall n,
       q_last opts = Some n -> limits n ->
       res = last_n (Z.to_nat n) (filter (matches opts) (journal w)) /\
       res `suffix_of` filter (matches opts) (journal w) /\
       Z.of_nat (length res) <= n).

(** ** Vocabulary of the further properties *)

(** *** What a board may become *)

(** The lifecycle order of the three statuses. *)
Definition status_rank (s : TaskStatus) : nat :=
  match s with
  | pending => 0
  | in_progress => 1
  | done_ => 2
  end.

(** [t'] is a later state of the task [t]: what was given at creation is
    as it was, and the status has not moved backwards. *)
Definition task_le (t t' : Task) : Prop :=
  task_id t' = task_id t /\
  title t' = title t /\
  description t' = description t /\
  priority t' = priority t /\
  estimate t' = estimate t /\
  created_at t' = created_at t /\
  (status_rank (status t) <= status_rank (status t'))%nat.

(** [l'] is a later state of the task sequence [l]: the same tasks at the
    same positions, each in a later state, followed by new ones. *)
Definition tasks_le (l l' : list Task) : Prop :=
  exists l1 l2, l' = l1 ++ l2 /\ Forall2 task_le l l1.

Definition ws_le (ws ws' : Workstream) : Prop :=
  ws_description ws' = ws_description ws /\
  ws_priority ws' = ws_priority ws /\
  ws_status ws' = ws_status ws /\
  ws_created_at ws' = ws_created_at ws /\
  tasks_le (tasks ws) (tasks ws').

(** [s'] is a later state of the board of [s]: every workstream is still
    there, in a later state. *)
Definition board_le (s s' : State) : Prop :=
  forall name ws,
    workstreams s !! name = Some ws ->
    exists ws', workstreams s' !! name = Some ws' /\ ws_le ws ws'.

(** *** Leases *)

(** A call that is not a lock call of agent [a] on resource [r]. *)
Definition leaves_lease (r a : string) (c : Call) : Prop :=
  match c with
  | AcquireLock r' a' _ => r' ≠ r \/ a' ≠ a
  | ReleaseLock r' a' => r' ≠ r \/ a' ≠ a
  | _ => True
  end.

(** *** The journal in time order *)

Definition by_ts (e1 e2 : Event) : Prop := ts e1 <= ts e2.

(** The journal is in time order and no record is stamped ahead of the
    clock. *)
Definition chronological (w : World) : Prop :=
  StronglySorted by_ts (journal w) /\
  Forall (fun e => ts e <= clock (ticks w)) (journal w).

(** *** What one call may do to the journal *)

(** Between [w] and [w'] the journal only grew, by at most one record,
    stamped with a clock reading taken in between. *)
Definition appended_at_most_one (w w' : World) : Prop :=
  exists evs,
    journal w' = journal w ++ evs /\
    (length evs <= 1)%nat /\
    Forall (fun e => exists k, (ticks w <= k < ticks w')%nat /\ ts e = clock k)
      evs.

(** ** The read-only views: [listWorkstreams], [status], [listKnowledge] *)

(** The order in which [Object.entries] lists the keys of an object and
    [readdirSync] the files of a directory depends on how the object or the
    directory came about; it is an oracle here, of which the properties
    below assume only that it lists every entry once. *)
Variable entries : forall V : Type, gmap string V -> list (string * V).

Definition entries_ok : Prop :=
  forall (V : Type) (m : gmap string V), entries V m ≡ₚ map_to_list m.

(** [Array.prototype.sort] with a comparator [key(a) - key(b)], stable as
    in [sort_by_priority]. *)
Fixpoint insert_on {A : Type} (key : A -> Z) (x : A) (l : list A) : list A :=
  match l with
  | [] => [x]
  | y :: l' =>
      if decide (key x <= key y) then x :: y :: l'
      else y :: insert_on key x l'
  end.

Fixpoint sort_on {A : Type} (key : A -> Z) (l : list A) : list A :=
  match l with
  | [] => []
  | x :: l' => insert_on key x (sort_on key l')
  end.

(** [array.map(f)] and [array.filter(f)] for a callback that reads the
    clock: the elements are visited in order. *)
Fixpoint map_m {A B : Type} (f : A -> M B) (l : list A) : M (list B) :=
  match l with
  | [] => mret []
  | x :: l' => y ← f x; ys ← map_m f l'; mret (y :: ys)
  end.

Fixpoint filter_m {A : Type} (f : A -> M bool) (l : list A) : M (list A) :=
  match l with
  | [] => mret []
  | x :: l' =>
      keep ← f x;
      ys ← filter_m f l';
      mret (if (keep : bool) then x :: ys else ys)
  end.

(** *** [listWorkstreams] *)

(** [ws.tasks.filter(t => t.status === s).length] *)
Definition count_status (s : TaskStatus) (l : list Task) : nat :=
  length (filter (fun t => status t = s) l).

(** One line of the listing: the name, the workstream's own fields, and
    the four counts. *)
Record Summary : Type := mkSummary {
  s_name : string;
  s_workstream : Workstream;
  task_count : nat;
  n_pending : nat;
  n_in_progress : nat;
  n_done : nat
}.

Definition summarize (e : string * Workstream) : Summary :=
  mkSummary (fst e) (snd e)
    (length (tasks (snd e)))
    (count_status pending (tasks (snd e)))
    (count_status in_progress (tasks (snd e)))
    (count_status done_ (tasks (snd e))).

Definition s_priority (s : Summary) : Z := ws_priority (s_workstream s).

Definition listWorkstreams : M (list Summary) :=
  state ← loadState;
  mret (sort_on s_priority (summarize <$> entries _ (workstreams state))).

(** *** [listKnowledge] *)

(** [s.endsWith(suffix)] *)
Fixpoint ends_with (suffix s : string) : bool :=
  if decide (s = suffix) then true
  else match s with
       | EmptyString => false
       | String _ s' => ends_with suffix s'
       end.

(** What follows [pat] when [s] starts with [pat]. *)
Fixpoint strip_prefix (pat s : string) : option string :=
  match pat, s with
  | EmptyString, _ => Some s
  | String a pat', String b s' =>
      if decide (a = b) then strip_prefix pat' s' else None
  | String _ _, EmptyString => None
  end.

(** [pat] occurs somewhere in [s]. *)
Fixpoint occurs (pat s : string) : bool :=
  match strip_prefix pat s with
  | Some _ => true
  | None =>
      match s with
      | EmptyString => false
      | String _ s' => occurs pat s'
      end
  end.

(** [s.replace(pat, '')] for a string pattern: the first occurrence of
    [pat] is removed. *)
Fixpoint remove_first (pat s : string) : string :=
  match strip_prefix pat s with
  | Some rest => rest
  | None =>
      match s with
      | EmptyString => EmptyString
      | String c s' => String c (remove_first pat s')
      end
  end.

(** The file of a topic. *)
Definition file_of (topic : string) : string := (topic ++ ".md")%string.

(** [readdirSync(KNOWLEDGE_DIR)]: the knowledge base holds one file per
    topic. *)
Definition readdir (w : World) : list string :=
  (fun e => file_of (fst e)) <$> entries _ (knowledge w).

Definition listKnowledge : M (list string) :=
  fun w =>
    (Returned
       (remove_first ".md" <$>
          filter (fun f => ends_with ".md" f = true) (readdir w)),
     w).

(** *** [status] *)

(** An agent as [status] shows it. *)
Record AgentView : Type := mkAgentView {
  av_id : string;
  av_agent : Agent;
  stale : bool
}.

Definition stale_after : Z := 300000.

Definition agentViews (es : list (string * Agent)) : M (list AgentView) :=
  map_m (fun e =>
           n ← now;
           mret (mkAgentView (fst e) (snd e)
                   (bool_decide (n - last_seen (snd e) > stale_after))))
    es.

Definition activeLocks (es : list (string * Lock)) : M (list (string * Lock)) :=
  filter_m (fun e =>
              let expiresAt := acquired_at (snd e) + ttl_ms (snd e) in
              n ← now;
              mret (bool_decide (n < expiresAt)))
    es.

Record Snapshot : Type := mkSnapshot {
  snap_version : Z;
  snap_updated_at : Z;
  snap_workstreams : list Summary;
  snap_agents : list AgentView;
  active_locks : list (string * Lock);
  recent_events : list Event;
  knowledge_topics : list string
}.

(** The function [status] of the source (the name is taken here by the
    status of a task). *)
Definition status_snapshot : M Snapshot :=
  state ← loadState;
  workstreams ← listWorkstreams;
  recentEvents ← getEvents (mkEventQuery None None None (Some 10));
  agents ← agentViews (entries _ (agents state));
  activeLocks ← activeLocks (entries _ (locks state));
  topics ← listKnowledge;
  mret (mkSnapshot (version state) (updated_at state) workstreams agents
          activeLocks recentEvents topics).

(** *** [statusText] *)

(** [s.split(sep)] for a separator of one character. *)
Fixpoint split_on (sep : ascii) (s : string) : list string :=
  match s with
  | EmptyString => [EmptyString]
  | String c s' =>
      if decide (c = sep) then EmptyString :: split_on sep s'
      else
        match split_on sep s' with
        | [] => [String c EmptyString]
        | x :: l => String c x :: l
        end
  end.

(** [lines.join(sep)] *)
Fixpoint join (sep : string) (l : list string) : string :=
  match l with
  | [] => EmptyString
  | [x] => x
  | x :: l' => (x ++ sep ++ join sep l')%string
  end.

(** [ts.split('T')[1].split('.')[0]]: the time of day of an ISO text;
    the first index finds nothing in a text without a ['T']. *)
Definition time_of_day (iso : string) : option string :=
  hms ← split_on "T" iso !! 1%nat; head (split_on "." hms).

Definition workstream_line (ws : Summary) : string :=
  ("[P" ++ pretty (ws_priority (s_workstream ws)) ++ "] " ++ s_name ws ++ ": "
   ++ pretty (n_pending ws) ++ " pending, "
   ++ pretty (n_in_progress ws) ++ " active, "
   ++ pretty (n_done ws) ++ " done")%string.

Definition agent_line (a : AgentView) : string :=
  (av_id a ++ " (" ++ agent_type (av_agent a) ++ "): "
   ++ agent_status (av_agent a)
   ++ (if stale a then " [STALE]" else ""))%string.

Definition lock_line (l : string * Lock) : string :=
  (fst l ++ ": held by " ++ lock_agent (snd l))%string.

Definition event_line (e : Event) : M string :=
  match time_of_day (toISOString (ts e)) with
  | Some time =>
      mret ("[" ++ time ++ "] " ++ agent e ++ ": " ++ action e)%string
  | None => throw (TypeError "split")
  end.

(** The lines of a list, or the one line that says there are none. *)
Definition or_none (none : string) (l : list string) : list string :=
  match l with
  | [] => [none]
  | _ => l
  end.

Definition statusText : M string :=
  s ← status_snapshot;
  events ← map_m event_line (recent_events s);
  let topics := join ", " (knowledge_topics s) in
  mret (join newline
    (["=== OpSpawn Orchestrator Status ===";
      ("State version: " ++ pretty (snap_version s) ++ " | Updated: "
         ++ toISOString (snap_updated_at s))%string;
      "";
      "--- Workstreams ---"]
     ++ (workstream_line <$> snap_workstreams s)
     ++ ["";
         "--- Agents ---"]
     ++ or_none "(none registered)" (agent_line <$> snap_agents s)
     ++ ["";
         "--- Active Locks ---"]
     ++ or_none "(none)" (lock_line <$> active_locks s)
     ++ ["";
         "--- Recent Events ---"]
     ++ events
     ++ ["";
         "--- Knowledge Base ---";
         if decide (topics = EmptyString) then "(empty)" else topics])).

(** The locks [activeLocks] keeps when the scan starts at reading [k]. *)
Fixpoint scan_locks (k : nat) (es : list (string * Lock))
  : list (string * Lock) :=
  match es with
  | [] => []
  | e :: es' =>
      if bool_decide (clock k < acquired_at (snd e) + ttl_ms (snd e))
      then e :: scan_locks (S k) es'
      else scan_locks (S k) es'
  end.

(** The views [agentViews] produces when the scan starts at reading [k]. *)
Fixpoint scan_agents (k : nat) (es : list (string * Agent)) : list AgentView :=
  match es with
  | [] => []
  | e :: es' =>
      mkAgentView (fst e) (snd e)
        (bool_decide (clock k - last_seen (snd e) > stale_after))
      :: scan_agents (S k) es'
  end.

(** The agent [a] is registered in [w] and was last seen at or after the
    instant [n]. *)
Definition seen_since (a : string) (n : Z) (w : World) : Prop :=
  exists r, agents (disk w) !! a = Some r /\ n <= last_seen r.

(** The header [writeKnowledge] puts before the content when the clock
    reads [t]. *)
Definition header_of (agentId : string) (t : Z) : string :=
  ("<!-- Updated by " ++ agentId ++ " at " ++ toISOString t ++ " -->"
     ++ newline)%string.

(** ** The runner's [collectResults] *)

Record Completed : Type := mkCompleted {
  c_workstream : string;
  c_task_id : string;
  c_title : string;
  c_result : jsval
}.

Record Running : Type := mkRunning {
  r_workstream : string;
  r_task_id : string;
  r_title : string;
  r_assigned_to : option string
}.

Record Collected : Type := mkCollected {
  collected_at : Z;
  completed_this_cycle : list Completed;
  still_in_progress : list Running;
  knowledge_updates : list string
}.

(** What the inner loop pushes for one workstream. *)
Definition completed_of (e : string * Workstream) : list Completed :=
  (fun t => mkCompleted (fst e) (task_id t) (title t) (result t))
    <$> filter (fun t => status t = done_) (tasks (snd e)).

Definition running_of (e : string * Workstream) : list Running :=
  (fun t => mkRunning (fst e) (task_id t) (title t) (assigned_to t))
    <$> filter (fun t => status t = in_progress) (tasks (snd e)).

Definition collectResults : M Collected :=
  state ← loadState;
  t ← now;
  topics ← listKnowledge;
  let es := entries _ (workstreams state) in
  mret (mkCollected t (es ≫= completed_of) (es ≫= running_of) topics).

(** ** The HTTP API of the server *)

(** The fields the handlers read from a JSON body; a field the body does
    not have reads as [undefined]. *)
Record Body : Type := mkBody {
  b_name : option string;
  b_description : option string;
  b_priority : option Z;
  b_title : option string;
  b_estimate : option string;
  b_agent : option string;
  b_result : option jsval;
  b_id : option string;
  b_type : option string;
  b_capabilities : option (list string);
  b_content : option string;
  b_resource : option string;
  b_ttl : option Z
}.

(** [parseBody]: the text sent is not JSON, or it is the JSON value
    [null], or it is a JSON object (no text at all reads as the empty
    object; a number, a string, a boolean or an array has none of the
    fields and reads like the empty object). *)
Inductive Parsed : Type :=
  | InvalidJSON
  | JsonNull
  | Json (b : Body).

(** What reading [dashboard.html] gives: its text, or the message of the
    error [readFileSync] throws. *)
Variable readDashboard : string + string.

(** The requests the server answers, after the method and the path have
    been matched and the path segments decoded (the task id of a claim or
    a completion is used as it stands in the path).  [OPTIONS] is a
    request with that method, whatever its path; [GET_events] carries the
    options the handler builds from the query string ([last] as [parseInt]
    reads it); [Undecodable] is a request on a route with a segment to
    decode whose segment is not a valid percent encoding; [NoRoute] is a
    request of another method that no route matches. *)
Inductive Request : Type :=
  | OPTIONS
  | GET_dashboard
  | GET_status
  | GET_status_text
  | GET_workstreams
  | POST_workstreams (body : Parsed)
  | GET_tasks (wsName : string)
  | POST_tasks (wsName : string) (body : Parsed)
  | POST_claim (wsName taskId : string) (body : Parsed)
  | POST_complete (wsName taskId : string) (body : Parsed)
  | POST_next (wsName : string) (body : Parsed)
  | GET_agents
  | POST_agents (body : Parsed)
  | POST_heartbeat (agentId : string)
  | GET_events (opts : EventQuery)
  | GET_knowledge
  | GET_topic (topic : string)
  | PUT_topic (topic : string) (body : Parsed)
  | GET_locks
  | POST_locks (body : Parsed)
  | DELETE_lock (resource : string) (body : Parsed)
  | Undecodable
  | NoRoute.

(** What a response carries; [PNothing] is a response without a body,
    which is also what [JSON.stringify(undefined)] makes of it. *)
Inductive Payload : Type :=
  | PNothing
  | PText (text : string)
  | PSnapshot (s : Snapshot)
  | PSummaries (l : list Summary)
  | PWorkstream (ws : Workstream)
  | PTasks (l : list Task)
  | PTask (t : Task)
  | PMessage (m : string)
  | PAgents (l : list AgentView)
  | PAgent (a : Agent)
  | PEvents (l : list Event)
  | POk
  | PTopics (l : list string)
  | PTopic (topic content : string)
  | PLocks (l : list (string * Lock))
  | PAcquired (acquired : bool)
  | PReleased (released : bool)
  | PError (m : string).

Record Response : Type := mkResponse {
  code : Z;
  payload : Payload
}.

(** What the handler makes of a request: the response it ends, or none
    when it ends none. *)
Definition Handled : Type := World -> option Response * World.

(** [res.writeHead(statusCode, ...); res.end(data)] *)
Definition respond (data : Payload) (statusCode : Z) : Handled :=
  fun w => (Some (mkResponse statusCode data), w).

(** [json(res, data, statusCode = 200)] and [error(res, message,
    statusCode = 400)] *)
Definition json (data : Payload) (statusCode : Z) : Handled :=
  respond data statusCode.

Definition error (m : string) (statusCode : Z) : Handled :=
  json (PError m) statusCode.

(** An engine call inside the handler's [try]: what it throws is answered
    with its message and 500. *)
Definition try_ {A : Type} (m : M A) (k : A -> Handled) : Handled :=
  fun w =>
    match m w with
    | (Returned a, w') => k a w'
    | (Threw e, w') => error (message e) 500 w'
    end.

(** The message of the [TypeError] that reading a field of [null]
    throws. *)
Definition null_read (field : string) : string :=
  ("Cannot read properties of null (reading '" ++ field ++ "')")%string.

(** [await parseBody(req)], whose rejection lands in the same [catch]; so
    does the error thrown when the body is [null] and the handler reads
    its first field, [field], of it. *)
Definition parseBody (body : Parsed) (field : string) (k : Body -> Handled)
  : Handled :=
  match body with
  | InvalidJSON => error "Invalid JSON" 500
  | JsonNull => error (null_read field) 500
  | Json b => k b
  end.

(** [GET /api/status/text] sets the status line before it calls
    [statusText]: when that call throws, the [catch] block's [error]
    finds the headers set, its [writeHead] throws in turn, and the
    handler ends no response. *)
Definition text_route (m : M string) : Handled :=
  fun w =>
    match m w with
    | (Returned text, w') => respond (PText text) 200 w'
    | (Threw _, w') => (None, w')
    end.

Definition handle (q : Request) : Handled :=
  match q with
  | OPTIONS => respond PNothing 204
  | GET_dashboard =>
      match readDashboard with
      | inl html => respond (PText html) 200
      | inr m => error m 500
      end
  | GET_status =>
      try_ status_snapshot (fun s => json (PSnapshot s) 200)
  | GET_status_text => text_route statusText
  | GET_workstreams =>
      try_ listWorkstreams (fun l => json (PSummaries l) 200)
  | POST_workstreams body =>
      parseBody body "name" (fun b =>
        match truthy_str (b_name b) with
        | None => error "name is required" 400
        | Some name =>
            try_ (createWorkstream name
                    (mkWorkstreamOpts (b_description b) (b_priority b)))
              (fun ws => json (PWorkstream ws) 201)
        end)
  | GET_tasks wsName =>
      try_ loadState (fun state =>
        try_ (lookup (workstreams state) wsName) (fun ws =>
          match ws with
          | Missing =>
              error
                ("Workstream " ++ dq ++ wsName ++ dq ++ " not found")%string
                404
          | Own ws => json (PTasks (tasks ws)) 200
          | Builtin => json PNothing 200
          end))
  | POST_tasks wsName body =>
      parseBody body "title" (fun b =>
        match truthy_str (b_title b) with
        | None => error "title is required" 400
        | Some title =>
            try_ (addTask wsName
                    (mkTaskOpts title (b_description b) (b_priority b)
                       (b_estimate b)))
              (fun t => json (PTask t) 201)
        end)
  | POST_claim wsName taskId body =>
      parseBody body "agent" (fun b =>
        match truthy_str (b_agent b) with
        | None => error "agent is required" 400
        | Some a =>
            try_ (claimTask wsName taskId a) (fun t => json (PTask t) 200)
        end)
  | POST_complete wsName taskId body =>
      parseBody body "result" (fun b =>
        try_ (completeTask wsName taskId (default JNull (b_result b)))
          (fun t => json (PTask t) 200))
  | POST_next wsName body =>
      parseBody body "agent" (fun b =>
        match truthy_str (b_agent b) with
        | None => error "agent is required" 400
        | Some a =>
            try_ (getNextTask wsName a) (fun o =>
              json (from_option PTask (PMessage "No pending tasks") o) 200)
        end)
  | GET_agents =>
      try_ loadState (fun state =>
        try_ (agentViews (entries _ (agents state)))
          (fun l => json (PAgents l) 200))
  | POST_agents body =>
      parseBody body "id" (fun b =>
        match truthy_str (b_id b) with
        | None => error "id is required" 400
        | Some i =>
            try_ (registerAgent i (mkAgentOpts (b_type b) (b_capabilities b)))
              (fun a => json (PAgent a) 201)
        end)
  | POST_heartbeat agentId =>
      try_ (heartbeat agentId) (fun _ => json POk 200)
  | GET_events opts =>
      try_ (getEvents opts) (fun l => json (PEvents l) 200)
  | GET_knowledge =>
      try_ listKnowledge (fun l => json (PTopics l) 200)
  | GET_topic topic =>
      try_ (readKnowledge topic) (fun o =>
        match o with
        | None =>
            error ("Topic " ++ dq ++ topic ++ dq ++ " not found")%string 404
        | Some content => json (PTopic topic content) 200
        end)
  | PUT_topic topic body =>
      parseBody body "content" (fun b =>
        match truthy_str (b_content b) with
        | None => error "content is required" 400
        | Some content =>
            try_ (writeKnowledge topic content (str_or (b_agent b) "api"))
              (fun _ => json POk 200)
        end)
  | GET_locks =>
      try_ loadState (fun state =>
        try_ (activeLocks (entries _ (locks state)))
          (fun l => json (PLocks l) 200))
  | POST_locks body =>
      parseBody body "resource" (fun b =>
        match truthy_str (b_resource b), truthy_str (b_agent b) with
        | Some r, Some a =>
            try_ (acquireLock r a (num_or (b_ttl b) 60000)) (fun acquired =>
              json (PAcquired acquired) (if acquired then 200 else 409))
        | _, _ => error "resource and agent are required" 400
        end)
  | DELETE_lock resource body =>
      parseBody body "agent" (fun b =>
        match truthy_str (b_agent b) with
        | None => error "agent is required" 400
        | Some a =>
            try_ (releaseLock resource a) (fun released =>
              json (PReleased released) 200)
        end)
  | Undecodable => error "URI malformed" 500
  | NoRoute => error "Not found" 404
  end.

(** The requests that only read. *)
Definition is_get (q : Request) : bool :=
  match q with
  | GET_dashboard | GET_status | GET_status_text | GET_workstreams | GET_tasks _ | GET_agents | GET_events _
  | GET_knowledge | GET_topic _ | GET_locks => true
  | _ => false
  end.

(** *** Whose call it is *)

(** A call that names the agent [a] as the one to register or to mark
    alive. *)
Definition is_agent_call (a : string) (c : Call) : Prop :=
  match c with
  | RegisterAgent a' _ => a' = a
  | Heartbeat a' => a' = a
  | _ => False
  end.

(** A lock call on the resource [r], by any agent. *)
Definition is_lock_call (r : string) (c : Call) : Prop :=
  match c with
  | AcquireLock r' _ _ => r' = r
  | ReleaseLock r' _ => r' = r
  | _ => False
  end.

(** ** Basic facts about the primitives *)

Ltac unfold_m :=
  unfold fmap, M_fmap, mbind, M_bind, mret, M_ret, bind, ret, throw in *.

Lemma saveState_run (s : State) (w : World) :
  saveState s w =
    (Returned tt,
     mkWorld (mkState (version s + 1) (clock (ticks w)) (workstreams s)
                (agents s) (locks s))
       (journal w) (knowledge w) (S (ticks w)) (drawn w) (polluted w)).
Proof. reflexivity. Qed.

Lemma logEvent_run (a act : string) (d : list (string * jsval)) (w : World) :
  logEvent a act d w =
    (Returned (mkEvent (clock (ticks w)) a act d),
     mkWorld (disk w) (journal w ++ [mkEvent (clock (ticks w)) a act d])
       (knowledge w) (S (ticks w)) (drawn w) (polluted w)).
Proof. reflexivity. Qed.

(** *** Objects as dictionaries *)

Lemma get_own {V : Type} (p : bool) (m : gmap string V) (k : string) (v : V) :
  m !! k = Some v -> get p m k = Own v.
Proof. intros E. unfold get. by rewrite E. Qed.

Lemma get_builtin {V : Type} (p : bool) (m : gmap string V) (k : string) :
  m !! k = None -> inherited p k -> get p m k = Builtin.
Proof. intros E Hk. unfold get. rewrite E. by rewrite decide_True. Qed.

Lemma get_missing {V : Type} (p : bool) (m : gmap string V) (k : string) :
  m !! k = None -> ¬ inherited p k -> get p m k = Missing.
Proof. intros E Hk. unfold get. rewrite E. by rewrite decide_False. Qed.

Lemma get_Own {V : Type} (p : bool) (m : gmap string V) (k : string) (v : V) :
  get p m k = Own v <-> m !! k = Some v.
Proof.
  unfold get. destruct (m !! k) as [u|]; [|by case_decide].
  split; congruence.
Qed.

Lemma get_Builtin {V : Type} (p : bool) (m : gmap string V) (k : string) :
  get p m k = Builtin <-> m !! k = None /\ inherited p k.
Proof.
  unfold get. destruct (m !! k) as [u|]; [by split; [|intros []]|].
  case_decide; split; try done. by intros [].
Qed.

Lemma get_Missing {V : Type} (p : bool) (m : gmap string V) (k : string) :
  get p m k = Missing <-> m !! k = None /\ ¬ inherited p k.
Proof.
  unfold get. destruct (m !! k) as [u|]; [by split; [|intros []]|].
  case_decide; split; try done. by intros [].
Qed.

Lemma proto_inherited (p : bool) : inherited p "__proto__".
Proof. left. unfold inherited_names. set_solver. Qed.

Lemma inherited_taint (p q : bool) (k : string) :
  inherited p k -> inherited (p || q) k.
Proof.
  intros [Hk|[-> Hk]]; [by left|]. by right.
Qed.

Lemma put_insert {V : Type} (k : string) (v : V) (m : gmap string V) :
  k ≠ "__proto__" \/ is_Some (m !! k) -> put k v m = <[k := v]> m.
Proof.
  intros Hk. unfold put. rewrite decide_False; [done|].
  intros [-> E]. destruct Hk as [Hk|[u Hu]]; [done|congruence].
Qed.

Lemma put_plain {V : Type} (p : bool) (k : string) (v : V) (m : gmap string V) :
  ¬ inherited p k -> put k v m = <[k := v]> m.
Proof.
  intros Hk. apply put_insert. left. intros ->. apply Hk, proto_inherited.
Qed.

Lemma put_proto {V : Type} (v : V) (m : gmap string V) :
  m !! "__proto__" = None -> put "__proto__" v m = m.
Proof. intros E. unfold put. by rewrite decide_True. Qed.

Lemma lookup_put_ne {V : Type} (k k' : string) (v : V) (m : gmap string V) :
  k ≠ k' -> put k v m !! k' = m !! k'.
Proof.
  intros Hk. unfold put. case_decide; [done|]. by rewrite lookup_insert_ne.
Qed.

(** An assignment never removes an entry. *)
Lemma lookup_put_is_Some {V : Type} (k k' : string) (v : V)
    (m : gmap string V) :
  is_Some (m !! k') -> is_Some (put k v m !! k').
Proof.
  intros Hk. unfold put. case_decide; [done|].
  destruct (decide (k = k')) as [->|Hne].
  - by rewrite lookup_insert_eq.
  - by rewrite lookup_insert_ne.
Qed.

(** *** Locks *)

Lemma acquireLock_granted (r a : string) (ttl : Z) (w : World) :
  grantable r a (clock (ticks w)) (disk w) ->
  acquireLock r a ttl w =
    (Returned true,
     let k := stamp_tick r w in
     mkWorld
       (mkState (version (disk w) + 1) (clock (S k)) (workstreams (disk w))
          (agents (disk w))
          (put r (mkLock a (clock k) ttl) (locks (disk w))))
       (journal w ++
          [mkEvent (clock (S (S k))) a "lock_acquired" [("resource", JStr r)]])
       (knowledge w) (S (S (S k))) (drawn w) (polluted w)).
Proof.
  unfold grantable, stamp_tick, acquireLock, loadState, lookup, now, get.
  unfold_m. cbn.
  destruct (locks (disk w) !! r) as [l|] eqn:El; cbn.
  - intros Hg.
    assert (bool_decide (clock (ticks w) < acquired_at l + ttl_ms l)
            && bool_decide (lock_agent l ≠ a) = false) as ->.
    { apply andb_false_iff. destruct Hg as [Hg|Hg].
      - left. apply bool_decide_eq_false. lia.
      - right. apply bool_decide_eq_false. intros Hn. by apply Hn. }
    reflexivity.
  - intros _. by case_decide.
Qed.

Lemma acquireLock_denied (r a : string) (ttl : Z) (w : World) :
  ¬ grantable r a (clock (ticks w)) (disk w) ->
  acquireLock r a ttl w =
    (Returned false,
     mkWorld (disk w) (journal w) (knowledge w) (S (ticks w)) (drawn w) (polluted w)).
Proof.
  unfold grantable, acquireLock, loadState, lookup, now, get. unfold_m. cbn.
  destruct (locks (disk w) !! r) as [l|] eqn:El; cbn.
  - intros Hg.
    assert (bool_decide (clock (ticks w) < acquired_at l + ttl_ms l)
            && bool_decide (lock_agent l ≠ a) = true) as ->.
    { apply andb_true_iff. split; apply bool_decide_eq_true.
      - destruct (decide (clock (ticks w) < acquired_at l + ttl_ms l)); [done|].
        exfalso. apply Hg. left. lia.
      - intros Hn. apply Hg. by right. }
    reflexivity.
  - intros Hg. by destruct Hg.
Qed.

Lemma releaseLock_held (r a : string) (l : Lock) (w : World) :
  locks (disk w) !! r = Some l ->
  lock_agent l = a ->
  releaseLock r a w =
    (Returned true,
     mkWorld
       (mkState (version (disk w) + 1) (clock (ticks w))
          (workstreams (disk w)) (agents (disk w))
          (delete r (locks (disk w))))
       (journal w ++
          [mkEvent (clock (S (ticks w))) a "lock_released"
             [("resource", JStr r)]])
       (knowledge w) (S (S (ticks w))) (drawn w) (polluted w)).
Proof.
  intros El Ha. unfold releaseLock, loadState. unfold_m. cbn.
  rewrite El. rewrite decide_True by done. reflexivity.
Qed.

Lemma releaseLock_not_held (r a : string) (w : World) :
  (forall l, locks (disk w) !! r = Some l -> lock_agent l ≠ a) ->
  releaseLock r a w = (Returned false, w).
Proof.
  intros H. unfold releaseLock, loadState. unfold_m. cbn.
  destruct (locks (disk w) !! r) as [l|] eqn:El; [|done].
  rewrite decide_False; [done|]. by apply H.
Qed.

(** *** Tasks *)

(** [find] returns the first task carrying the id. *)
Lemma find_task_Some (taskId : string) (l : list Task) (i : nat) (t : Task) :
  find_task taskId l = Some (i, t) <->
  l !! i = Some t /\ task_id t = taskId /\
  (forall j u, l !! j = Some u -> (j < i)%nat -> task_id u ≠ taskId).
Proof. unfold find_task. by rewrite list_find_Some. Qed.

Lemma find_task_None (taskId : string) (l : list Task) :
  find_task taskId l = None <-> (forall t, t ∈ l -> task_id t ≠ taskId).
Proof.
  unfold find_task. rewrite list_find_None, Forall_forall. reflexivity.
Qed.

(** In a sequence of distinct ids, a task is the first one with its id. *)
Lemma find_task_middle (l1 l2 : list Task) (t : Task) :
  (forall u, u ∈ l1 -> task_id u ≠ task_id t) ->
  find_task (task_id t) (l1 ++ t :: l2) = Some (length l1, t).
Proof.
  intros Hl1. apply find_task_Some. split; [|split].
  - by apply list_lookup_middle.
  - reflexivity.
  - intros j u Hj Hlt. apply Hl1.
    rewrite lookup_app_l in Hj by done.
    by eapply list_elem_of_lookup_2.
Qed.

Lemma claimTask_no_workstream (name taskId a : string) (w : World) :
  get (polluted w) (workstreams (disk w)) name = Missing ->
  claimTask name taskId a w = (Threw (WorkstreamNotFound name), w).
Proof.
  intros E. unfold claimTask, loadState, lookup. unfold_m. cbn. by rewrite E.
Qed.

Lemma claimTask_builtin (name taskId a : string) (w : World) :
  get (polluted w) (workstreams (disk w)) name = Builtin ->
  claimTask name taskId a w = (Threw (TypeError "find"), w).
Proof.
  intros E. unfold claimTask, loadState, lookup. unfold_m. cbn. by rewrite E.
Qed.

Lemma claimTask_no_task (name taskId a : string) (ws : Workstream) (w : World) :
  workstreams (disk w) !! name = Some ws ->
  find_task taskId (tasks ws) = None ->
  claimTask name taskId a w = (Threw (TaskNotFound taskId), w).
Proof.
  intros E F. unfold claimTask, loadState, lookup. unfold_m. cbn.
  by rewrite (get_own _ _ _ _ E), F.
Qed.

Lemma claimTask_not_pending (name taskId a : string) (ws : Workstream)
    (i : nat) (t : Task) (w : World) :
  workstreams (disk w) !! name = Some ws ->
  find_task taskId (tasks ws) = Some (i, t) ->
  status t ≠ pending ->
  claimTask name taskId a w = (Threw (TaskNotPending taskId (status t)), w).
Proof.
  intros E F S. unfold claimTask, loadState, lookup. unfold_m. cbn.
  rewrite (get_own _ _ _ _ E), F. by rewrite decide_True.
Qed.

Lemma claimTask_pending (name taskId a : string) (ws : Workstream)
    (i : nat) (t : Task) (w : World) :
  workstreams (disk w) !! name = Some ws ->
  find_task taskId (tasks ws) = Some (i, t) ->
  status t = pending ->
  claimTask name taskId a w =
    (Returned (claimed_by a (clock (ticks w)) t),
     after_task_update w name ws i (claimed_by a (clock (ticks w)) t)
       a "task_claimed"
       [("workstream", JStr name); ("task_id", JStr taskId)]).
Proof.
  intros E F S. unfold claimTask, loadState, lookup. unfold_m. cbn.
  rewrite (get_own _ _ _ _ E), F.
  rewrite decide_False by (intros H; by apply H).
  reflexivity.
Qed.

Lemma completeTask_no_workstream (name taskId : string) (r : jsval) (w : World) :
  get (polluted w) (workstreams (disk w)) name = Missing ->
  completeTask name taskId r w = (Threw (WorkstreamNotFound name), w).
Proof.
  intros E. unfold completeTask, loadState, lookup. unfold_m. cbn.
  by rewrite E.
Qed.

Lemma completeTask_builtin (name taskId : string) (r : jsval) (w : World) :
  get (polluted w) (workstreams (disk w)) name = Builtin ->
  completeTask name taskId r w = (Threw (TypeError "find"), w).
Proof.
  intros E. unfold completeTask, loadState, lookup. unfold_m. cbn.
  by rewrite E.
Qed.

Lemma completeTask_no_task (name taskId : string) (r : jsval)
    (ws : Workstream) (w : World) :
  workstreams (disk w) !! name = Some ws ->
  find_task taskId (tasks ws) = None ->
  completeTask name taskId r w = (Threw (TaskNotFound taskId), w).
Proof.
  intros E F. unfold completeTask, loadState, lookup. unfold_m. cbn.
  by rewrite (get_own _ _ _ _ E), F.
Qed.

Lemma completeTask_found (name taskId : string) (r : jsval) (ws : Workstream)
    (i : nat) (t : Task) (w : World) :
  workstreams (disk w) !! name = Some ws ->
  find_task taskId (tasks ws) = Some (i, t) ->
  completeTask name taskId r w =
    (Returned (completed_with r (clock (ticks w)) t),
     after_task_update w name ws i (completed_with r (clock (ticks w)) t)
       (str_or (assigned_to t) "system") "task_completed"
       [("workstream", JStr name); ("task_id", JStr taskId); ("result", r)]).
Proof.
  intros E F. unfold completeTask, loadState, lookup. unfold_m. cbn.
  rewrite (get_own _ _ _ _ E), F. reflexivity.
Qed.

(** *** The sort of [getNextTask] and the task it puts first *)

Lemma insert_by_priority_perm (x : Task) (l : list Task) :
  insert_by_priority x l ≡ₚ x :: l.
Proof.
  induction l as [|y l IH]; cbn; [done|].
  case_decide; [done|]. rewrite IH. apply Permutation_swap.
Qed.

Lemma sort_by_priority_perm (l : list Task) : sort_by_priority l ≡ₚ l.
Proof.
  induction l as [|x l IH]; cbn; [done|].
  by rewrite insert_by_priority_perm, IH.
Qed.

Lemma insert_by_priority_sorted (x : Task) (l : list Task) :
  StronglySorted by_priority l ->
  StronglySorted by_priority (insert_by_priority x l).
Proof.
  induction 1 as [|y l Hs IH Hy]; cbn.
  - repeat constructor.
  - case_decide as Hxy.
    + constructor; [by constructor|].
      constructor; [done|].
      eapply Forall_impl; [exact Hy|]. unfold by_priority. cbn. lia.
    + constructor; [done|].
      rewrite insert_by_priority_perm. constructor; [|done].
      unfold by_priority. lia.
Qed.

Lemma sort_by_priority_sorted (l : list Task) :
  StronglySorted by_priority (sort_by_priority l).
Proof.
  induction l as [|x l IH]; cbn; [constructor|].
  by apply insert_by_priority_sorted.
Qed.

(** Stability: tasks of equal priority keep their relative order. *)
Lemma insert_by_priority_stable (p : Z) (x : Task) (l : list Task) :
  filter (fun t => priority t = p) (insert_by_priority x l) =
  filter (fun t => priority t = p) (x :: l).
Proof.
  induction l as [|y l IH]; cbn; [done|].
  case_decide as Hxy; [done|].
  rewrite filter_cons, IH, !filter_cons.
  repeat case_decide; try done; lia.
Qed.

Lemma sort_by_priority_stable (p : Z) (l : list Task) :
  filter (fun t => priority t = p) (sort_by_priority l) =
  filter (fun t => priority t = p) l.
Proof.
  induction l as [|x l IH]; cbn; [done|].
  by rewrite insert_by_priority_stable, !filter_cons, IH.
Qed.

Lemma head_insert_by_priority (x : Task) (l : list Task) :
  head (insert_by_priority x l) =
  match head l with
  | None => Some x
  | Some y => if decide (priority x <= priority y) then Some x else Some y
  end.
Proof. destruct l as [|y l]; cbn; [done|]. by case_decide. Qed.

Lemma head_sort_by_priority (l : list Task) :
  head (sort_by_priority l) = lowest l.
Proof.
  induction l as [|x l IH]; cbn; [done|].
  by rewrite head_insert_by_priority, IH.
Qed.

Lemma lowest_elem_of (l : list Task) (t : Task) :
  lowest l = Some t -> t ∈ l.
Proof.
  revert t. induction l as [|x l IH]; cbn; [done|]. intros t.
  destruct (lowest l) as [y|].
  - case_decide; intros [= <-]; [left | right; by apply IH].
  - intros [= <-]. left.
Qed.

(** The first of the least: every task before it is strictly less
    urgent, no task after it is more urgent. *)
Lemma lowest_middle (l1 l2 : list Task) (t : Task) :
  (forall u, u ∈ l1 -> priority t < priority u) ->
  (forall u, u ∈ l2 -> priority t <= priority u) ->
  lowest (l1 ++ t :: l2) = Some t.
Proof.
  intros H1 H2. induction l1 as [|u l1 IH]; cbn.
  - destruct (lowest l2) as [y|] eqn:E; [|done].
    apply lowest_elem_of, H2 in E. by rewrite decide_True.
  - rewrite IH.
    + rewrite decide_False; [done|].
      specialize (H1 u ltac:(left)). lia.
    + intros v Hv. apply H1. by right.
Qed.

Lemma first_lowest_pending_head (l1 l2 : list Task) (t : Task) :
  first_lowest_pending l1 t l2 ->
  sort_by_priority (filter (fun u => status u = pending) (l1 ++ t :: l2))
    !! 0%nat = Some t.
Proof.
  intros (Ht & H1 & H2).
  rewrite <- head_lookup, head_sort_by_priority.
  rewrite filter_app, filter_cons, decide_True by done.
  apply lowest_middle.
  - intros u [Hu Hp]%list_elem_of_filter. by apply H1.
  - intros u [Hu Hp]%list_elem_of_filter. by apply H2.
Qed.

Lemma first_lowest_pending_exists (l : list Task) :
  (exists u, u ∈ l /\ status u = pending) ->
  exists l1 t l2, l = (l1 ++ t :: l2) /\ first_lowest_pending l1 t l2.
Proof.
  induction l as [|x l IH]; intros (u & Hu & Hp).
  { by apply elem_of_nil in Hu. }
  destruct (decide (Exists (fun v => status v = pending) l)) as [Hl|Hl];
    rewrite Exists_exists in Hl.
  - destruct (IH Hl) as (l1 & t & l2 & -> & Ht & H1 & H2).
    destruct (decide (status x = pending /\ priority x <= priority t))
      as [[Hx Hle]|Hx].
    + exists [], x, (l1 ++ t :: l2). split; [done|].
      split; [done|]. split.
      * intros v Hv. by apply elem_of_nil in Hv.
      * intros v Hv Hvp. apply elem_of_app in Hv as [Hv|Hv].
        -- specialize (H1 v Hv Hvp). lia.
        -- apply elem_of_cons in Hv as [->|Hv]; [done|].
           specialize (H2 v Hv Hvp). lia.
    + exists (x :: l1), t, l2. split; [done|].
      split; [done|]. split; [|done].
      intros v Hv Hvp. apply elem_of_cons in Hv as [->|Hv]; [|by apply H1].
      destruct (decide (priority t < priority x)); [done|].
      exfalso. apply Hx. split; [done|lia].
  - assert (x = u) as ->.
    { apply elem_of_cons in Hu as [->|Hu]; [done|].
      exfalso. apply Hl. by exists u. }
    exists [], u, l. split; [done|]. split; [done|]. split.
    + intros v Hv. by apply elem_of_nil in Hv.
    + intros v Hv Hvp. exfalso. apply Hl. by exists v.
Qed.

Lemma getNextTask_no_workstream (name a : string) (w : World) :
  get (polluted w) (workstreams (disk w)) name = Missing ->
  getNextTask name a w = (Threw (WorkstreamNotFound name), w).
Proof.
  intros E. unfold getNextTask, loadState, lookup. unfold_m. cbn.
  by rewrite E.
Qed.

Lemma getNextTask_builtin (name a : string) (w : World) :
  get (polluted w) (workstreams (disk w)) name = Builtin ->
  getNextTask name a w = (Threw (TypeError "filter"), w).
Proof.
  intros E. unfold getNextTask, loadState, lookup. unfold_m. cbn.
  by rewrite E.
Qed.

(** [getNextTask] is [claimTask] on the id of the head of the sorted
    pending tasks. *)
Lemma getNextTask_unfold (name a : string) (ws : Workstream) (w : World) :
  workstreams (disk w) !! name = Some ws ->
  getNextTask name a w =
    match sort_by_priority (filter (fun t => status t = pending) (tasks ws))
            !! 0%nat with
    | None => (Returned None, w)
    | Some first =>
        match claimTask name (task_id first) a w with
        | (Returned t, w') => (Returned (Some t), w')
        | (Threw e, w') => (Threw e, w')
        end
    end.
Proof.
  intros E. unfold getNextTask, loadState, lookup. unfold_m. cbn.
  rewrite (get_own _ _ _ _ E).
  by destruct (sort_by_priority _).
Qed.

Lemma getNextTask_none (name a : string) (ws : Workstream) (w : World) :
  workstreams (disk w) !! name = Some ws ->
  (forall t, t ∈ tasks ws -> status t ≠ pending) ->
  getNextTask name a w = (Returned None, w).
Proof.
  intros E Hnone. rewrite (getNextTask_unfold _ _ _ _ E).
  replace (filter (fun t => status t = pending) (tasks ws)) with (@nil Task);
    [done|].
  induction (tasks ws) as [|t l IH]; [done|].
  rewrite filter_cons_False by (apply Hnone; left).
  apply IH. intros u Hu. apply Hnone. by right.
Qed.

Lemma getNextTask_first (name a : string) (ws : Workstream) (w : World)
    (l1 l2 : list Task) (t : Task) :
  workstreams (disk w) !! name = Some ws ->
  tasks ws = l1 ++ t :: l2 ->
  first_lowest_pending l1 t l2 ->
  (forall u, u ∈ l1 -> task_id u ≠ task_id t) ->
  getNextTask name a w =
    (Returned (Some (claimed_by a (clock (ticks w)) t)),
     after_task_update w name ws (length l1)
       (claimed_by a (clock (ticks w)) t) a "task_claimed"
       [("workstream", JStr name); ("task_id", JStr (task_id t))]).
Proof.
  intros E Hsplit Hfirst Hid. rewrite (getNextTask_unfold _ _ _ _ E).
  rewrite Hsplit, (first_lowest_pending_head _ _ _ Hfirst).
  rewrite (claimTask_pending name (task_id t) a ws (length l1) t w); [done|done| |].
  - rewrite Hsplit. by apply find_task_middle.
  - by destruct Hfirst.
Qed.

(** *** Workstreams, tasks and agents: what each call leaves behind *)

Lemma createWorkstream_exists (name : string) (opts : WorkstreamOpts)
    (ws : Workstream) (w : World) :
  workstreams (disk w) !! name = Some ws ->
  createWorkstream name opts w = (Threw (WorkstreamExists name), w).
Proof.
  intros E. unfold createWorkstream, loadState, lookup. unfold_m. cbn.
  by rewrite (get_own _ _ _ _ E).
Qed.

Lemma createWorkstream_builtin (name : string) (opts : WorkstreamOpts)
    (w : World) :
  get (polluted w) (workstreams (disk w)) name = Builtin ->
  createWorkstream name opts w = (Threw (WorkstreamExists name), w).
Proof.
  intros E. unfold createWorkstream, loadState, lookup. unfold_m. cbn.
  by rewrite E.
Qed.

Lemma createWorkstream_fresh (name : string) (opts : WorkstreamOpts) (w : World) :
  get (polluted w) (workstreams (disk w)) name = Missing ->
  createWorkstream name opts w =
    (let ws := mkWorkstream (str_or (wo_description opts) EmptyString)
                 (num_or (wo_priority opts) 5) "active" []
                 (clock (ticks w)) in
     (Returned ws,
      mkWorld
        (mkState (version (disk w) + 1) (clock (S (ticks w)))
           (<[name := ws]> (workstreams (disk w)))
           (agents (disk w)) (locks (disk w)))
        (journal w ++
           [mkEvent (clock (S (S (ticks w)))) "system" "workstream_created"
              [("workstream", JStr name)]])
        (knowledge w) (S (S (S (ticks w)))) (drawn w) (polluted w))).
Proof.
  intros E. unfold createWorkstream, loadState, lookup. unfold_m. cbn.
  rewrite E. apply get_Missing in E as [_ Hk].
  by rewrite (put_plain _ _ _ _ Hk).
Qed.

Lemma addTask_no_workstream (name : string) (opts : TaskOpts) (w : World) :
  get (polluted w) (workstreams (disk w)) name = Missing ->
  addTask name opts w = (Threw (WorkstreamNotFound name), w).
Proof.
  intros E. unfold addTask, loadState, lookup. unfold_m. cbn. by rewrite E.
Qed.

(** Under an inherited name the id is drawn and the clock read twice
    before [ws.tasks.push] fails. *)
Lemma addTask_builtin (name : string) (opts : TaskOpts) (w : World) :
  get (polluted w) (workstreams (disk w)) name = Builtin ->
  addTask name opts w =
    (Threw (TypeError "push"),
     mkWorld (disk w) (journal w) (knowledge w) (S (S (ticks w)))
       (drawn w + 4)%nat (polluted w)).
Proof.
  intros E. unfold addTask, loadState, lookup. unfold_m. cbn. by rewrite E.
Qed.

Lemma addTask_found (name : string) (opts : TaskOpts) (ws : Workstream)
    (w : World) :
  workstreams (disk w) !! name = Some ws ->
  addTask name opts w =
    (Returned (new_task opts w),
     mkWorld
       (mkState (version (disk w) + 1) (clock (S (S (ticks w))))
          (<[name := set_tasks (tasks ws ++ [new_task opts w]) ws]>
             (workstreams (disk w)))
          (agents (disk w)) (locks (disk w)))
       (journal w ++
          [mkEvent (clock (S (S (S (ticks w))))) "system" "task_created"
             [("workstream", JStr name); ("task_id", JStr (next_id w));
              ("title", JStr (to_title opts))]])
       (knowledge w) (S (S (S (S (ticks w))))) (drawn w + 4)%nat (polluted w)).
Proof.
  intros E. unfold addTask, loadState, lookup. unfold_m. cbn.
  by rewrite (get_own _ _ _ _ E).
Qed.

Lemma registerAgent_run (a : string) (opts : AgentOpts) (w : World) :
  registerAgent a opts w =
    (let r := mkAgent (str_or (ao_type opts) "general") "active"
                (default [] (ao_capabilities opts))
                (clock (ticks w)) (clock (S (ticks w))) in
     (Returned r,
      mkWorld
        (mkState (version (disk w) + 1) (clock (S (S (ticks w))))
           (workstreams (disk w)) (put a r (agents (disk w)))
           (locks (disk w)))
        (journal w ++
           [mkEvent (clock (S (S (S (ticks w))))) a "agent_registered"
              (match ao_type opts with
               | Some ty => [("type", JStr ty)]
               | None => []
               end)])
        (knowledge w) (S (S (S (S (ticks w))))) (drawn w) (polluted w))).
Proof. reflexivity. Qed.

Lemma heartbeat_known (a : string) (r : Agent) (w : World) :
  agents (disk w) !! a = Some r ->
  heartbeat a w =
    (Returned tt,
     mkWorld
       (mkState (version (disk w) + 1) (clock (S (ticks w)))
          (workstreams (disk w))
          (<[a := mkAgent (agent_type r) "active" (capabilities r)
                    (registered_at r) (clock (ticks w))]> (agents (disk w)))
          (locks (disk w)))
       (journal w) (knowledge w) (S (S (ticks w))) (drawn w) (polluted w)).
Proof.
  intros E. unfold heartbeat, loadState, lookup. unfold_m. cbn.
  by rewrite (get_own _ _ _ _ E).
Qed.

Lemma heartbeat_unknown (a : string) (w : World) :
  get (polluted w) (agents (disk w)) a = Missing ->
  heartbeat a w = (Returned tt, w).
Proof.
  intros E. unfold heartbeat, loadState, lookup. unfold_m. cbn. by rewrite E.
Qed.

(** Under an inherited name the document is saved as it is. *)
Lemma heartbeat_builtin (a : string) (w : World) :
  get (polluted w) (agents (disk w)) a = Builtin ->
  heartbeat a w =
    (Returned tt,
     mkWorld
       (mkState (version (disk w) + 1) (clock (S (ticks w)))
          (workstreams (disk w)) (agents (disk w)) (locks (disk w)))
       (journal w) (knowledge w) (S (S (ticks w))) (drawn w)
       (polluted w || bool_decide (a = "__proto__"))).
Proof.
  intros E. unfold heartbeat, loadState, lookup. unfold_m. cbn. by rewrite E.
Qed.

Lemma deleteKnowledge_absent (topic a : string) (w : World) :
  knowledge w !! topic = None ->
  deleteKnowledge topic a w = (Returned false, w).
Proof.
  intros E. unfold deleteKnowledge. unfold_m. cbn. rewrite E.
  rewrite bool_decide_eq_false_2; [done|]. by intros [? ?].
Qed.

Lemma deleteKnowledge_present (topic a : string) (w : World) :
  is_Some (knowledge w !! topic) ->
  fst (deleteKnowledge topic a w) = Returned true.
Proof.
  intros E. unfold deleteKnowledge. unfold_m. cbn.
  by rewrite bool_decide_eq_true_2.
Qed.

(** ** The lock manager *)

(** C2, with the lease ending at its expiry instant, for every resource
    name other than ["__proto__"]: [acquireLock] succeeds if and only if
    the resource has no lock entry, or the entry's lease has run out,
    [acquiredAt + ttlMs <= now] (the boundary instant included), or the
    entry's holder is the caller; the only other result is the boolean
    failure.  On success the entry is replaced by a fresh record (caller,
    a new clock reading, the given ttl), the document is saved once, and
    [lock_acquired] is journalled for the caller. *)
Theorem acquireLock_grants_iff_free (r a : string) (ttl : Z) (w : World) :
  r ≠ "__proto__" ->
  acquire_rule grantable r a ttl w /\
  (fst (acquireLock r a ttl w) = Returned true \/
   fst (acquireLock r a ttl w) = Returned false).
Proof.
  intros Hr. unfold acquire_rule.
  destruct (decide (grantable r a (clock (ticks w)) (disk w))) as [Hg|Hg].
  - rewrite (acquireLock_granted r a ttl w Hg). cbn.
    split; [split|by left].
    + done.
    + intros _. unfold lock_granted; cbn.
      rewrite put_insert by (by left).
      assert (ticks w <= stamp_tick r w <= S (ticks w))%nat as Hk.
      { unfold stamp_tick. destruct (get _ _ _); lia. }
      repeat split; lia.
  - rewrite (acquireLock_denied r a ttl w Hg). cbn.
    split; [split|by right].
    + split; [discriminate|done].
    + discriminate.
Qed.

(** C9: a lock whose ttl is 0 (taken at a reading not after the present
    one), or whose expiry instant [acquiredAt + ttlMs] lies in the past,
    is granted to a different agent at once, and the entry becomes that
    agent's. *)
Theorem lapsed_lock_is_acquirable (r a : string) (ttl : Z) (l : Lock)
    (w : World) :
  locks (disk w) !! r = Some l ->
  lock_agent l ≠ a ->
  (ttl_ms l = 0 /\ acquired_at l <= clock (ticks w)) \/
    acquired_at l + ttl_ms l < clock (ticks w) ->
  fst (acquireLock r a ttl w) = Returned true /\
  locks (disk (snd (acquireLock r a ttl w))) !! r =
    Some (mkLock a (clock (S (ticks w))) ttl).
Proof.
  intros El Ha Hl.
  assert (grantable r a (clock (ticks w)) (disk w)) as Hg.
  { unfold grantable. rewrite El. left. lia. }
  rewrite (acquireLock_granted r a ttl w Hg). cbn.
  unfold stamp_tick. rewrite (get_own _ _ _ _ El).
  rewrite put_insert by (by right). split; [done|]. apply lookup_insert_eq.
Qed.

(** The scenario behind C9: under a clock that does not run backwards, a
    lock taken with ttl 0 is granted to the very next caller. *)
Corollary zero_ttl_lock_then_other_agent (r a1 a2 : string) (ttl : Z)
    (w : World) :
  monotone_clock ->
  fst (acquireLock r a1 0 w) = Returned true ->
  fst (acquireLock r a2 ttl (snd (acquireLock r a1 0 w))) = Returned true.
Proof.
  intros Hmono Hfirst.
  destruct (decide (grantable r a1 (clock (ticks w)) (disk w))) as [Hg|Hg].
  - rewrite (acquireLock_granted r a1 0 w Hg). cbn.
    rewrite acquireLock_granted; [done|].
    unfold grantable, put. cbn. case_decide as Hp.
    + destruct Hp as [_ ->]. done.
    + rewrite lookup_insert_eq. cbn. left.
      rewrite Z.add_0_r. apply Hmono.
      unfold stamp_tick. destruct (get _ _ _); lia.
  - rewrite (acquireLock_denied r a1 0 w Hg) in Hfirst. discriminate.
Qed.

(** C10: [releaseLock] looks at existence and holder only.  It succeeds
    exactly when an entry exists whose holder is the caller; then the
    entry is deleted, the document saved and [lock_released] journalled,
    whatever the entry's [acquiredAt] and [ttlMs] are and whatever the
    clock reads, in particular when the lease ran out long ago. *)
Theorem releaseLock_ignores_expiry (r a : string) (w : World) :
  (fst (releaseLock r a w) = Returned true <->
     exists l, locks (disk w) !! r = Some l /\ lock_agent l = a) /\
  (forall l,
     locks (disk w) !! r = Some l ->
     lock_agent l = a ->
     fst (releaseLock r a w) = Returned true /\
     locks (disk (snd (releaseLock r a w))) = delete r (locks (disk w)) /\
     locks (disk (snd (releaseLock r a w))) !! r = None /\
     version (disk (snd (releaseLock r a w))) = version (disk w) + 1 /\
     journal (snd (releaseLock r a w)) =
       journal w ++
         [mkEvent (clock (S (ticks w))) a "lock_released"
            [("resource", JStr r)]]).
Proof.
  split.
  - split.
    + intros Hres.
      destruct (locks (disk w) !! r) as [l|] eqn:El.
      * destruct (decide (lock_agent l = a)) as [Ha|Ha]; [by exists l|].
        rewrite releaseLock_not_held in Hres; [discriminate|].
        intros l' El'. congruence.
      * rewrite releaseLock_not_held in Hres; [discriminate|].
        intros l' El'. congruence.
    + intros (l & El & Ha). by rewrite (releaseLock_held r a l w El Ha).
  - intros l El Ha. rewrite (releaseLock_held r a l w El Ha). cbn.
    repeat split. apply lookup_delete_eq.
Qed.

(** ** The task board *)

(** C3 does not hold of the code for a workstream name that every object
    inherits ("constructor", "toString", "__proto__", ...).  With no
    workstream stored under such a name, [state.workstreams[name]] is
    the inherited value, the guard [if (!ws)] lets it pass, and
    [ws.tasks.find] raises a [TypeError] where the claim says NotFound;
    nothing is changed. *)
Theorem claimTask_inherited_name (name taskId a : string) (w : World) :
  workstreams (disk w) !! name = None ->
  inherited (polluted w) name ->
  claimTask name taskId a w = (Threw (TypeError "find"), w) /\
  kind_of (TypeError "find") ≠ NotFound.
Proof.
  intros E Hk. split; [|discriminate].
  by apply claimTask_builtin, get_builtin.
Qed.

(** X23: for a workstream name that is stored, or that no object
    inherits, [claimTask] raises NotFound when the workstream is absent
    or no task carries the id, raises InvalidState when the task found
    is not pending (the state is left as it was in all three cases), and
    otherwise marks the task [in_progress], assigns it to the caller,
    stamps its [updated_at] with the current clock reading, saves the
    document and journals [task_claimed] for the caller. *)
Theorem claimTask_contract (name taskId a : string) (w : World) :
  (workstreams (disk w) !! name = None ->
     ¬ inherited (polluted w) name ->
     exists e, claimTask name taskId a w = (Threw e, w) /\
               kind_of e = NotFound) /\
  (forall ws,
     workstreams (disk w) !! name = Some ws ->
     (forall t, t ∈ tasks ws -> task_id t ≠ taskId) ->
     exists e, claimTask name taskId a w = (Threw e, w) /\
               kind_of e = NotFound) /\
  (forall ws i t,
     workstreams (disk w) !! name = Some ws ->
     find_task taskId (tasks ws) = Some (i, t) ->
     status t ≠ pending ->
     exists e, claimTask name taskId a w = (Threw e, w) /\
               kind_of e = InvalidState) /\
  (forall ws i t,
     workstreams (disk w) !! name = Some ws ->
     find_task taskId (tasks ws) = Some (i, t) ->
     status t = pending ->
     exists t' w',
       claimTask name taskId a w = (Returned t', w') /\
       t' = claimed_by a (clock (ticks w)) t /\
       status t' = in_progress /\
       assigned_to t' = Some a /\
       task_updated_at t' = clock (ticks w) /\
       workstreams (disk w') =
         <[name := set_tasks (<[i := t']> (tasks ws)) ws]>
           (workstreams (disk w)) /\
       version (disk w') = version (disk w) + 1 /\
       journal w' =
         journal w ++
           [mkEvent (clock (S (S (ticks w)))) a "task_claimed"
              [("workstream", JStr name); ("task_id", JStr taskId)]]).
Proof.
  repeat split.
  - intros E Hk. exists (WorkstreamNotFound name).
    by rewrite claimTask_no_workstream by (by apply get_missing).
  - intros ws E Habs. exists (TaskNotFound taskId).
    rewrite (claimTask_no_task name taskId a ws w E); [done|].
    by apply find_task_None.
  - intros ws i t E F S. exists (TaskNotPending taskId (status t)).
    by rewrite (claimTask_not_pending name taskId a ws i t w E F S).
  - intros ws i t E F S. eexists _, _.
    rewrite (claimTask_pending name taskId a ws i t w E F S).
    repeat split.
Qed.

(** C5, with an empty assignee counting as none: on an existing
    workstream and task, [completeTask] succeeds whatever the task's
    status is: the task becomes [done], carries the result, has its
    [updated_at] stamped with the current clock reading, the document is
    saved and [task_completed] is journalled with the task's assignee as
    agent when that is a non-empty string, and with "system" otherwise.
    A failing call changes nothing, and it raises NotFound only when the
    workstream or the task is absent; it does raise NotFound when the
    task is absent, and when the workstream is, under a name that no
    object inherits. *)
Theorem completeTask_contract (name taskId : string) (res : jsval)
    (w : World) :
  (forall ws i t,
     workstreams (disk w) !! name = Some ws ->
     find_task taskId (tasks ws) = Some (i, t) ->
     completion_rule truthy_assignee_or_system name taskId res ws i t w /\
     (forall h, assigned_to t = Some h -> h ≠ EmptyString ->
        truthy_assignee_or_system (assigned_to t) = h) /\
     (assigned_to t = None \/ assigned_to t = Some EmptyString ->
        truthy_assignee_or_system (assigned_to t) = "system")) /\
  (forall e w',
     completeTask name taskId res w = (Threw e, w') ->
     w' = w /\
     (kind_of e = NotFound ->
        workstreams (disk w) !! name = None \/
        exists ws, workstreams (disk w) !! name = Some ws /\
                   forall t, t ∈ tasks ws -> task_id t ≠ taskId)) /\
  (workstreams (disk w) !! name = None ->
     ¬ inherited (polluted w) name ->
     completeTask name taskId res w = (Threw (WorkstreamNotFound name), w)) /\
  (forall ws,
     workstreams (disk w) !! name = Some ws ->
     (forall t, t ∈ tasks ws -> task_id t ≠ taskId) ->
     completeTask name taskId res w = (Threw (TaskNotFound taskId), w)).
Proof.
  split; [|split; [|split]].
  - intros ws i t E F. split; [|split].
    + eexists _, _, _.
      rewrite (completeTask_found name taskId res ws i t w E F).
      unfold after_task_update. cbn. repeat split.
    + intros h -> Hh. unfold truthy_assignee_or_system. cbn.
      by rewrite decide_False.
    + by intros [-> | ->].
  - intros e w' Hthrow.
    destruct (get (polluted w) (workstreams (disk w)) name) as [ws| |] eqn:E.
    + apply get_Own in E.
      destruct (find_task taskId (tasks ws)) as [[i t]|] eqn:F.
      * rewrite (completeTask_found name taskId res ws i t w E F) in Hthrow.
        discriminate.
      * rewrite (completeTask_no_task name taskId res ws w E F) in Hthrow.
        injection Hthrow as <- <-. split; [done|]. intros _. right.
        exists ws. split; [done|]. by apply find_task_None.
    + rewrite (completeTask_builtin name taskId res w E) in Hthrow.
      injection Hthrow as <- <-. split; [done|]. discriminate.
    + rewrite (completeTask_no_workstream name taskId res w E) in Hthrow.
      injection Hthrow as <- <-. split; [done|]. intros _. left.
      by apply get_Missing in E as [E _].
  - intros E Hk. by apply completeTask_no_workstream, get_missing.
  - intros ws E Habs. apply (completeTask_no_task name taskId res ws w E).
    by apply find_task_None.
Qed.

(** C4, for task ids that are unique within the workstream: on a
    workstream whose task ids are pairwise distinct, [getNextTask] returns
    the no-task sentinel when no task is pending, and otherwise selects
    the pending task of numerically lowest priority, the first such in the
    stored sequence, claims it for the caller (status [in_progress],
    [assigned_to] the caller) and returns it. *)
Theorem getNextTask_selects_first_lowest (name a : string) (ws : Workstream)
    (w : World) :
  workstreams (disk w) !! name = Some ws ->
  NoDup (task_id <$> tasks ws) ->
  next_task_rule name a ws w.
Proof.
  intros E Hnd.
  assert (forall l1 t l2,
            tasks ws = l1 ++ t :: l2 ->
            forall u, u ∈ l1 -> task_id u ≠ task_id t) as Hfirst.
  { intros l1 t l2 Hsplit u Hu Heq. rewrite Hsplit in Hnd.
    rewrite fmap_app, fmap_cons in Hnd.
    apply NoDup_app in Hnd as (_ & Hdis & _).
    apply (Hdis (task_id u)).
    - apply list_elem_of_fmap. by exists u.
    - rewrite Heq. left. }
  assert (forall l1 t l2,
            tasks ws = l1 ++ t :: l2 ->
            first_lowest_pending l1 t l2 ->
            getNextTask name a w =
              (Returned (Some (claimed_by a (clock (ticks w)) t)),
               after_task_update w name ws (length l1)
                 (claimed_by a (clock (ticks w)) t) a "task_claimed"
                 [("workstream", JStr name); ("task_id", JStr (task_id t))]))
    as Hrun.
  { intros l1 t l2 Hsplit Hlow.
    apply (getNextTask_first name a ws w l1 l2 t E Hsplit Hlow).
    by apply (Hfirst l1 t l2). }
  split; [|split].
  - by apply getNextTask_none.
  - intros Hsome.
    destruct (first_lowest_pending_exists _ Hsome) as (l1 & t & l2 & Hs & Hl).
    eexists _, _. by apply (Hrun l1 t l2).
  - intros l1 t l2 Hsplit Hlow. eexists _, _.
    split; [by apply (Hrun l1 t l2)|].
    unfold after_task_update. cbn. repeat split.
    rewrite Hsplit, insert_app_r_alt by lia.
    by rewrite Nat.sub_diag.
Qed.

(** ** One case analysis for all calls *)

(** Splits [run c w] into the branches of the call's code and rewrites
    each with the world that branch leaves. *)
Ltac run_branches c w :=
  let name := fresh "name" in
  let opts := fresh "opts" in
  let i := fresh "i" in
  let a := fresh "a" in
  let r := fresh "r" in
  let ttl := fresh "ttl" in
  let t := fresh "t" in
  let body := fresh "body" in
  let ws := fresh "ws" in
  let E := fresh "E" in
  let F := fresh "F" in
  let j := fresh "j" in
  let u := fresh "u" in
  let Hst := fresh "Hst" in
  let first := fresh "first" in
  let Hg := fresh "Hg" in
  let l := fresh "l" in
  let Ha := fresh "Ha" in
  let rec_ := fresh "rec" in
  destruct c as [name opts|name opts|name i a|name i r|name a|a opts|a
                |r a ttl|r a|t body a|t a];
  unfold run; unfold_m;
  [ destruct (get (polluted w) (workstreams (disk w)) name) as [ws| |] eqn:E;
    [ apply get_Own in E; rewrite (createWorkstream_exists _ _ ws w E)
    | rewrite (createWorkstream_builtin _ _ w E)
    | rewrite (createWorkstream_fresh _ _ w E) ]
  | destruct (get (polluted w) (workstreams (disk w)) name) as [ws| |] eqn:E;
    [ apply get_Own in E; rewrite (addTask_found _ _ ws w E)
    | rewrite (addTask_builtin _ _ w E)
    | rewrite (addTask_no_workstream _ _ w E) ]
  | destruct (get (polluted w) (workstreams (disk w)) name) as [ws| |] eqn:E;
    [ apply get_Own in E;
      destruct (find_task i (tasks ws)) as [[j u]|] eqn:F;
      [ destruct (decide (status u = pending)) as [Hst|Hst];
        [ rewrite (claimTask_pending _ _ _ ws j u w E F Hst)
        | rewrite (claimTask_not_pending _ _ _ ws j u w E F Hst) ]
      | rewrite (claimTask_no_task _ _ _ ws w E F) ]
    | rewrite (claimTask_builtin _ _ _ w E)
    | rewrite (claimTask_no_workstream _ _ _ w E) ]
  | destruct (get (polluted w) (workstreams (disk w)) name) as [ws| |] eqn:E;
    [ apply get_Own in E;
      destruct (find_task i (tasks ws)) as [[j u]|] eqn:F;
      [ rewrite (completeTask_found _ _ _ ws j u w E F)
      | rewrite (completeTask_no_task _ _ _ ws w E F) ]
    | rewrite (completeTask_builtin _ _ _ w E)
    | rewrite (completeTask_no_workstream _ _ _ w E) ]
  | destruct (get (polluted w) (workstreams (disk w)) name) as [ws| |] eqn:E;
    [ apply get_Own in E;
      rewrite (getNextTask_unfold _ _ _ _ E);
      destruct (sort_by_priority _ !! 0%nat) as [first|];
      [ destruct (find_task (task_id first) (tasks ws)) as [[j u]|] eqn:F;
        [ destruct (decide (status u = pending)) as [Hst|Hst];
          [ rewrite (claimTask_pending _ _ _ ws j u w E F Hst)
          | rewrite (claimTask_not_pending _ _ _ ws j u w E F Hst) ]
        | rewrite (claimTask_no_task _ _ _ ws w E F) ]
      | idtac ]
    | rewrite (getNextTask_builtin _ _ w E)
    | rewrite (getNextTask_no_workstream _ _ w E) ]
  | rewrite registerAgent_run
  | destruct (get (polluted w) (agents (disk w)) a) as [rec_| |] eqn:E;
    [ apply get_Own in E; rewrite (heartbeat_known _ rec_ w E)
    | rewrite (heartbeat_builtin _ w E)
    | rewrite (heartbeat_unknown _ w E) ]
  | destruct (decide (grantable r a (clock (ticks w)) (disk w))) as [Hg|Hg];
    [ rewrite (acquireLock_granted r a ttl w Hg)
    | rewrite (acquireLock_denied r a ttl w Hg) ]
  | destruct (locks (disk w) !! r) as [l|] eqn:E;
    [ destruct (decide (lock_agent l = a)) as [Ha|Ha];
      [ rewrite (releaseLock_held r a l w E Ha)
      | rewrite (releaseLock_not_held r a w)
          by (intros ? ?; congruence) ]
    | rewrite (releaseLock_not_held r a w) by (intros ? ?; congruence) ]
  | unfold writeKnowledge, logEvent, appendEvent, writeFile, now; unfold_m
  | destruct (knowledge w !! t) as [body|] eqn:E;
    [ unfold deleteKnowledge, unlink, logEvent, appendEvent, now; unfold_m;
      cbn; rewrite E, bool_decide_eq_true_2 by done
    | rewrite (deleteKnowledge_absent t a w E) ] ];
  cbn.

(** ** Version counter and save time *)

Lemma init_settled : monotone_clock -> settled init.
Proof. intros Hmono. apply Hmono. cbn. lia. Qed.

Ltac saved_at n :=
  split; [reflexivity | exists n; split; [cbn; lia | reflexivity]].

Lemma claimTask_cases (name taskId a : string) (w : World) :
  (exists e, claimTask name taskId a w = (Threw e, w)) \/
  (exists t w', claimTask name taskId a w = (Returned t, w') /\
                saved_once w w').
Proof.
  destruct (get (polluted w) (workstreams (disk w)) name) as [ws| |] eqn:E.
  - apply get_Own in E.
    destruct (find_task taskId (tasks ws)) as [[i t]|] eqn:F.
    + destruct (decide (status t = pending)) as [Hst|Hst].
      * right. eexists _, _. split; [by apply (claimTask_pending _ _ _ ws i t)|].
        saved_at (S (ticks w)).
      * left. eexists. by apply (claimTask_not_pending _ _ _ ws i t).
    + left. eexists. by apply (claimTask_no_task _ _ _ ws).
  - left. eexists. by apply claimTask_builtin.
  - left. eexists. by apply claimTask_no_workstream.
Qed.

Lemma getNextTask_cases (name a : string) (w : World) :
  (exists e, getNextTask name a w = (Threw e, w)) \/
  getNextTask name a w = (Returned None, w) \/
  (exists t w', getNextTask name a w = (Returned (Some t), w') /\
                saved_once w w').
Proof.
  destruct (get (polluted w) (workstreams (disk w)) name) as [ws| |] eqn:E.
  - apply get_Own in E. rewrite (getNextTask_unfold _ _ _ _ E).
    destruct (sort_by_priority _ !! 0%nat) as [first|]; [|by right; left].
    destruct (claimTask_cases name (task_id first) a w)
      as [[e ->]|(t & w' & -> & Hs)].
    + left. by exists e.
    + right; right. by exists t, w'.
  - left. eexists. by apply getNextTask_builtin.
  - left. eexists. by apply getNextTask_no_workstream.
Qed.

(** Every call either saves exactly once, or leaves the document as it
    was; [mutated] tells which.  A failing call is of the second kind and
    leaves the journal and the knowledge base alone as well. *)
Lemma run_cases (c : Call) (w : World) :
  (mutated c w = true /\ failed (fst (run c w)) = false /\
   saved_once w (snd (run c w))) \/
  (mutated c w = false /\ disk (snd (run c w)) = disk w /\
   (failed (fst (run c w)) = true -> untouched w (snd (run c w)))).
Proof.
  destruct c as [name opts|name opts|name i a|name i r|name a|a opts|a
                |r a ttl|r a|t c a|t a];
    unfold mutated, run; unfold_m.
  - destruct (get (polluted w) (workstreams (disk w)) name) as [ws| |] eqn:E.
    + apply get_Own in E.
      rewrite (createWorkstream_exists _ _ ws w E). by right.
    + rewrite (createWorkstream_builtin _ _ w E). by right.
    + rewrite (createWorkstream_fresh _ _ w E). left. cbn.
      do 2 (split; [done|]). saved_at (S (ticks w)).
  - destruct (get (polluted w) (workstreams (disk w)) name) as [ws| |] eqn:E.
    + apply get_Own in E.
      rewrite (addTask_found _ _ ws w E). left. cbn.
      do 2 (split; [done|]). saved_at (S (S (ticks w))).
    + rewrite (addTask_builtin _ _ w E). by right.
    + rewrite (addTask_no_workstream _ _ w E). by right.
  - destruct (claimTask_cases name i a w) as [[e ->]|(t & w' & -> & Hs)].
    + by right.
    + by left.
  - destruct (get (polluted w) (workstreams (disk w)) name) as [ws| |] eqn:E.
    + apply get_Own in E.
      destruct (find_task i (tasks ws)) as [[j t]|] eqn:F.
      * rewrite (completeTask_found _ _ _ ws j t w E F). left. cbn.
        do 2 (split; [done|]). saved_at (S (ticks w)).
      * rewrite (completeTask_no_task _ _ _ ws w E F). by right.
    + rewrite (completeTask_builtin _ _ _ w E). by right.
    + rewrite (completeTask_no_workstream _ _ _ w E). by right.
  - destruct (getNextTask_cases name a w)
      as [[e ->]|[->|(t & w' & -> & Hs)]].
    + by right.
    + by right.
    + by left.
  - rewrite registerAgent_run. left. cbn.
    do 2 (split; [done|]). saved_at (S (S (ticks w))).
  - destruct (get (polluted w) (agents (disk w)) a) as [r| |] eqn:E.
    + pose proof E as E'. apply get_Own in E'.
      rewrite (heartbeat_known _ r w E'). left. cbn.
      do 2 (split; [done|]). saved_at (S (ticks w)).
    + rewrite (heartbeat_builtin _ w E). left. cbn.
      do 2 (split; [done|]). saved_at (S (ticks w)).
    + rewrite (heartbeat_unknown _ w E). by right.
  - destruct (decide (grantable r a (clock (ticks w)) (disk w))) as [Hg|Hg].
    + rewrite (acquireLock_granted r a ttl w Hg). left. cbn.
      do 2 (split; [done|]). split; [done|].
      exists (S (stamp_tick r w)). unfold stamp_tick.
      destruct (get _ _ _); cbn; split; (lia || done).
    + rewrite (acquireLock_denied r a ttl w Hg). by right.
  - destruct (locks (disk w) !! r) as [l|] eqn:El.
    + destruct (decide (lock_agent l = a)) as [Ha|Ha].
      * rewrite (releaseLock_held r a l w El Ha). left. cbn.
        do 2 (split; [done|]). saved_at (ticks w).
      * rewrite releaseLock_not_held; [by right|].
        intros l' El'. congruence.
    + rewrite releaseLock_not_held; [by right|].
      intros l' El'. congruence.
  - by right.
  - right. split; [done|].
    destruct (knowledge w !! t) as [body|] eqn:E.
    + unfold deleteKnowledge. unfold_m. cbn.
      rewrite E, bool_decide_eq_true_2 by done. cbn. by split.
    + by rewrite (deleteKnowledge_absent t a w E).
Qed.

Lemma run_saves_once_or_not (c : Call) (w : World) :
  (mutated c w = true /\ saved_once w (snd (run c w))) \/
  (mutated c w = false /\ disk (snd (run c w)) = disk w).
Proof.
  destruct (run_cases c w) as [(? & _ & ?)|(? & ? & _)]; [by left|by right].
Qed.

(** C1: every mutating call that completes ([createWorkstream], [addTask],
    [claimTask], [completeTask], [getNextTask] when it claims a task,
    [registerAgent], [heartbeat] on a known agent, a granted
    [acquireLock], a successful [releaseLock]) leaves the persisted
    version at the old one plus exactly 1, and [updated_at] at a clock
    reading taken during the call, by the save.  While the clock does not
    run backwards, [updated_at] does not decrease from one save to the
    next and stays behind the clock. *)
Theorem mutation_bumps_version (c : Call) (w : World) :
  mutated c w = true ->
  version (disk (snd (run c w))) = version (disk w) + 1 /\
  (exists k, (ticks w <= k < ticks (snd (run c w)))%nat /\
             updated_at (disk (snd (run c w))) = clock k) /\
  (monotone_clock -> settled w ->
     updated_at (disk w) <= updated_at (disk (snd (run c w))) /\
     settled (snd (run c w))).
Proof.
  intros Hm.
  destruct (run_saves_once_or_not c w) as [[_ Hs]|[Hn _]]; [|congruence].
  destruct Hs as (Hv & k & Hk & Hu).
  split; [done|]. split; [by exists k|].
  intros Hmono Hset. unfold settled in *. rewrite Hu. split.
  - etrans; [exact Hset|]. apply Hmono. lia.
  - apply Hmono. lia.
Qed.

(** No save without an increment, no increment without a save: a call
    that is not a completed mutation leaves version and [updated_at]
    alone. *)
Lemma no_mutation_no_save (c : Call) (w : World) :
  mutated c w = false -> disk (snd (run c w)) = disk w.
Proof.
  intros Hm.
  destruct (run_saves_once_or_not c w) as [[Hn _]|[_ Hd]]; [congruence|done].
Qed.

(** The clock readings consumed by a call are never given back. *)
Lemma run_ticks (c : Call) (w : World) :
  (ticks w <= ticks (snd (run c w)))%nat.
Proof.
  run_branches c w; try lia.
  unfold stamp_tick. destruct (get _ _ _); lia.
Qed.

(** Under a clock that does not run backwards, every call keeps the save
    time behind the clock, whether it saves or not. *)
Lemma run_settled (c : Call) (w : World) :
  monotone_clock -> settled w -> settled (snd (run c w)).
Proof.
  intros Hmono Hset. pose proof (run_ticks c w) as Ht.
  destruct (run_saves_once_or_not c w)
    as [[_ (_ & k & Hk & Hu)]|[_ Hd]]; unfold settled in *.
  - rewrite Hu. apply Hmono. lia.
  - rewrite Hd. etrans; [exact Hset|]. by apply Hmono.
Qed.

(** Along any sequence of calls the version counts the completed
    mutations, and under a clock that does not run backwards the save time
    never decreases. *)
Lemma version_counts_mutations (cs : list Call) (w : World) :
  version (disk (run_all cs w)) = version (disk w) + mutations cs w.
Proof.
  revert w. induction cs as [|c cs IH]; intros w; cbn; [lia|].
  rewrite IH.
  destruct (run_saves_once_or_not c w) as [[-> [Hv _]]|[-> Hd]].
  - rewrite Hv. lia.
  - rewrite Hd. lia.
Qed.

Lemma updated_at_never_decreases (cs : list Call) (w : World) :
  monotone_clock -> settled w ->
  updated_at (disk w) <= updated_at (disk (run_all cs w)) /\
  settled (run_all cs w).
Proof.
  intros Hmono. revert w. induction cs as [|c cs IH]; intros w Hset; cbn.
  { split; [lia|done]. }
  pose proof (run_settled c w Hmono Hset) as Hset'.
  destruct (IH _ Hset') as [Hle Hfin]. split; [|done].
  etrans; [|exact Hle].
  destruct (run_saves_once_or_not c w) as [[_ (_ & k & Hk & ->)]|[_ ->]].
  - unfold settled in Hset. etrans; [exact Hset|]. apply Hmono. lia.
  - lia.
Qed.

(** ** Failing calls *)

(** C6: a failing engine call (a raised error or the boolean failure
    signal) leaves the persisted state unchanged and appends no journal
    entry.  In particular a denied [acquireLock] (entry present, lease
    still running, other holder) returns [false] and changes nothing, and
    [createWorkstream] under a name already taken raises AlreadyExists
    and leaves the world exactly as the first creation left it. *)
Theorem failing_call_changes_nothing :
  (forall c w,
     failed (fst (run c w)) = true ->
     mutated c w = false /\ untouched w (snd (run c w))) /\
  (forall r a ttl l w,
     locks (disk w) !! r = Some l ->
     clock (ticks w) < acquired_at l + ttl_ms l ->
     lock_agent l ≠ a ->
     fst (acquireLock r a ttl w) = Returned false /\
     untouched w (snd (acquireLock r a ttl w))) /\
  (forall name opts ws w,
     workstreams (disk w) !! name = Some ws ->
     createWorkstream name opts w = (Threw (WorkstreamExists name), w) /\
     kind_of (WorkstreamExists name) = AlreadyExists) /\
  (forall name opts1 opts2 w,
     createWorkstream name opts2 (snd (createWorkstream name opts1 w)) =
       (Threw (WorkstreamExists name), snd (createWorkstream name opts1 w))).
Proof.
  split; [|split; [|split]].
  - intros c w Hfail.
    destruct (run_cases c w) as [(_ & Hf & _)|(Hm & _ & Hu)];
      [congruence|]. split; [done|by apply Hu].
  - intros r a ttl l w El Hrun Hother.
    rewrite acquireLock_denied; [done|].
    unfold grantable. rewrite El. intros [Hexp|Hsame]; [lia|done].
  - intros name opts ws w E.
    by rewrite (createWorkstream_exists name opts ws w E).
  - intros name opts1 opts2 w.
    destruct (get (polluted w) (workstreams (disk w)) name) as [ws| |] eqn:E.
    + apply get_Own in E.
      rewrite (createWorkstream_exists name opts1 ws w E). cbn.
      by apply (createWorkstream_exists name opts2 ws w).
    + rewrite (createWorkstream_builtin name opts1 w E). cbn.
      by apply createWorkstream_builtin.
    + rewrite (createWorkstream_fresh name opts1 w E). cbn.
      eapply createWorkstream_exists. cbn. apply lookup_insert_eq.
Qed.

(** ** Identifiers and new tasks *)

Lemma all_chars_app (p : ascii -> bool) (s1 s2 : string) :
  all_chars p (s1 ++ s2)%string = all_chars p s1 && all_chars p s2.
Proof.
  induction s1 as [|c s1 IH]; simpl; [done|]. by rewrite IH, andb_assoc.
Qed.

Lemma hex_of_byte_lower_hex (b : Byte.byte) :
  all_chars is_lower_hex (hex_of_byte b) = true.
Proof. destruct b; reflexivity. Qed.

Lemma string_length_app (s1 s2 : string) :
  String.length (s1 ++ s2)%string =
  (String.length s1 + String.length s2)%nat.
Proof.
  induction s1 as [|c s1 IH]; [done|].
  change (S (String.length (s1 ++ s2)%string) =
          S (String.length s1 + String.length s2)).
  by rewrite IH.
Qed.

Lemma to_hex_length (bs : list Byte.byte) :
  String.length (to_hex bs) = (2 * length bs)%nat.
Proof.
  induction bs as [|b bs IH]; [done|].
  cbn [to_hex]. rewrite string_length_app, IH. cbn. lia.
Qed.

Lemma to_hex_lower_hex (bs : list Byte.byte) :
  all_chars is_lower_hex (to_hex bs) = true.
Proof.
  induction bs as [|b bs IH]; [done|].
  cbn [to_hex]. by rewrite all_chars_app, hex_of_byte_lower_hex, IH.
Qed.

(** [genId] returns eight lowercase hexadecimal characters, the rendering
    of the next four random bytes. *)
Lemma genId_run (w : World) :
  genId w =
    (Returned (next_id w),
     mkWorld (disk w) (journal w) (knowledge w) (ticks w) (drawn w + 4)%nat (polluted w))
  /\ String.length (next_id w) = 8%nat
  /\ all_chars is_lower_hex (next_id w) = true.
Proof.
  split; [reflexivity|]. unfold next_id. split.
  - by rewrite to_hex_length, length_map, length_seq.
  - apply to_hex_lower_hex.
Qed.

(** C7, for a priority other than 0: on an existing workstream [addTask]
    returns a task whose identifier is the 8-character lowercase
    hexadecimal rendering of 4 random bytes, whose status is [pending],
    whose title is [opts.title], and whose priority is the caller's
    integer when one is given and is not 0, and 5 when none is given (a
    given 0 is taken for none); the task is appended to the workstream's
    sequence. *)
Theorem addTask_returns_pending_task (name : string) (opts : TaskOpts)
    (ws : Workstream) (w : World) :
  workstreams (disk w) !! name = Some ws ->
  addTask_rule (fun o => num_or o 5) name opts ws w /\
  (forall p, to_priority opts = Some p -> p ≠ 0 ->
             num_or (to_priority opts) 5 = p) /\
  (to_priority opts = None \/ to_priority opts = Some 0 ->
     num_or (to_priority opts) 5 = 5).
Proof.
  intros E. split; [|split].
  - exists (new_task opts w). eexists.
    split; [by apply addTask_found|].
    destruct (genId_run w) as (_ & Hlen & Hhex). by repeat split.
  - intros p -> Hp. cbn. by rewrite decide_False.
  - by intros [-> | ->].
Qed.

(** ** Event queries *)

(** The three filters, applied one after the other, keep exactly the
    records that pass all of them, in their order. *)
Lemma filters_in_sequence (oa ob : option string) (os : option Z)
    (l : list Event) :
  (let events := l in
   let events :=
     match oa with
     | Some a => filter (fun e => agent e = a) events
     | None => events
     end in
   let events :=
     match ob with
     | Some a => filter (fun e => action e = a) events
     | None => events
     end in
   match os with
   | Some since => filter (fun e => since <= ts e) events
   | None => events
   end) = filter (passes oa ob os) l.
Proof.
  clear. unfold passes. destruct oa as [a|], ob as [b|], os as [s|]; cbn;
    rewrite ?list_filter_filter;
    try (apply list_filter_iff; intros e; split;
         [ intros H; repeat split; intros ? [= <-]; tauto
         | intros (Ha & Hb & Hs); repeat split;
           first [by apply Ha | by apply Hb | by apply Hs] ]).
  induction l as [|e l IH]; [done|].
  rewrite filter_cons_True by (repeat split; intros ? [=]).
  by rewrite <- IH.
Qed.

Lemma slice_from_last {A : Type} (n : Z) (l : list A) :
  1 <= n -> slice_from (- n) l = last_n (Z.to_nat n) l.
Proof.
  intros Hn. unfold slice_from, last_n.
  rewrite decide_True by lia. f_equal. lia.
Qed.

Lemma last_n_length {A : Type} (n : nat) (l : list A) :
  (length (last_n n l) <= n)%nat.
Proof. unfold last_n. rewrite length_drop. lia. Qed.

Lemma getEvents_unlimited (opts : EventQuery) (w : World) :
  truthy_num (q_last opts) = None ->
  getEvents opts w = (Returned (filter (matches opts) (journal w)), w).
Proof.
  intros Hlast. unfold getEvents. rewrite Hlast. f_equal. f_equal.
  apply (filters_in_sequence (truthy_str (q_agent opts))
           (truthy_str (q_action opts)) (q_since opts) (journal w)).
Qed.

Lemma getEvents_limited (opts : EventQuery) (n : Z) (w : World) :
  truthy_num (q_last opts) = Some n ->
  getEvents opts w =
    (Returned (slice_from (- n) (filter (matches opts) (journal w))), w).
Proof.
  intros Hlast.
  pose proof (getEvents_unlimited
                (mkEventQuery (q_agent opts) (q_action opts) (q_since opts)
                   None) w eq_refl) as Hu.
  unfold getEvents in *. cbn in Hu. rewrite Hlast.
  injection Hu as Hu. by rewrite Hu.
Qed.

(** C8, for a positive limit: the query keeps the records that pass all
    of its filters together (agent equality, action equality, timestamp at
    or after [since]), in append order; with [last = N] for a positive [N]
    it returns the final [N] of them in that order, never more than [N]
    records.  A [last] of 0 is taken for none. *)
Theorem getEvents_filters_then_limits (opts : EventQuery) (w : World) :
  query_rule (fun n => 1 <= n) opts w /\
  (q_last opts = Some 0 ->
     getEvents opts w = (Returned (filter (matches opts) (journal w)), w)) /\
  filter (matches opts) (journal w) `sublist_of` journal w /\
  (forall e, e ∈ filter (matches opts) (journal w) <->
             e ∈ journal w /\ matches opts e).
Proof.
  split; [|split; [|split]].
  - unfold query_rule. destruct (q_last opts) as [n|] eqn:El.
    + destruct (decide (n = 0)) as [->|Hn].
      * eexists. split; [apply getEvents_unlimited; by rewrite El|].
        split; [done|]. intros n [= <-]. lia.
      * eexists. split.
        { apply getEvents_limited. rewrite El. cbn. by rewrite decide_False. }
        split; [done|]. intros m [= <-] Hm.
        rewrite slice_from_last by done. split; [done|].
        split; [apply suffix_drop|].
        pose proof (last_n_length (Z.to_nat n)
                      (filter (matches opts) (journal w))). lia.
    + eexists. split; [apply getEvents_unlimited; by rewrite El|].
      split; [done|]. intros n [=].
  - intros El. apply getEvents_unlimited. by rewrite El.
  - apply sublist_filter.
  - intros e. rewrite list_elem_of_filter. split; intros [? ?]; by split.
Qed.

(** ** The board only moves forward *)

Lemma task_le_refl (t : Task) : task_le t t.
Proof. by repeat split. Qed.

Lemma task_le_trans (t1 t2 t3 : Task) :
  task_le t1 t2 -> task_le t2 t3 -> task_le t1 t3.
Proof.
  intros (?&?&?&?&?&?&?) (?&?&?&?&?&?&?).
  repeat split; try congruence. lia.
Qed.

Lemma Forall2_task_le_refl (l : list Task) : Forall2 task_le l l.
Proof. induction l; constructor; auto using task_le_refl. Qed.

Lemma tasks_le_refl (l : list Task) : tasks_le l l.
Proof.
  exists l, []. split; [by rewrite app_nil_r|apply Forall2_task_le_refl].
Qed.

Lemma tasks_le_trans (l1 l2 l3 : list Task) :
  tasks_le l1 l2 -> tasks_le l2 l3 -> tasks_le l1 l3.
Proof.
  intros (a & b & -> & Hab) (c & d & -> & Hcd).
  apply Forall2_app_inv_l in Hcd as (c1 & c2 & Hc1 & Hc2 & ->).
  exists c1, (c2 ++ d). split; [by rewrite app_assoc|].
  eapply Forall2_trans; [apply task_le_trans|exact Hab|exact Hc1].
Qed.

Lemma tasks_le_insert (l : list Task) (i : nat) (t t' : Task) :
  l !! i = Some t -> task_le t t' -> tasks_le l (<[i := t']> l).
Proof.
  intros Hi Hle. exists (<[i := t']> l), []. split; [by rewrite app_nil_r|].
  rewrite <- (list_insert_id l i t Hi) at 1.
  apply Forall2_insert; [apply Forall2_task_le_refl|done].
Qed.

Lemma tasks_le_app (l ext : list Task) : tasks_le l (l ++ ext).
Proof. exists l, ext. split; [done|apply Forall2_task_le_refl]. Qed.

Lemma ws_le_refl (ws : Workstream) : ws_le ws ws.
Proof. repeat split. apply tasks_le_refl. Qed.

Lemma ws_le_trans (a b c : Workstream) : ws_le a b -> ws_le b c -> ws_le a c.
Proof.
  intros (?&?&?&?&Hab) (?&?&?&?&Hbc).
  repeat split; try congruence. by eapply tasks_le_trans.
Qed.

Lemma board_le_refl (s : State) : board_le s s.
Proof. intros name ws E. exists ws. split; [done|apply ws_le_refl]. Qed.

Lemma board_le_trans (s1 s2 s3 : State) :
  board_le s1 s2 -> board_le s2 s3 -> board_le s1 s3.
Proof.
  intros H12 H23 name ws E.
  destruct (H12 name ws E) as (ws2 & E2 & Hle2).
  destruct (H23 name ws2 E2) as (ws3 & E3 & Hle3).
  exists ws3. split; [done|]. by eapply ws_le_trans.
Qed.

(** Replacing the workstream under [name] by a later state of it. *)
Lemma board_le_update (s : State) (name : string) (ws ws' : Workstream)
    (v u : Z) (ag : gmap string Agent) (lk : gmap string Lock) :
  workstreams s !! name = Some ws ->
  ws_le ws ws' ->
  board_le s (mkState v u (<[name := ws']> (workstreams s)) ag lk).
Proof.
  intros E Hle n w0 E0. cbn.
  destruct (decide (name = n)) as [<-|Hn].
  - rewrite lookup_insert_eq. exists ws'. split; [done|]. congruence.
  - rewrite lookup_insert_ne by done. exists w0. split; [done|apply ws_le_refl].
Qed.

Lemma board_le_fresh (s : State) (name : string) (ws' : Workstream)
    (v u : Z) (ag : gmap string Agent) (lk : gmap string Lock) :
  workstreams s !! name = None ->
  board_le s (mkState v u (<[name := ws']> (workstreams s)) ag lk).
Proof.
  intros E n w0 E0. cbn. exists w0. split; [|apply ws_le_refl].
  rewrite lookup_insert_ne; [done|]. congruence.
Qed.

Lemma board_le_same (s : State) (v u : Z) (ag : gmap string Agent)
    (lk : gmap string Lock) :
  board_le s (mkState v u (workstreams s) ag lk).
Proof. intros n w0 E0. exists w0. split; [done|apply ws_le_refl]. Qed.

Lemma find_task_lookup (taskId : string) (l : list Task) (i : nat) (t : Task) :
  find_task taskId l = Some (i, t) -> l !! i = Some t.
Proof. intros H. by apply find_task_Some in H as (? & _). Qed.

Lemma run_board_le (c : Call) (w : World) :
  board_le (disk w) (disk (snd (run c w))).
Proof.
  run_branches c w;
    try apply board_le_refl; try apply board_le_same;
    try (apply board_le_fresh; by apply get_Missing in E as [E _]).
  - eapply board_le_update; [done|]. repeat split. apply tasks_le_app.
  - eapply board_le_update; [done|]. repeat split.
    eapply tasks_le_insert; [by eapply find_task_lookup|].
    repeat split. rewrite Hst. cbn. lia.
  - eapply board_le_update; [done|]. repeat split.
    eapply tasks_le_insert; [by eapply find_task_lookup|].
    repeat split. cbn. destruct (status u); cbn; lia.
  - eapply board_le_update; [done|]. repeat split.
    eapply tasks_le_insert; [by eapply find_task_lookup|].
    repeat split. rewrite Hst. cbn. lia.
Qed.

Lemma run_all_board_le (cs : list Call) (w : World) :
  board_le (disk w) (disk (run_all cs w)).
Proof.
  revert w. induction cs as [|c cs IH]; intros w; cbn.
  - apply board_le_refl.
  - eapply board_le_trans; [apply run_board_le|apply IH].
Qed.

Lemma tasks_le_lookup (l l' : list Task) (i : nat) (t : Task) :
  tasks_le l l' -> l !! i = Some t ->
  exists t', l' !! i = Some t' /\ task_le t t'.
Proof.
  intros (l1 & l2 & -> & H2) Hi.
  destruct (Forall2_lookup_l _ _ _ _ _ H2 Hi) as (t' & Hi' & Hle).
  exists t'. split; [|done]. by apply lookup_app_l_Some.
Qed.

(** X1: whatever calls are made, in whatever order, no workstream and no
    task is ever removed or moved: a task stays at its position in its
    workstream, keeps its id, title, description, priority, estimate and
    creation time, and its status never goes backwards in
    pending, in_progress, done. *)
Theorem board_only_moves_forward (cs : list Call) (w : World)
    (name : string) (ws : Workstream) (i : nat) (t : Task) :
  workstreams (disk w) !! name = Some ws ->
  tasks ws !! i = Some t ->
  exists ws' t',
    workstreams (disk (run_all cs w)) !! name = Some ws' /\
    tasks ws' !! i = Some t' /\
    (length (tasks ws) <= length (tasks ws'))%nat /\
    task_id t' = task_id t /\ title t' = title t /\
    description t' = description t /\ priority t' = priority t /\
    estimate t' = estimate t /\ created_at t' = created_at t /\
    (status_rank (status t) <= status_rank (status t'))%nat.
Proof.
  intros E Hi.
  destruct (run_all_board_le cs w name ws E) as (ws' & E' & _ & _ & _ & _ & Hle).
  destruct (tasks_le_lookup _ _ _ _ Hle Hi) as (t' & Hi' & Ht).
  exists ws', t'. split; [done|]. split; [done|]. split; [|exact Ht].
  destruct Hle as (l1 & l2 & -> & H2).
  rewrite length_app, (Forall2_length _ _ _ H2). lia.
Qed.

(** ** The journal only grows *)

Ltac one_event k :=
  eexists [_]; split; [reflexivity|]; split; [cbn; lia|];
  constructor; [|constructor]; exists k; split; [cbn; lia|reflexivity].

Ltac no_event :=
  exists []; split; [by rewrite app_nil_r|]; split; [cbn; lia|constructor].

Lemma run_journal (c : Call) (w : World) :
  appended_at_most_one w (snd (run c w)).
Proof.
  unfold appended_at_most_one.
  run_branches c w; try no_event.
  - one_event (S (S (ticks w))).
  - one_event (S (S (S (ticks w)))).
  - one_event (S (S (ticks w))).
  - one_event (S (S (ticks w))).
  - one_event (S (S (ticks w))).
  - one_event (S (S (S (ticks w)))).
  - unfold stamp_tick. destruct (get _ _ _).
    + one_event (S (S (S (ticks w)))).
    + one_event (S (S (S (ticks w)))).
    + one_event (S (S (ticks w))).
  - one_event (S (ticks w)).
  - one_event (S (ticks w)).
  - one_event (ticks w).
Qed.

Lemma run_all_ticks (cs : list Call) (w : World) :
  (ticks w <= ticks (run_all cs w))%nat.
Proof.
  revert w. induction cs as [|c cs IH]; intros w; cbn; [lia|].
  etrans; [apply run_ticks|apply IH].
Qed.

Lemma run_all_journal_prefix (cs : list Call) (w : World) :
  journal w `prefix_of` journal (run_all cs w).
Proof.
  revert w. induction cs as [|c cs IH]; intros w; cbn; [done|].
  etrans; [|apply IH].
  destruct (run_journal c w) as (evs & -> & _). by exists evs.
Qed.

(** The one completed mutation that leaves no record. *)
Lemma heartbeat_not_journalled (a : string) (w : World) :
  journal (snd (heartbeat a w)) = journal w.
Proof.
  destruct (get (polluted w) (agents (disk w)) a) as [r| |] eqn:E.
  - apply get_Own in E. by rewrite (heartbeat_known _ r w E).
  - by rewrite (heartbeat_builtin _ w E).
  - by rewrite (heartbeat_unknown _ w E).
Qed.

(** X2: the journal is append-only.  A call never alters or drops a
    record and appends at most one, stamped with a clock reading taken
    during the call; over any sequence of calls the old journal is a
    prefix of the new one.  Every completed mutation of the document
    appends exactly one record, except [heartbeat], which saves the
    document (the version goes up) and appends none. *)
Theorem journal_is_append_only :
  (forall c w, appended_at_most_one w (snd (run c w))) /\
  (forall cs w, journal w `prefix_of` journal (run_all cs w)) /\
  (forall c w,
     mutated c w = true ->
     (forall a, c ≠ Heartbeat a) ->
     length (journal (snd (run c w))) = S (length (journal w))) /\
  (forall a w,
     mutated (Heartbeat a) w = true ->
     version (disk (snd (run (Heartbeat a) w))) = version (disk w) + 1 /\
     journal (snd (run (Heartbeat a) w)) = journal w).
Proof.
  split; [exact run_journal|]. split; [exact run_all_journal_prefix|]. split.
  - intros c w. unfold mutated.
    run_branches c w; intros Hm Hnh; try discriminate;
      try (rewrite length_app; cbn; lia).
    all: exfalso; by apply (Hnh a).
  - intros a w Hm. unfold mutated, run in *. unfold_m.
    destruct (get (polluted w) (agents (disk w)) a) as [r| |] eqn:E.
    + apply get_Own in E. by rewrite (heartbeat_known _ r w E).
    + by rewrite (heartbeat_builtin _ w E).
    + rewrite (heartbeat_unknown _ w E) in Hm. cbn in Hm. discriminate Hm.
Qed.

(** ** The journal in time order *)

Lemma step_chronological (w w' : World) :
  monotone_clock ->
  (ticks w <= ticks w')%nat ->
  appended_at_most_one w w' ->
  chronological w -> chronological w'.
Proof.
  intros Hmono Ht (evs & Hj & Hlen & Hevs) [Hsorted Hpast].
  unfold chronological. rewrite Hj. split.
  - apply StronglySorted_app_2; [|done|].
    + intros e1 e2 H1 H2. unfold by_ts.
      rewrite Forall_forall in Hpast, Hevs.
      destruct (Hevs e2 H2) as (k & Hk & ->).
      etrans; [by apply Hpast|]. apply Hmono. lia.
    + destruct evs as [|e [|e' evs]]; [constructor| |cbn in Hlen; lia].
      constructor; constructor.
  - apply Forall_app. split.
    + eapply Forall_impl; [exact Hpast|]. cbn. intros e He.
      etrans; [exact He|]. by apply Hmono.
    + eapply Forall_impl; [exact Hevs|]. cbn. intros e (k & Hk & ->).
      apply Hmono. lia.
Qed.

Lemma init_chronological : chronological init.
Proof. split; constructor. Qed.

(** X3: while the clock does not run backwards, the journal stays in time
    order under every sequence of calls, and no record is stamped ahead
    of the clock: append order is time order. *)
Theorem journal_stays_chronological (cs : list Call) (w : World) :
  monotone_clock ->
  chronological w ->
  chronological (run_all cs w).
Proof.
  intros Hmono. revert w. induction cs as [|c cs IH]; intros w Hw; cbn; [done|].
  apply IH. eapply step_chronological; [done|apply run_ticks|apply run_journal|done].
Qed.

Lemma sorted_since_suffix (since : Z) (l : list Event) :
  StronglySorted by_ts l ->
  filter (fun e => since <= ts e) l `suffix_of` l.
Proof.
  induction 1 as [|x l Hs IH Hx]; [done|].
  destruct (decide (since <= ts x)) as [Hle|Hlt].
  - assert (filter (fun e => since <= ts e) (x :: l) = x :: l) as ->; [|done].
    rewrite filter_cons_True by done. f_equal.
    clear IH Hs. induction l as [|y l IHl]; [done|].
    apply Forall_cons in Hx as [Hxy Hx].
    rewrite filter_cons_True by (unfold by_ts in Hxy; lia).
    f_equal. by apply IHl.
  - rewrite filter_cons_False by done. by apply suffix_cons_r.
Qed.

(** X4: on a journal in time order, a query by [since] alone returns a
    tail of the journal: every record from the first one at or after
    [since] on, and nothing before it. *)
Theorem since_query_returns_a_tail (since : Z) (w : World) :
  StronglySorted by_ts (journal w) ->
  exists res,
    getEvents (mkEventQuery None None (Some since) None) w = (Returned res, w) /\
    res `suffix_of` journal w /\
    (forall e, e ∈ journal w -> (e ∈ res <-> since <= ts e)).
Proof.
  intros Hs. eexists. split; [reflexivity|]. cbn. split.
  - by apply sorted_since_suffix.
  - intros e He. rewrite list_elem_of_filter. split; [by intros [? _]|done].
Qed.

(** ** Leases over time *)

Lemma run_locks_frame (c : Call) (w : World) :
  match c with
  | AcquireLock _ _ _ | ReleaseLock _ _ => False
  | _ => True
  end ->
  locks (disk (snd (run c w))) = locks (disk w).
Proof. run_branches c w; intros H; done. Qed.

Lemma run_keeps_lease (r : string) (l : Lock) (c : Call) (w : World) :
  locks (disk w) !! r = Some l ->
  leaves_lease r (lock_agent l) c ->
  clock (ticks w) < acquired_at l + ttl_ms l ->
  locks (disk (snd (run c w))) !! r = Some l.
Proof.
  intros El Hc Hrun.
  destruct c as [| | | | | | |r' a' ttl|r' a'| |];
    try (by rewrite run_locks_frame);
    cbn in Hc; unfold run; unfold_m.
  - destruct (decide (grantable r' a' (clock (ticks w)) (disk w))) as [Hg|Hg].
    + rewrite (acquireLock_granted r' a' ttl w Hg). cbn.
      destruct (decide (r' = r)) as [->|Hr].
      * exfalso. unfold grantable in Hg. rewrite El in Hg.
        destruct Hc as [Hc|Hc]; [done|]. destruct Hg as [Hg|Hg]; [lia|done].
      * by rewrite lookup_put_ne.
    + by rewrite (acquireLock_denied r' a' ttl w Hg).
  - destruct (locks (disk w) !! r') as [l0|] eqn:E0.
    + destruct (decide (lock_agent l0 = a')) as [Ha|Ha].
      * rewrite (releaseLock_held r' a' l0 w E0 Ha). cbn.
        destruct (decide (r' = r)) as [->|Hr].
        -- exfalso. rewrite El in E0. injection E0 as <-.
           destruct Hc as [Hc|Hc]; done.
        -- by rewrite lookup_delete_ne.
      * rewrite releaseLock_not_held; [done|]. intros ? ?. congruence.
    + rewrite releaseLock_not_held; [done|]. intros ? ?. congruence.
Qed.

(** X5: mutual exclusion over time.  While the clock does not run
    backwards and a lease has not reached its expiry instant, no sequence
    of calls other than the holder's own lock calls on that resource can
    change the entry, and every other agent that asks for the lock is
    denied. *)
Theorem lease_excludes_others (cs : list Call) (r : string) (l : Lock)
    (w : World) :
  monotone_clock ->
  locks (disk w) !! r = Some l ->
  Forall (leaves_lease r (lock_agent l)) cs ->
  clock (ticks (run_all cs w)) < acquired_at l + ttl_ms l ->
  locks (disk (run_all cs w)) !! r = Some l /\
  (forall a ttl,
     a ≠ lock_agent l ->
     fst (acquireLock r a ttl (run_all cs w)) = Returned false).
Proof.
  intros Hmono El Hcs Hrun.
  assert (locks (disk (run_all cs w)) !! r = Some l) as Hend.
  { revert w El Hrun. induction Hcs as [|c cs Hc Hcs IH]; intros w El Hrun;
      cbn in *; [done|].
    apply IH; [|done].
    apply run_keeps_lease; [done|done|].
    eapply Z.le_lt_trans; [|exact Hrun]. apply Hmono.
    etrans; [apply run_ticks|apply run_all_ticks]. }
  split; [done|]. intros a ttl Ha.
  rewrite acquireLock_denied; [done|].
  unfold grantable. rewrite Hend. intros [Hexp|Hsame]; [lia|done].
Qed.

(** X6: taking and giving back.  When the resource can be granted and
    its name is not ["__proto__"], an acquire followed by the same
    agent's release both succeed and leave no entry for the resource; if
    there was none before, the lock table is exactly what it was, while
    version and journal record the two calls. *)
Theorem acquire_then_release (r a : string) (ttl : Z) (w : World) :
  r ≠ "__proto__" ->
  grantable r a (clock (ticks w)) (disk w) ->
  let w1 := snd (acquireLock r a ttl w) in
  let w2 := snd (releaseLock r a w1) in
  fst (acquireLock r a ttl w) = Returned true /\
  fst (releaseLock r a w1) = Returned true /\
  locks (disk w2) = delete r (locks (disk w)) /\
  (locks (disk w) !! r = None -> locks (disk w2) = locks (disk w)) /\
  workstreams (disk w2) = workstreams (disk w) /\
  agents (disk w2) = agents (disk w) /\
  version (disk w2) = version (disk w) + 2 /\
  action <$> drop (length (journal w)) (journal w2) =
    ["lock_acquired"; "lock_released"].
Proof.
  intros Hr Hg. cbn zeta. rewrite (acquireLock_granted r a ttl w Hg). cbn.
  rewrite put_insert by (by left).
  erewrite releaseLock_held; [|cbn; apply lookup_insert_eq|done]. cbn.
  split; [done|]. split; [done|].
  assert (delete r (<[r:=mkLock a (clock (stamp_tick r w)) ttl]>
                      (locks (disk w))) = delete r (locks (disk w))) as Hdel
    by apply delete_insert_eq.
  split; [done|]. split.
  { intros Hnone. rewrite Hdel. by apply delete_id. }
  split; [done|]. split; [done|]. split; [lia|].
  by rewrite <- app_assoc, drop_app_length.
Qed.

(** ** A claim is final *)

Lemma find_task_le (taskId : string) (l l' : list Task) (i : nat) (t : Task) :
  tasks_le l l' ->
  find_task taskId l = Some (i, t) ->
  exists t', find_task taskId l' = Some (i, t') /\ task_le t t'.
Proof.
  intros Hle Hf. pose proof Hle as (l1 & l2 & -> & H2).
  apply find_task_Some in Hf as (Hi & Hid & Hfirst).
  destruct (tasks_le_lookup _ _ _ _ Hle Hi) as (t' & Hi' & Ht).
  exists t'. split; [|done]. apply find_task_Some. split; [done|]. split.
  - destruct Ht as (-> & _). done.
  - intros j u' Hj Hlt.
    assert (j < length l1)%nat as Hjl.
    { rewrite <- (Forall2_length _ _ _ H2).
      apply lookup_lt_Some in Hi. lia. }
    rewrite lookup_app_l in Hj by done.
    destruct (Forall2_lookup_r _ _ _ _ _ H2 Hj) as (u & Hu & (Huid & _)).
    rewrite Huid. by eapply Hfirst.
Qed.

Lemma not_pending_stays (name taskId : string) (ws : Workstream) (i : nat)
    (t : Task) (cs : list Call) (w : World) :
  workstreams (disk w) !! name = Some ws ->
  find_task taskId (tasks ws) = Some (i, t) ->
  status t ≠ pending ->
  forall a, exists st,
    st ≠ pending /\
    claimTask name taskId a (run_all cs w) =
      (Threw (TaskNotPending taskId st), run_all cs w).
Proof.
  intros E F Hst a.
  destruct (run_all_board_le cs w name ws E) as (ws' & E' & _ & _ & _ & _ & Hle).
  destruct (find_task_le _ _ _ _ _ Hle F) as (t' & F' & Ht).
  assert (status t' ≠ pending) as Hst'.
  { destruct Ht as (_ & _ & _ & _ & _ & _ & Hrank). intros Hp.
    rewrite Hp in Hrank. destruct (status t); cbn in Hrank; [done|lia|lia]. }
  exists (status t'). split; [done|].
  by apply (claimTask_not_pending name taskId a ws' i t').
Qed.

(** X7: a claim is final.  Once [claimTask] has succeeded for a task, or
    [completeTask] has, every later [claimTask] of that workstream and id
    raises InvalidState and changes nothing, for every agent and after
    every sequence of calls in between: no task is handed out twice. *)
Theorem claimed_task_is_never_claimed_again (name taskId : string)
    (cs : list Call) (w : World) :
  (forall a t w1,
     claimTask name taskId a w = (Returned t, w1) ->
     forall a', exists st,
       st ≠ pending /\
       claimTask name taskId a' (run_all cs w1) =
         (Threw (TaskNotPending taskId st), run_all cs w1)) /\
  (forall res t w1,
     completeTask name taskId res w = (Returned t, w1) ->
     forall a', exists st,
       st ≠ pending /\
       claimTask name taskId a' (run_all cs w1) =
         (Threw (TaskNotPending taskId st), run_all cs w1)).
Proof.
  split.
  - intros a t w1 Hrun.
    destruct (get (polluted w) (workstreams (disk w)) name) as [ws| |] eqn:E;
      [apply get_Own in E
      |by rewrite (claimTask_builtin _ _ _ w E) in Hrun
      |by rewrite (claimTask_no_workstream _ _ _ w E) in Hrun].
    destruct (find_task taskId (tasks ws)) as [[i u]|] eqn:F;
      [|by rewrite (claimTask_no_task _ _ _ ws w E F) in Hrun].
    destruct (decide (status u = pending)) as [Hst|Hst];
      [|by rewrite (claimTask_not_pending _ _ _ ws i u w E F Hst) in Hrun].
    rewrite (claimTask_pending _ _ _ ws i u w E F Hst) in Hrun.
    injection Hrun as <- <-.
    set (u' := claimed_by a (clock (ticks w)) u).
    eapply (not_pending_stays name taskId
              (set_tasks (<[i := u']> (tasks ws)) ws) i u').
    + cbn. apply lookup_insert_eq.
    + cbn.
      destruct (find_task_le taskId (tasks ws) (<[i := u']> (tasks ws)) i u)
        as (u'' & F'' & _); [|done|].
      { eapply tasks_le_insert; [by eapply find_task_lookup|].
        repeat split. rewrite Hst. cbn. lia. }
      pose proof (find_task_lookup _ _ _ _ F'') as Hl.
      rewrite list_lookup_insert_eq in Hl
        by (eapply lookup_lt_Some, find_task_lookup; exact F).
      by injection Hl as <-.
    + done.
  - intros res t w1 Hrun.
    destruct (get (polluted w) (workstreams (disk w)) name) as [ws| |] eqn:E;
      [apply get_Own in E
      |by rewrite (completeTask_builtin _ _ _ w E) in Hrun
      |by rewrite (completeTask_no_workstream _ _ _ w E) in Hrun].
    destruct (find_task taskId (tasks ws)) as [[i u]|] eqn:F;
      [|by rewrite (completeTask_no_task _ _ _ ws w E F) in Hrun].
    rewrite (completeTask_found _ _ _ ws i u w E F) in Hrun.
    injection Hrun as <- <-.
    set (u' := completed_with res (clock (ticks w)) u).
    eapply (not_pending_stays name taskId
              (set_tasks (<[i := u']> (tasks ws)) ws) i u').
    + cbn. apply lookup_insert_eq.
    + cbn.
      destruct (find_task_le taskId (tasks ws) (<[i := u']> (tasks ws)) i u)
        as (u'' & F'' & _); [|done|].
      { eapply tasks_le_insert; [by eapply find_task_lookup|].
        repeat split. cbn. destruct (status u); cbn; lia. }
      pose proof (find_task_lookup _ _ _ _ F'') as Hl.
      rewrite list_lookup_insert_eq in Hl
        by (eapply lookup_lt_Some, find_task_lookup; exact F).
      by injection Hl as <-.
    + done.
Qed.

(** ** [getNextTask] when ids repeat *)

(** X8: [getNextTask] always acts on the first task that carries the id of
    the most urgent pending task.  That task is claimed and returned when
    it is pending, whichever task was selected; when it is not pending
    the call raises InvalidState and changes nothing, although a pending
    task exists. *)
Theorem getNextTask_acts_on_first_with_id (name a : string) (ws : Workstream)
    (w : World) (l1 l2 : list Task) (t : Task) :
  workstreams (disk w) !! name = Some ws ->
  tasks ws = l1 ++ t :: l2 ->
  first_lowest_pending l1 t l2 ->
  exists i u,
    find_task (task_id t) (tasks ws) = Some (i, u) /\
    (i <= length l1)%nat /\
    (status u = pending ->
       getNextTask name a w =
         (Returned (Some (claimed_by a (clock (ticks w)) u)),
          after_task_update w name ws i (claimed_by a (clock (ticks w)) u)
            a "task_claimed"
            [("workstream", JStr name); ("task_id", JStr (task_id t))])) /\
    (status u ≠ pending ->
       getNextTask name a w =
         (Threw (TaskNotPending (task_id t) (status u)), w)).
Proof.
  intros E Hsplit Hlow.
  destruct (find_task (task_id t) (tasks ws)) as [[i u]|] eqn:F.
  - exists i, u. split; [done|]. split.
    + destruct (decide (i <= length l1)%nat) as [|Hgt]; [done|]. exfalso.
      apply find_task_Some in F as (_ & _ & Hfirst).
      apply (Hfirst (length l1) t); [|lia|done].
      rewrite Hsplit. by apply list_lookup_middle.
    + rewrite (getNextTask_unfold _ _ _ _ E).
      rewrite Hsplit, (first_lowest_pending_head _ _ _ Hlow).
      split; intros Hst.
      * by rewrite (claimTask_pending name (task_id t) a ws i u w E F Hst).
      * by rewrite (claimTask_not_pending name (task_id t) a ws i u w E F Hst).
  - exfalso. rewrite find_task_None in F. apply (F t); [|done].
    rewrite Hsplit. apply elem_of_app. right. left.
Qed.

(** ** The listing of workstreams *)

Lemma insert_on_perm {A : Type} (key : A -> Z) (x : A) (l : list A) :
  insert_on key x l ≡ₚ x :: l.
Proof.
  induction l as [|y l IH]; cbn; [done|].
  case_decide; [done|]. rewrite IH. apply Permutation_swap.
Qed.

Lemma sort_on_perm {A : Type} (key : A -> Z) (l : list A) :
  sort_on key l ≡ₚ l.
Proof.
  induction l as [|x l IH]; cbn; [done|]. by rewrite insert_on_perm, IH.
Qed.

Lemma insert_on_sorted {A : Type} (key : A -> Z) (x : A) (l : list A) :
  StronglySorted (fun a b => key a <= key b) l ->
  StronglySorted (fun a b => key a <= key b) (insert_on key x l).
Proof.
  induction 1 as [|y l Hs IH Hy]; cbn.
  - repeat constructor.
  - case_decide as Hxy.
    + constructor; [by constructor|].
      constructor; [done|].
      eapply Forall_impl; [exact Hy|]. cbn. lia.
    + constructor; [done|].
      rewrite insert_on_perm. constructor; [lia|done].
Qed.

Lemma sort_on_sorted {A : Type} (key : A -> Z) (l : list A) :
  StronglySorted (fun a b => key a <= key b) (sort_on key l).
Proof.
  induction l as [|x l IH]; cbn; [constructor|]. by apply insert_on_sorted.
Qed.

Lemma counts_add_up (l : list Task) :
  length l =
  (count_status pending l + count_status in_progress l
   + count_status done_ l)%nat.
Proof.
  unfold count_status. induction l as [|t l IH]; [done|].
  rewrite !filter_cons. cbn [length]. rewrite IH.
  destruct (status t); repeat case_decide; try done; cbn; lia.
Qed.

Lemma entries_lookup {V : Type} (m : gmap string V) (k : string) (v : V) :
  entries_ok -> (k, v) ∈ entries V m <-> m !! k = Some v.
Proof. intros Hok. by rewrite (Hok V m), elem_of_map_to_list. Qed.

(** X9: [listWorkstreams] changes nothing and returns one line per
    workstream of the document, under its name, in ascending order of
    priority; in every line the task count is the sum of the pending,
    in-progress and done counts. *)
Theorem listWorkstreams_lists_all_by_priority (w : World) :
  entries_ok ->
  exists lines,
    listWorkstreams w = (Returned lines, w) /\
    lines ≡ₚ summarize <$> map_to_list (workstreams (disk w)) /\
    StronglySorted (fun a b => s_priority a <= s_priority b) lines /\
    (forall name ws,
       workstreams (disk w) !! name = Some ws <->
       summarize (name, ws) ∈ lines) /\
    (forall s, s ∈ lines ->
       task_count s = (n_pending s + n_in_progress s + n_done s)%nat).
Proof.
  intros Hok. eexists. split; [reflexivity|].
  assert (sort_on s_priority
            (summarize <$> entries Workstream (workstreams (disk w)))
          ≡ₚ summarize <$> map_to_list (workstreams (disk w))) as Hperm.
  { by rewrite sort_on_perm, (Hok _ (workstreams (disk w))). }
  split; [exact Hperm|]. split; [apply sort_on_sorted|]. split.
  - intros name ws. rewrite Hperm, list_elem_of_fmap. split.
    + intros E. exists (name, ws). split; [done|].
      by apply elem_of_map_to_list.
    + intros ([n' ws'] & Heq & Hin). apply elem_of_map_to_list in Hin.
      unfold summarize in Heq. cbn in Heq. by injection Heq as -> ->.
  - intros s. rewrite Hperm, list_elem_of_fmap. intros (e & -> & _).
    apply counts_add_up.
Qed.

Lemma count_status_insert (s : TaskStatus) (l : list Task) (i : nat)
    (t t' : Task) :
  l !! i = Some t ->
  (count_status s (<[i := t']> l) + (if decide (status t = s) then 1 else 0)
   = count_status s l + (if decide (status t' = s) then 1 else 0))%nat.
Proof.
  unfold count_status. revert i. induction l as [|x l IH]; intros i Hi; [done|].
  destruct i as [|i]; cbn in Hi.
  - injection Hi as ->. cbn [list_insert insert]. rewrite !filter_cons.
    repeat case_decide; cbn; lia.
  - specialize (IH i Hi). change (<[S i := t']> (x :: l)) with (x :: <[i := t']> l).
    rewrite !filter_cons. destruct (decide (status x = s)); cbn; lia.
Qed.

Lemma count_status_app (s : TaskStatus) (l : list Task) (t : Task) :
  count_status s (l ++ [t]) =
  (count_status s l + (if decide (status t = s) then 1 else 0))%nat.
Proof.
  unfold count_status. rewrite filter_app, length_app, filter_cons, filter_nil.
  by case_decide.
Qed.

(** X10: the counts of the listing follow the life of a task.  A
    successful [addTask] adds one pending task; a successful [claimTask]
    moves one task from pending to in progress; a successful
    [completeTask] moves one task from the count of its former status to
    done; the other counts and the number of tasks stay. *)
Theorem counts_follow_the_lifecycle (name : string) (ws : Workstream)
    (w : World) :
  workstreams (disk w) !! name = Some ws ->
  (forall opts, exists t w' ws',
     addTask name opts w = (Returned t, w') /\
     workstreams (disk w') !! name = Some ws' /\
     count_status pending (tasks ws') = S (count_status pending (tasks ws)) /\
     count_status in_progress (tasks ws') =
       count_status in_progress (tasks ws) /\
     count_status done_ (tasks ws') = count_status done_ (tasks ws)) /\
  (forall taskId a t w',
     claimTask name taskId a w = (Returned t, w') ->
     exists ws',
       workstreams (disk w') !! name = Some ws' /\
       S (count_status pending (tasks ws')) =
         count_status pending (tasks ws) /\
       count_status in_progress (tasks ws') =
         S (count_status in_progress (tasks ws)) /\
       count_status done_ (tasks ws') = count_status done_ (tasks ws) /\
       length (tasks ws') = length (tasks ws)) /\
  (forall taskId res t w' i u,
     completeTask name taskId res w = (Returned t, w') ->
     find_task taskId (tasks ws) = Some (i, u) ->
     exists ws',
       workstreams (disk w') !! name = Some ws' /\
       length (tasks ws') = length (tasks ws) /\
       (status u = done_ ->
          forall s, count_status s (tasks ws') = count_status s (tasks ws)) /\
       (status u ≠ done_ ->
          S (count_status (status u) (tasks ws')) =
            count_status (status u) (tasks ws) /\
          count_status done_ (tasks ws') = S (count_status done_ (tasks ws)))).
Proof.
  intros E. split; [|split].
  - intros opts. eexists _, _, _. rewrite (addTask_found _ _ ws w E).
    split; [done|]. cbn. rewrite lookup_insert_eq. split; [done|].
    unfold set_tasks. cbn [tasks]. rewrite !count_status_app.
    cbn [new_task status]. repeat case_decide; try done. lia.
  - intros taskId a t w' Hrun.
    destruct (find_task taskId (tasks ws)) as [[i u]|] eqn:F;
      [|by rewrite (claimTask_no_task _ _ _ ws w E F) in Hrun].
    destruct (decide (status u = pending)) as [Hst|Hst];
      [|by rewrite (claimTask_not_pending _ _ _ ws i u w E F Hst) in Hrun].
    rewrite (claimTask_pending _ _ _ ws i u w E F Hst) in Hrun.
    injection Hrun as <- <-. eexists. cbn. rewrite lookup_insert_eq.
    split; [done|]. cbn.
    pose proof (find_task_lookup _ _ _ _ F) as Hi.
    pose proof (count_status_insert pending _ i u
                  (claimed_by a (clock (ticks w)) u) Hi) as Hp.
    pose proof (count_status_insert in_progress _ i u
                  (claimed_by a (clock (ticks w)) u) Hi) as Hq.
    pose proof (count_status_insert done_ _ i u
                  (claimed_by a (clock (ticks w)) u) Hi) as Hd.
    cbn in Hp, Hq, Hd. rewrite Hst in Hp, Hq, Hd.
    rewrite length_insert. unfold count_status in *.
    repeat case_decide; try done. lia.
  - intros taskId res t w' i u Hrun F.
    rewrite (completeTask_found _ _ _ ws i u w E F) in Hrun.
    injection Hrun as <- <-. eexists. cbn. rewrite lookup_insert_eq.
    split; [done|]. cbn. rewrite length_insert. split; [done|].
    pose proof (find_task_lookup _ _ _ _ F) as Hi.
    split.
    + intros Hdone s.
      pose proof (count_status_insert s _ i u
                    (completed_with res (clock (ticks w)) u) Hi) as Hs.
      cbn in Hs. rewrite Hdone in Hs. unfold count_status in *.
      repeat case_decide; try done; lia.
    + intros Hnd.
      pose proof (count_status_insert (status u) _ i u
                    (completed_with res (clock (ticks w)) u) Hi) as Hs.
      pose proof (count_status_insert done_ _ i u
                    (completed_with res (clock (ticks w)) u) Hi) as Hd.
      cbn in Hs, Hd. unfold count_status in *.
      repeat case_decide; try done; lia.
Qed.

(** ** The snapshot *)

Lemma agentViews_run (es : list (string * Agent)) (w : World) :
  agentViews es w =
    (Returned (scan_agents (ticks w) es),
     mkWorld (disk w) (journal w) (knowledge w) (ticks w + length es)%nat
       (drawn w) (polluted w)).
Proof.
  unfold agentViews. revert w. induction es as [|e es IH]; intros w.
  - cbn. unfold_m. destruct w. cbn. do 2 f_equal. lia.
  - cbn [map_m]. unfold now. unfold_m. unfold now in IH. unfold_m. cbn.
    rewrite IH. cbn. do 2 f_equal. lia.
Qed.

Lemma activeLocks_run (es : list (string * Lock)) (w : World) :
  activeLocks es w =
    (Returned (scan_locks (ticks w) es),
     mkWorld (disk w) (journal w) (knowledge w) (ticks w + length es)%nat
       (drawn w) (polluted w)).
Proof.
  unfold activeLocks. revert w. induction es as [|e es IH]; intros w.
  - cbn. unfold_m. destruct w. cbn. do 2 f_equal. lia.
  - cbn [filter_m]. unfold now. unfold_m. unfold now in IH. unfold_m. cbn.
    rewrite IH. cbn. do 2 f_equal. lia.
Qed.

Lemma scan_locks_kept (k : nat) (es : list (string * Lock))
    (e : string * Lock) :
  e ∈ scan_locks k es ->
  e ∈ es /\
  exists i, (i < length es)%nat /\
            clock (k + i) < acquired_at (snd e) + ttl_ms (snd e).
Proof.
  revert k. induction es as [|x es IH]; intros k; cbn; [by intros ?%elem_of_nil|].
  case_bool_decide as Hx.
  - intros [->|Hin]%elem_of_cons.
    + split; [left|]. exists 0%nat. split; [lia|]. by rewrite Nat.add_0_r.
    + destruct (IH _ Hin) as (He & i & Hi & Hc). split; [by right|].
      exists (S i). split; [lia|]. by rewrite Nat.add_succ_r.
  - intros Hin. destruct (IH _ Hin) as (He & i & Hi & Hc). split; [by right|].
    exists (S i). split; [lia|]. by rewrite Nat.add_succ_r.
Qed.

Lemma scan_locks_dropped (k : nat) (es : list (string * Lock))
    (e : string * Lock) :
  e ∈ es -> e ∉ scan_locks k es ->
  exists i, (i < length es)%nat /\
            acquired_at (snd e) + ttl_ms (snd e) <= clock (k + i).
Proof.
  revert k. induction es as [|x es IH]; intros k; cbn; [by intros ?%elem_of_nil|].
  intros Hin Hout. case_bool_decide as Hx.
  - apply not_elem_of_cons in Hout as [Hne Hout].
    apply elem_of_cons in Hin as [->|Hin]; [done|].
    destruct (IH _ Hin Hout) as (i & Hi & Hc).
    exists (S i). split; [lia|]. by rewrite Nat.add_succ_r.
  - apply elem_of_cons in Hin as [->|Hin].
    + exists 0%nat. split; [lia|]. rewrite Nat.add_0_r. lia.
    + destruct (IH _ Hin Hout) as (i & Hi & Hc).
      exists (S i). split; [lia|]. by rewrite Nat.add_succ_r.
Qed.

Lemma scan_agents_view (k : nat) (es : list (string * Agent)) (v : AgentView) :
  v ∈ scan_agents k es <->
  exists i e, es !! i = Some e /\
    v = mkAgentView (fst e) (snd e)
          (bool_decide (clock (k + i) - last_seen (snd e) > stale_after)).
Proof.
  revert k. induction es as [|x es IH]; intros k; cbn.
  - split; [by intros ?%elem_of_nil|]. by intros (i & e & ? & _).
  - rewrite elem_of_cons, IH. split.
    + intros [->|(i & e & Hi & ->)].
      * exists 0%nat, x. by rewrite Nat.add_0_r.
      * exists (S i), e. by rewrite Nat.add_succ_r.
    + intros ([|i] & e & Hi & ->); cbn in Hi.
      * injection Hi as <-. left. by rewrite Nat.add_0_r.
      * right. exists i, e. by rewrite Nat.add_succ_r.
Qed.

(** What [status] returns and the world it leaves, spelled out. *)
Lemma status_snapshot_run (w : World) :
  status_snapshot w =
    (let ea := entries Agent (agents (disk w)) in
     let el := entries Lock (locks (disk w)) in
     (Returned
        (mkSnapshot (version (disk w)) (updated_at (disk w))
           (sort_on s_priority
              (summarize <$> entries Workstream (workstreams (disk w))))
           (scan_agents (ticks w) ea)
           (scan_locks (ticks w + length ea) el)
           (slice_from (- 10) (journal w))
           (remove_first ".md" <$>
              filter (fun f => ends_with ".md" f = true) (readdir w))),
      mkWorld (disk w) (journal w) (knowledge w)
        (ticks w + length ea + length el)%nat (drawn w) (polluted w))).
Proof.
  unfold status_snapshot, loadState, listWorkstreams, getEvents, listKnowledge,
    loadState.
  unfold_m. cbn. rewrite agentViews_run. cbn. rewrite activeLocks_run. cbn.
  reflexivity.
Qed.

(** X11: [status] only reads, reports the document's version and the
    last ten journal records, and its list of active locks is sound at
    both ends of the call while the clock does not run backwards: a lock
    it lists is in the document and was still running when the call
    began, so that no other agent could have taken it then; a lock of the
    document that it omits has reached its expiry by the time the call
    returns, so that any agent can take it from then on. *)
Theorem status_lists_the_running_leases (w : World) :
  entries_ok ->
  monotone_clock ->
  exists s w',
    status_snapshot w = (Returned s, w') /\
    untouched w w' /\
    snap_version s = version (disk w) /\
    recent_events s = last_n 10 (journal w) /\
    (forall r l,
       (r, l) ∈ active_locks s ->
       locks (disk w) !! r = Some l /\
       clock (ticks w) < acquired_at l + ttl_ms l /\
       forall a ttl,
         a ≠ lock_agent l ->
         fst (acquireLock r a ttl w) = Returned false) /\
    (forall r l,
       locks (disk w) !! r = Some l ->
       (r, l) ∉ active_locks s ->
       acquired_at l + ttl_ms l <= clock (ticks w') /\
       forall a ttl, fst (acquireLock r a ttl w') = Returned true).
Proof.
  intros Hok Hmono. eexists _, _. split; [apply status_snapshot_run|].
  cbn. split; [done|]. split; [done|].
  split; [by apply (slice_from_last 10)|]. split.
  - intros r l Hin. apply scan_locks_kept in Hin as (Hin & i & Hi & Hc).
    apply entries_lookup in Hin; [|done]. cbn in Hc.
    assert (clock (ticks w) < acquired_at l + ttl_ms l) as Hrun.
    { eapply Z.le_lt_trans; [|exact Hc]. apply Hmono. lia. }
    split; [done|]. split; [done|]. intros a ttl Ha.
    rewrite acquireLock_denied; [done|].
    unfold grantable. rewrite Hin. intros [?|?]; [lia|done].
  - intros r l El Hout.
    apply scan_locks_dropped in Hout as (i & Hi & Hc);
      [|by apply entries_lookup].
    cbn in Hc.
    assert (acquired_at l + ttl_ms l <=
            clock (ticks w + length (entries Agent (agents (disk w)))
                   + length (entries Lock (locks (disk w))))) as Hexp.
    { etrans; [exact Hc|]. apply Hmono. lia. }
    split; [done|]. intros a ttl.
    rewrite acquireLock_granted; [done|].
    unfold grantable. cbn. rewrite El. by left.
Qed.

(** ** Heartbeats and staleness *)

Lemma run_seen_since (a : string) (n : Z) (c : Call) (w : World) :
  monotone_clock ->
  n <= clock (ticks w) ->
  seen_since a n w ->
  seen_since a n (snd (run c w)).
Proof.
  intros Hmono Hn (r0 & Er & Hr).
  assert (forall k, (ticks w <= k)%nat -> n <= clock k) as Hlater.
  { intros k Hk. etrans; [exact Hn|]. by apply Hmono. }
  run_branches c w; unfold seen_since; cbn; try (by exists r0).
  - destruct (decide (a0 = a)) as [->|Hne].
    + rewrite put_insert by (right; by rewrite Er).
      eexists. rewrite lookup_insert_eq. split; [done|]. cbn.
      apply Hlater. lia.
    + exists r0. by rewrite lookup_put_ne.
  - destruct (decide (a0 = a)) as [->|Hne].
    + eexists. rewrite lookup_insert_eq. split; [done|]. cbn.
      apply Hlater. lia.
    + exists r0. by rewrite lookup_insert_ne.
Qed.

Lemma run_all_seen_since (a : string) (n : Z) (cs : list Call) (w : World) :
  monotone_clock ->
  n <= clock (ticks w) ->
  seen_since a n w ->
  seen_since a n (run_all cs w).
Proof.
  intros Hmono. revert w. induction cs as [|c cs IH]; intros w Hn Hs; cbn;
    [done|].
  apply IH; [|by apply run_seen_since].
  etrans; [exact Hn|]. apply Hmono, run_ticks.
Qed.

(** X12: an agent that has a record in the document and has sent a
    heartbeat is shown, and not as stale, by every [status] call that
    returns within five minutes (300000 ms) of the heartbeat's clock
    reading, whatever calls were made in between, as long as the clock
    does not run backwards.  (A heartbeat under an id that has no
    record registers nothing.) *)
Theorem heartbeat_keeps_agent_fresh
    (a : string) (cs : list Call) (w : World) :
  entries_ok ->
  monotone_clock ->
  is_Some (agents (disk w) !! a) ->
  let w1 := snd (heartbeat a w) in
  let w2 := run_all cs w1 in
  clock (ticks (snd (status_snapshot w2))) - clock (ticks w) <= stale_after ->
  exists s v,
    fst (status_snapshot w2) = Returned s /\
    v ∈ snap_agents s /\ av_id v = a /\ stale v = false /\
    agents (disk w2) !! a = Some (av_agent v).
Proof.
  intros Hok Hmono [r Er] w1 w2 Hfive.
  assert (seen_since a (clock (ticks w)) w2) as (r2 & Er2 & Hr2).
  { apply run_all_seen_since; [done| |].
    - subst w1. rewrite (heartbeat_known a r w Er). cbn. apply Hmono. lia.
    - subst w1. rewrite (heartbeat_known a r w Er). unfold seen_since. cbn.
      eexists. rewrite lookup_insert_eq. split; [done|]. cbn. lia. }
  rewrite status_snapshot_run in Hfive |- *. cbn in Hfive |- *.
  apply (entries_lookup _ _ _ Hok) in Er2 as Hin.
  apply list_elem_of_lookup in Hin as [i Hi].
  pose proof (lookup_lt_Some _ _ _ Hi) as Hlt.
  eexists _, (mkAgentView a r2 _). split; [done|]. cbn.
  split; [|split; [done|split; [|done]]].
  - apply scan_agents_view. by exists i, (a, r2).
  - cbn. apply bool_decide_eq_false_2.
    assert (clock (ticks w2 + i) <=
            clock (ticks w2 + length (entries Agent (agents (disk w2)))
                   + length (entries Lock (locks (disk w2))))) as Hc.
    { apply Hmono. lia. }
    lia.
Qed.

(** ** The knowledge base *)

Lemma writeKnowledge_run (t c a : string) (w : World) :
  writeKnowledge t c a w =
    (Returned tt,
     mkWorld (disk w)
       (journal w ++
          [mkEvent (clock (S (ticks w))) a "knowledge_written"
             [("topic", JStr t)]])
       (<[t := (header_of a (clock (ticks w)) ++ c)%string]> (knowledge w))
       (S (S (ticks w))) (drawn w) (polluted w)).
Proof. reflexivity. Qed.



(** *** Topic names *)

Lemma string_app_cons (c : ascii) (s x : string) :
  (String c s ++ x)%string = String c (s ++ x)%string.
Proof. reflexivity. Qed.

Lemma string_app_nil_l (x : string) : (EmptyString ++ x)%string = x.
Proof. reflexivity. Qed.

Lemma string_app_nil_r (s : string) : (s ++ EmptyString)%string = s.
Proof.
  induction s as [|c s IH]; [done|]. by rewrite string_app_cons, IH.
Qed.

Lemma string_app_assoc' (s x y : string) :
  ((s ++ x) ++ y)%string = (s ++ (x ++ y))%string.
Proof.
  induction s as [|c s IH]; [done|]. by rewrite !string_app_cons, IH.
Qed.

Lemma ends_with_app (suffix s : string) :
  ends_with suffix (s ++ suffix)%string = true.
Proof.
  induction s as [|c s IH].
  - rewrite string_app_nil_l. destruct suffix; cbn; by rewrite decide_True.
  - rewrite string_app_cons. cbn [ends_with]. by case_decide.
Qed.

(** Where [".md"] does not occur in [p], the first occurrence in
    [p ++ ".md" ++ s] is the one after [p]. *)
Lemma remove_first_md (p s : string) :
  occurs ".md" p = false ->
  remove_first ".md" (p ++ ".md" ++ s)%string = (p ++ s)%string.
Proof.
  induction p as [|c p IH]; intros Hocc; [done|].
  cbn [occurs] in Hocc.
  destruct (strip_prefix ".md" (String c p)) as [?|] eqn:Hsp; [done|].
  rewrite (string_app_cons c p). cbn [remove_first].
  assert (strip_prefix ".md" (String c (p ++ ".md" ++ s)%string) = None)
    as ->.
  { cbn in Hsp |- *. case_decide; [|done].
    destruct p as [|c2 p]; [done|]. rewrite (string_app_cons c2 p).
    case_decide; [|done].
    destruct p as [|c3 p]; [done|]. rewrite (string_app_cons c3 p).
    by case_decide. }
  by rewrite IH.
Qed.

Lemma filter_all {A : Type} (P : A -> Prop) `{!forall x, Decision (P x)}
    (l : list A) :
  Forall P l -> filter P l = l.
Proof.
  induction 1 as [|x l Hx _ IH]; [done|].
  by rewrite filter_cons_True, IH.
Qed.

(** X14: [listKnowledge] changes nothing and lists one name per stored
    topic, no file being filtered out.  A topic in whose name [".md"]
    does not occur is listed under its own name; a topic [p.md s] is
    listed as [p s.md], the first [".md"] of its file name being the one
    that is removed. *)
Theorem listKnowledge_names (w : World) :
  entries_ok ->
  exists names,
    listKnowledge w = (Returned names, w) /\
    names ≡ₚ (fun e => remove_first ".md" (file_of (fst e)))
               <$> map_to_list (knowledge w) /\
    (forall t,
       is_Some (knowledge w !! t) -> occurs ".md" t = false -> t ∈ names) /\
    (forall p s,
       is_Some (knowledge w !! (p ++ ".md" ++ s)%string) ->
       occurs ".md" p = false ->
       (p ++ s ++ ".md")%string ∈ names).
Proof.
  intros Hok. eexists. split; [reflexivity|].
  assert (filter (fun f => ends_with ".md" f = true) (readdir w) = readdir w)
    as ->.
  { apply filter_all, Forall_forall. intros f Hf. unfold readdir in Hf.
    apply list_elem_of_fmap in Hf as (e & -> & _). apply ends_with_app. }
  unfold readdir. rewrite <- list_fmap_compose.
  assert (forall t c, knowledge w !! t = Some c ->
            remove_first ".md" (file_of t) ∈
              (remove_first ".md" ∘ (fun e : string * string => file_of e.1))
                <$> entries string (knowledge w)) as Hin.
  { intros t c E. apply list_elem_of_fmap. exists (t, c). split; [done|].
    by apply entries_lookup. }
  split; [by rewrite (Hok string (knowledge w))|]. split.
  - intros t [c E] Hocc. specialize (Hin t c E).
    unfold file_of in Hin.
    rewrite <- (string_app_nil_r ".md"), remove_first_md in Hin by done.
    by rewrite string_app_nil_r in Hin.
  - intros p s [c E] Hocc. specialize (Hin _ c E).
    unfold file_of in Hin.
    by rewrite !string_app_assoc', remove_first_md in Hin.
Qed.

(** ** More on the journal *)

(** X15: a record just written by [logEvent], with a payload that has
    none of the keys [ts], [agent] and [action], is the last record of
    every query whose filters it passes and whose [last], if given, is
    not negative. *)
Theorem logged_event_is_found_last
    (a act : string) (d : list (string * jsval)) (opts : EventQuery)
    (w : World) :
  let e := mkEvent (clock (ticks w)) a act d in
  let w' := snd (logEvent a act d w) in
  plain_payload d ->
  matches opts e ->
  (forall n, q_last opts = Some n -> 0 <= n) ->
  fst (logEvent a act d w) = Returned e /\
  exists res,
    getEvents opts w' = (Returned res, w') /\ last res = Some e.
Proof.
  intros e w' _ Hm Hn. subst w'. rewrite logEvent_run. cbn [fst snd].
  split; [done|].
  assert (filter (matches opts) (journal w ++ [e])
          = filter (matches opts) (journal w) ++ [e]) as Hf.
  { by rewrite filter_app, filter_cons_True, filter_nil. }
  destruct (truthy_num (q_last opts)) as [n|] eqn:Hl.
  - eexists. split; [by apply getEvents_limited|]. cbn [journal].
    fold e. rewrite Hf.
    assert (1 <= n) as Hpos.
    { unfold truthy_num in Hl. destruct (q_last opts) as [m|]; [|done].
      specialize (Hn m eq_refl). case_decide; [done|].
      injection Hl as <-. lia. }
    rewrite slice_from_last by done. unfold last_n.
    rewrite drop_app_le by (rewrite length_app; cbn; lia).
    by rewrite last_snoc.
  - eexists. split; [by apply getEvents_unlimited|]. cbn [journal].
    fold e. rewrite Hf. by rewrite last_snoc.
Qed.

(** X16: a negative [last] does not limit the result to its final
    records: [last = -k] drops the first [k] matching records and
    returns all the others. *)
Theorem getEvents_negative_last (opts : EventQuery) (n : Z) (w : World) :
  q_last opts = Some n ->
  n < 0 ->
  getEvents opts w =
    (Returned (drop (Z.to_nat (- n)) (filter (matches opts) (journal w))), w).
Proof.
  intros Hl Hn.
  rewrite (getEvents_limited opts n).
  - unfold slice_from. rewrite decide_False by lia.
    do 2 f_equal.
    destruct (decide (- n <= Z.of_nat (length (filter (matches opts) (journal w)))))
      as [Hle|Hgt].
    + by rewrite Z.min_l.
    + rewrite Z.min_r by lia. rewrite Nat2Z.id.
      rewrite drop_all. symmetry. apply drop_ge. lia.
  - unfold truthy_num. rewrite Hl. by rewrite decide_False by lia.
Qed.

(** ** The document along a history *)

Lemma mutations_nonneg (cs : list Call) (w : World) : 0 <= mutations cs w.
Proof.
  revert w. induction cs as [|c cs IH]; intros w; cbn; [done|].
  specialize (IH (snd (run c w))). destruct (mutated c w); lia.
Qed.

(** X17: along any sequence of calls the version grows by exactly the
    number of calls that saved the document ([mutated]: the mutations
    that completed, a [heartbeat] under a name every object inherits
    among them), so it never decreases, and under a clock that does not
    run backwards neither does the save time. *)
Theorem document_history (cs : list Call) (w : World) :
  monotone_clock ->
  settled w ->
  version (disk (run_all cs w)) = version (disk w) + mutations cs w /\
  version (disk w) <= version (disk (run_all cs w)) /\
  updated_at (disk w) <= updated_at (disk (run_all cs w)).
Proof.
  intros Hmono Hset.
  pose proof (version_counts_mutations cs w) as Hv.
  pose proof (mutations_nonneg cs w) as Hm.
  destruct (updated_at_never_decreases cs w Hmono Hset) as [Hu _].
  split; [done|]. split; [lia|done].
Qed.

(** ** Collecting results *)

Lemma collectResults_run (w : World) :
  collectResults w =
    (let es := entries Workstream (workstreams (disk w)) in
     (Returned
        (mkCollected (clock (ticks w)) (es ≫= completed_of)
           (es ≫= running_of)
           (remove_first ".md" <$>
              filter (fun f => ends_with ".md" f = true)
                (readdir
                   (mkWorld (disk w) (journal w) (knowledge w)
                      (S (ticks w)) (drawn w) (polluted w))))),
      mkWorld (disk w) (journal w) (knowledge w) (S (ticks w)) (drawn w) (polluted w))).
Proof. reflexivity. Qed.

Lemma length_bind_completed (es : list (string * Workstream)) :
  length (es ≫= completed_of)
  = sum_list_with (fun e => count_status done_ (tasks (snd e))) es.
Proof.
  induction es as [|e es IH]; [done|].
  cbn. rewrite length_app, IH. f_equal.
  unfold completed_of, count_status. by rewrite length_fmap.
Qed.

Lemma length_bind_running (es : list (string * Workstream)) :
  length (es ≫= running_of)
  = sum_list_with (fun e => count_status in_progress (tasks (snd e))) es.
Proof.
  induction es as [|e es IH]; [done|].
  cbn. rewrite length_app, IH. f_equal.
  unfold running_of, count_status. by rewrite length_fmap.
Qed.

Lemma sum_list_with_fmap {A B : Type} (f : B -> nat) (g : A -> B)
    (l : list A) :
  sum_list_with f (g <$> l) = sum_list_with (f ∘ g) l.
Proof. induction l as [|x l IH]; [done|]. cbn. by rewrite IH. Qed.

(** X18: [collectResults] only reads.  Its first list holds exactly the
    done tasks of the board and its second exactly the tasks in
    progress, each under the name of its workstream, so a pending task
    is in neither; the lengths of the two lists are the totals of the
    done and in-progress counts that [listWorkstreams] reports.  No
    task leaves the first list again: after any further calls a task
    listed there is still listed, under the same workstream, id and
    title. *)
Theorem collectResults_sorts_the_board (w : World) :
  entries_ok ->
  exists s w' lines,
    collectResults w = (Returned s, w') /\
    untouched w w' /\
    listWorkstreams w = (Returned lines, w) /\
    (forall c,
       c ∈ completed_this_cycle s <->
       exists ws t,
         workstreams (disk w) !! c_workstream c = Some ws /\
         t ∈ tasks ws /\ status t = done_ /\
         c = mkCompleted (c_workstream c) (task_id t) (title t) (result t)) /\
    (forall r,
       r ∈ still_in_progress s <->
       exists ws t,
         workstreams (disk w) !! r_workstream r = Some ws /\
         t ∈ tasks ws /\ status t = in_progress /\
         r = mkRunning (r_workstream r) (task_id t) (title t)
               (assigned_to t)) /\
    length (completed_this_cycle s) = sum_list_with n_done lines /\
    length (still_in_progress s) = sum_list_with n_in_progress lines /\
    (forall cs c,
       c ∈ completed_this_cycle s ->
       exists s' c',
         fst (collectResults (run_all cs w)) = Returned s' /\
         c' ∈ completed_this_cycle s' /\
         c_workstream c' = c_workstream c /\
         c_task_id c' = c_task_id c /\
         c_title c' = c_title c).
Proof.
  intros Hok.
  assert (forall w0 c,
            c ∈ entries Workstream (workstreams (disk w0)) ≫= completed_of <->
            exists ws t,
              workstreams (disk w0) !! c_workstream c = Some ws /\
              t ∈ tasks ws /\ status t = done_ /\
              c = mkCompleted (c_workstream c) (task_id t) (title t)
                    (result t)) as Hdone.
  { intros w0 c. rewrite list_elem_of_bind. split.
    - intros ([n ws] & Hc & He). apply (entries_lookup _ _ _ Hok) in He.
      unfold completed_of in Hc. cbn in Hc.
      apply list_elem_of_fmap in Hc as (t & -> & Ht).
      apply list_elem_of_filter in Ht as [Hst Ht]. cbn. by exists ws, t.
    - intros (ws & t & E & Ht & Hst & Hc). exists (c_workstream c, ws).
      split; [|by apply entries_lookup].
      unfold completed_of. cbn. rewrite Hc. cbn.
      apply list_elem_of_fmap. exists t. split; [done|].
      by apply list_elem_of_filter. }
  eexists _, _, _. split; [apply collectResults_run|]. cbn.
  split; [done|]. split; [reflexivity|].
  split; [apply Hdone|]. split; [|split; [|split]].
  - intros r. rewrite list_elem_of_bind. split.
    + intros ([n ws] & Hr & He). apply (entries_lookup _ _ _ Hok) in He.
      unfold running_of in Hr. cbn in Hr.
      apply list_elem_of_fmap in Hr as (t & -> & Ht).
      apply list_elem_of_filter in Ht as [Hst Ht]. cbn. by exists ws, t.
    + intros (ws & t & E & Ht & Hst & Hr). exists (r_workstream r, ws).
      split; [|by apply entries_lookup].
      unfold running_of. cbn. rewrite Hr. cbn.
      apply list_elem_of_fmap. exists t. split; [done|].
      by apply list_elem_of_filter.
  - rewrite length_bind_completed.
    rewrite (sum_list_with_Permutation_proper n_done _ _
               (sort_on_perm s_priority _)).
    by rewrite sum_list_with_fmap.
  - rewrite length_bind_running.
    rewrite (sum_list_with_Permutation_proper n_in_progress _ _
               (sort_on_perm s_priority _)).
    by rewrite sum_list_with_fmap.
  - intros cs c Hc. apply Hdone in Hc as (ws & t & E & Ht & Hst & Hc).
    apply list_elem_of_lookup in Ht as [i Hi].
    destruct (run_all_board_le cs w _ ws E)
      as (ws' & E' & _ & _ & _ & _ & Hle).
    destruct (tasks_le_lookup _ _ i t Hle Hi)
      as (t' & Hi' & Hid & Htitle & _ & _ & _ & _ & Hrank).
    rewrite collectResults_run. cbn.
    eexists _, (mkCompleted (c_workstream c) (task_id t') (title t')
                  (result t')).
    split; [done|]. split.
    + apply Hdone. exists ws', t'. cbn. split; [done|].
      split; [by eapply list_elem_of_lookup_2|]. split; [|done].
      rewrite Hst in Hrank. cbn in Hrank. destruct (status t'); cbn in Hrank;
        first [lia | done].
    + cbn. rewrite Hc. cbn. by rewrite Hid, Htitle.
Qed.

(** ** The text of the status *)

Lemma event_line_run (e : Event) (w : World) :
  event_line e w =
    (match time_of_day (toISOString (ts e)) with
     | Some time =>
         Returned ("[" ++ time ++ "] " ++ agent e ++ ": " ++ action e)%string
     | None => Threw (TypeError "split")
     end, w).
Proof. unfold event_line. by destruct (time_of_day _). Qed.

Lemma event_lines_pure (l : list Event) (w : World) :
  snd (map_m event_line l w) = w.
Proof.
  induction l as [|e l IH]; [done|].
  cbn [map_m]. unfold_m. rewrite event_line_run.
  destruct (time_of_day (toISOString (ts e))) as [time|]; [|done].
  destruct (map_m event_line l w) as [[ys|err] w1]; cbn in *; by subst.
Qed.

Lemma event_lines_throw (l : list Event) (w : World) (e : Error) :
  fst (map_m event_line l w) = Threw e -> e = TypeError "split".
Proof.
  induction l as [|x l IH]; [done|].
  cbn [map_m]. unfold_m. rewrite event_line_run.
  destruct (time_of_day (toISOString (ts x))) as [time|]; cbn.
  - destruct (map_m event_line l w) as [[ys|err] w1]; cbn in *; [done|].
    intros [= <-]. by apply IH.
  - by intros [= <-].
Qed.

Lemma event_lines_total (l : list Event) (w : World) :
  (forall t, is_Some (time_of_day (toISOString t))) ->
  exists lines, map_m event_line l w = (Returned lines, w).
Proof.
  intros Hiso. induction l as [|e l [lines IH]]; [by eexists|].
  cbn [map_m]. unfold_m. rewrite event_line_run.
  destruct (Hiso (ts e)) as [time ->]. rewrite IH. by eexists.
Qed.

Lemma statusText_untouched (w : World) : untouched w (snd (statusText w)).
Proof.
  unfold statusText. unfold_m. rewrite status_snapshot_run. cbn zeta.
  cbv beta iota.
  match goal with
  | |- context [map_m event_line ?l ?w1] =>
      pose proof (event_lines_pure l w1) as Hpure;
      destruct (map_m event_line l w1) as [[lines|err] w2]
  end; cbn in Hpure; by subst w2.
Qed.

(** X24: [statusText] only reads: it leaves the document, the journal
    and the knowledge base as they are.  The one error it can raise is
    the [TypeError] of a journal record whose time text has no ['T'];
    when the rendering of every instant has one, as ISO text has, it
    returns a text, which begins with the banner and the line that shows
    the version and the save time of the document. *)
Theorem statusText_only_reads (w : World) :
  untouched w (snd (statusText w)) /\
  (forall e, fst (statusText w) = Threw e -> e = TypeError "split") /\
  ((forall t, is_Some (time_of_day (toISOString t))) ->
   exists text rest,
     fst (statusText w) = Returned text /\
     text = ("=== OpSpawn Orchestrator Status ===" ++ newline
             ++ ("State version: " ++ pretty (version (disk w))
                 ++ " | Updated: " ++ toISOString (updated_at (disk w)))
             ++ newline ++ rest)%string).
Proof.
  unfold statusText. unfold_m. rewrite status_snapshot_run. cbn zeta.
  cbv beta iota.
  match goal with
  | |- context [map_m event_line ?l ?w1] =>
      pose proof (event_lines_pure l w1) as Hpure;
      pose proof (event_lines_throw l w1) as Hthrow;
      pose proof (event_lines_total l w1) as Htotal;
      destruct (map_m event_line l w1) as [[lines|err] w2]
  end; cbn in Hpure; subst w2.
  - split; [done|]. split; [done|]. intros _. by eexists _, _.
  - split; [done|]. split; [intros e [= <-]; by apply Hthrow|].
    intros Hiso. destruct (Htotal Hiso) as [lines Hl]. discriminate Hl.
Qed.

(** ** The HTTP API *)

Ltac http_goal :=
  cbn;
  repeat match goal with
         | |- _ /\ _ => split
         | |- _ ∈ _ => rewrite !elem_of_cons; lia
         | |- untouched _ _ => by unfold untouched
         | |- is_Some (Some _) => by eexists
         | |- forall _, _ => intros ?
         | H : Some _ = Some _ |- _ => injection H as <-; cbn
         | H : None = Some _ |- _ => discriminate H
         | H : Some _ = None |- _ => discriminate H
         end;
  try done; try lia; try (by left); try (by right).

(** X19: a request is answered, unless it is [GET /api/status/text] and
    [statusText] throws, and the answer carries one of the codes 200,
    201, 204, 400, 404, 409 and 500.  A request answered with a code
    from 400 on has changed nothing: not the state document, not the
    journal, not the knowledge base; this covers a missing field (400),
    an unknown workstream or topic on a read (404), a lock held by
    another agent (409) and every error the engine throws, a dashboard
    page that cannot be read, a body that is not JSON or is [null], and
    a path segment that cannot be decoded (500).  A read request changes
    nothing either, answered or not, and all of them but the one for
    the dashboard page are answered with 200 or 404; a request of method
    OPTIONS changes nothing and is answered with 204 and no body; an
    answer of 201 means the document was saved once. *)
Theorem http_failures_change_nothing (q : Request) (w : World) :
  let w' := snd (handle q w) in
  (q ≠ GET_status_text -> is_Some (fst (handle q w))) /\
  (fst (handle q w) = None -> untouched w w') /\
  (is_get q = true -> untouched w w') /\
  (forall r,
     fst (handle q w) = Some r ->
     code r ∈ [200; 201; 204; 400; 404; 409; 500] /\
     (400 <= code r -> untouched w w') /\
     (is_get q = true -> q ≠ GET_dashboard -> code r = 200 \/ code r = 404) /\
     (q = OPTIONS -> w' = w /\ r = mkResponse 204 PNothing) /\
     (code r = 201 -> version (disk w') = version (disk w) + 1)).
Proof.
  destruct q as [| | | | |body|name|name body|name i body|name i body
                |name body| |body|a|opts| |t|t body| |body|r body| |];
    cbn [handle is_get];
    unfold parseBody, try_, text_route, error, json, respond;
    try (destruct body as [| |b]; [http_goal|http_goal|]).
  - http_goal.
  - destruct readDashboard; http_goal.
  - rewrite status_snapshot_run. http_goal.
  - pose proof (statusText_untouched w) as Hsame.
    destruct (statusText w) as [[text|e] w1]; http_goal.
  - unfold listWorkstreams, loadState. unfold_m. http_goal.
  - destruct (truthy_str (b_name b)) as [name|]; [|http_goal].
    destruct (get (polluted w) (workstreams (disk w)) name) as [ws| |] eqn:E.
    + apply get_Own in E.
      rewrite (createWorkstream_exists _ _ ws w E). http_goal.
    + rewrite (createWorkstream_builtin _ _ w E). http_goal.
    + rewrite (createWorkstream_fresh _ _ w E). http_goal.
  - unfold loadState, lookup.
    destruct (get (polluted w) (workstreams (disk w)) name); http_goal.
  - destruct (truthy_str (b_title b)) as [ti|]; [|http_goal].
    destruct (get (polluted w) (workstreams (disk w)) name) as [ws| |] eqn:E.
    + apply get_Own in E. rewrite (addTask_found _ _ ws w E). http_goal.
    + rewrite (addTask_builtin _ _ w E). http_goal.
    + rewrite (addTask_no_workstream _ _ w E). http_goal.
  - destruct (truthy_str (b_agent b)) as [a|]; [|http_goal].
    destruct (claimTask_cases name i a w) as [[e ->]|(u & w' & -> & _)];
      http_goal.
  - destruct (get (polluted w) (workstreams (disk w)) name) as [ws| |] eqn:E.
    + apply get_Own in E.
      destruct (find_task i (tasks ws)) as [[j u]|] eqn:F.
      * rewrite (completeTask_found _ _ _ ws j u w E F). http_goal.
      * rewrite (completeTask_no_task _ _ _ ws w E F). http_goal.
    + rewrite (completeTask_builtin _ _ _ w E). http_goal.
    + rewrite (completeTask_no_workstream _ _ _ w E). http_goal.
  - destruct (truthy_str (b_agent b)) as [a|]; [|http_goal].
    destruct (getNextTask_cases name a w)
      as [[e ->]|[->|(u & w' & -> & _)]]; http_goal.
  - unfold loadState. rewrite agentViews_run. http_goal.
  - destruct (truthy_str (b_id b)) as [a|]; [|http_goal].
    rewrite registerAgent_run. http_goal.
  - destruct (get (polluted w) (agents (disk w)) a) as [rec| |] eqn:E.
    + apply get_Own in E. rewrite (heartbeat_known _ rec w E). http_goal.
    + rewrite (heartbeat_builtin _ w E). http_goal.
    + rewrite (heartbeat_unknown _ w E). http_goal.
  - destruct (truthy_num (q_last opts)) as [n|] eqn:Hl.
    + rewrite (getEvents_limited opts n w Hl). http_goal.
    + rewrite (getEvents_unlimited opts w Hl). http_goal.
  - unfold listKnowledge. http_goal.
  - unfold readKnowledge. destruct (knowledge w !! t); http_goal.
  - destruct (truthy_str (b_content b)) as [c|]; [|http_goal].
    rewrite writeKnowledge_run. http_goal.
  - unfold loadState. rewrite activeLocks_run. http_goal.
  - destruct (truthy_str (b_resource b)) as [r|]; [|http_goal].
    destruct (truthy_str (b_agent b)) as [a|]; [|http_goal].
    destruct (decide (grantable r a (clock (ticks w)) (disk w))) as [Hg|Hg].
    + rewrite (acquireLock_granted r a _ w Hg). http_goal.
    + rewrite (acquireLock_denied r a _ w Hg). http_goal.
  - destruct (truthy_str (b_agent b)) as [a|]; [|http_goal].
    destruct (locks (disk w) !! r) as [l|] eqn:E.
    + destruct (decide (lock_agent l = a)) as [Ha|Ha].
      * rewrite (releaseLock_held r a l w E Ha). http_goal.
      * rewrite (releaseLock_not_held r a w) by (intros ? ?; congruence).
        http_goal.
    + rewrite (releaseLock_not_held r a w) by (intros ? ?; congruence).
      http_goal.
  - http_goal.
  - http_goal.
Qed.

(** X20: a lock request that names a resource and an agent is answered
    with 200 exactly when the engine grants the lock and with 409
    otherwise.  For every resource name other than ["__proto__"] a grant
    stores a lease, and the lease is never of length 0: a [ttl] that is
    missing or 0 is replaced by 60000 ms.  A request for the resource
    ["__proto__"] is answered with 200 and leaves the lock table as it
    was. *)
Theorem http_lock_request (b : Body) (r a : string) (w : World) :
  truthy_str (b_resource b) = Some r ->
  truthy_str (b_agent b) = Some a ->
  let w' := snd (handle (POST_locks (Json b)) w) in
  exists resp,
  fst (handle (POST_locks (Json b)) w) = Some resp /\
  (code resp = 200 <-> grantable r a (clock (ticks w)) (disk w)) /\
  (code resp = 409 <-> ¬ grantable r a (clock (ticks w)) (disk w)) /\
  payload resp = PAcquired (bool_decide (code resp = 200)) /\
  (code resp = 200 ->
   r ≠ "__proto__" ->
   exists l,
     locks (disk w') !! r = Some l /\
     lock_agent l = a /\
     ttl_ms l = num_or (b_ttl b) 60000 /\
     ttl_ms l ≠ 0 /\
     (b_ttl b = None \/ b_ttl b = Some 0 -> ttl_ms l = 60000)) /\
  (r = "__proto__" ->
   locks (disk w) !! r = None ->
   code resp = 200 /\
   locks (disk w') = locks (disk w) /\
   version (disk w') = version (disk w) + 1).
Proof.
  intros Hr Ha. cbn [handle]. unfold parseBody, try_, error, json, respond.
  rewrite Hr, Ha.
  destruct (decide (grantable r a (clock (ticks w)) (disk w))) as [Hg|Hg].
  - rewrite (acquireLock_granted r a _ w Hg). cbn.
    eexists. split; [done|]. cbn.
    split; [done|]. split; [split; [lia|done]|]. split; [done|]. split.
    + intros _ Hne. eexists. rewrite put_insert by by left.
      rewrite lookup_insert_eq. split; [done|]. cbn.
      split; [done|]. split; [done|]. split.
      * unfold num_or. destruct (b_ttl b) as [n|]; [|done]. by case_decide.
      * intros [->| ->]; done.
    + intros -> E. split; [done|]. split; [|done]. by apply put_proto.
  - rewrite (acquireLock_denied r a _ w Hg). cbn.
    eexists. split; [done|]. cbn.
    split; [split; [lia|done]|]. split; [done|]. split; [done|].
    split; [lia|]. intros -> E. exfalso. apply Hg. unfold grantable.
    by rewrite E.
Qed.

(** X21: a workstream that is not stored is answered differently by
    reads and writes.  When its name is not one that every object
    inherits, listing its tasks gives 404, and adding a task to it,
    claiming or completing one of its tasks and asking for its next task
    give 500, all with the engine's not-found message.  When its name is
    one that every object inherits ([constructor], [toString],
    [__proto__], ...), listing its tasks gives 200 without a body and
    the four writes give 500 with the message of the [TypeError] the
    engine runs into. *)
Theorem http_unknown_workstream (name : string) (w : World) :
  workstreams (disk w) !! name = None ->
  let answer := fun q => fst (handle q w) in
  let missing := PError (message (WorkstreamNotFound name)) in
  let broken := fun member => PError (message (TypeError member)) in
  (¬ inherited (polluted w) name ->
   answer (GET_tasks name) = Some (mkResponse 404 missing) /\
   (forall b,
      is_Some (truthy_str (b_title b)) ->
      answer (POST_tasks name (Json b)) = Some (mkResponse 500 missing)) /\
   (forall i b,
      is_Some (truthy_str (b_agent b)) ->
      answer (POST_claim name i (Json b)) = Some (mkResponse 500 missing)) /\
   (forall i b,
      answer (POST_complete name i (Json b))
      = Some (mkResponse 500 missing)) /\
   (forall b,
      is_Some (truthy_str (b_agent b)) ->
      answer (POST_next name (Json b)) = Some (mkResponse 500 missing))) /\
  (inherited (polluted w) name ->
   answer (GET_tasks name) = Some (mkResponse 200 PNothing) /\
   (forall b,
      is_Some (truthy_str (b_title b)) ->
      answer (POST_tasks name (Json b))
      = Some (mkResponse 500 (broken "push"))) /\
   (forall i b,
      is_Some (truthy_str (b_agent b)) ->
      answer (POST_claim name i (Json b))
      = Some (mkResponse 500 (broken "find"))) /\
   (forall i b,
      answer (POST_complete name i (Json b))
      = Some (mkResponse 500 (broken "find"))) /\
   (forall b,
      is_Some (truthy_str (b_agent b)) ->
      answer (POST_next name (Json b))
      = Some (mkResponse 500 (broken "filter")))).
Proof.
  intros E. cbn [handle].
  unfold parseBody, try_, error, json, respond, loadState, lookup.
  split.
  - intros Hn. assert (get (polluted w) (workstreams (disk w)) name = Missing)
      as G by by apply get_Missing.
    split; [by rewrite G|]. split; [|split; [|split]].
    + intros b [ti ->]. by rewrite (addTask_no_workstream _ _ w G).
    + intros i b [a ->]. by rewrite (claimTask_no_workstream _ _ _ w G).
    + intros i b. by rewrite (completeTask_no_workstream _ _ _ w G).
    + intros b [a ->]. by rewrite (getNextTask_no_workstream _ _ w G).
  - intros Hi. assert (get (polluted w) (workstreams (disk w)) name = Builtin)
      as G by by apply get_Builtin.
    split; [by rewrite G|]. split; [|split; [|split]].
    + intros b [ti ->]. by rewrite (addTask_builtin _ _ w G).
    + intros i b [a ->]. by rewrite (claimTask_builtin _ _ _ w G).
    + intros i b. by rewrite (completeTask_builtin _ _ _ w G).
    + intros b [a ->]. by rewrite (getNextTask_builtin _ _ w G).
Qed.

(** ** Who changes what *)

Lemma run_agent_frame (a : string) (c : Call) (w : World) :
  ¬ is_agent_call a c ->
  agents (disk (snd (run c w))) !! a = agents (disk w) !! a.
Proof.
  intros Hc. run_branches c w; try done.
  - rewrite lookup_put_ne; [done|]. intros ->. by apply Hc.
  - rewrite lookup_insert_ne; [done|]. intros ->. by apply Hc.
Qed.

Lemma run_lock_frame (r : string) (c : Call) (w : World) :
  ¬ is_lock_call r c ->
  locks (disk (snd (run c w))) !! r = locks (disk w) !! r.
Proof.
  intros Hc. run_branches c w; try done.
  - rewrite lookup_put_ne; [done|]. intros ->. by apply Hc.
  - rewrite lookup_delete_ne; [done|]. intros ->. by apply Hc.
Qed.

Lemma run_agent_stays (a : string) (c : Call) (w : World) :
  is_Some (agents (disk w) !! a) ->
  is_Some (agents (disk (snd (run c w))) !! a).
Proof.
  intros Ha. run_branches c w; try done.
  - by apply lookup_put_is_Some.
  - destruct (decide (a0 = a)) as [->|Hne].
    + by rewrite lookup_insert_eq.
    + by rewrite lookup_insert_ne.
Qed.

(** X22: an agent's record is changed only by that agent's own
    [registerAgent] and [heartbeat], and a lock entry only by
    [acquireLock] and [releaseLock] on its resource: every other
    sequence of calls leaves them as they are, so an expired lock entry
    stays in the document until one of the two is called for it.  No
    call removes an agent.  A [heartbeat] keeps the agent's type,
    capabilities and registration time and sets the last-seen time.  A
    [registerAgent] never fails, also for an id that is registered, and
    returns the new record; under every id other than ["__proto__"] the
    record is stored in place of the old one, while under ["__proto__"]
    the document is saved with the agents it had. *)
Theorem records_change_by_their_own_calls (a r : string) (w : World) :
  (forall cs,
     Forall (fun c => ¬ is_agent_call a c) cs ->
     agents (disk (run_all cs w)) !! a = agents (disk w) !! a) /\
  (forall cs,
     Forall (fun c => ¬ is_lock_call r c) cs ->
     locks (disk (run_all cs w)) !! r = locks (disk w) !! r) /\
  (forall cs,
     is_Some (agents (disk w) !! a) ->
     is_Some (agents (disk (run_all cs w)) !! a)) /\
  (forall rec,
     agents (disk w) !! a = Some rec ->
     agents (disk (snd (heartbeat a w))) !! a
     = Some (mkAgent (agent_type rec) "active" (capabilities rec)
               (registered_at rec) (clock (ticks w)))) /\
  (forall opts,
     exists rec,
       fst (registerAgent a opts w) = Returned rec /\
       registered_at rec = clock (ticks w) /\
       version (disk (snd (registerAgent a opts w))) = version (disk w) + 1 /\
       (a ≠ "__proto__" ->
        agents (disk (snd (registerAgent a opts w))) !! a = Some rec) /\
       (a = "__proto__" ->
        agents (disk w) !! a = None ->
        agents (disk (snd (registerAgent a opts w))) = agents (disk w))).
Proof.
  split; [|split; [|split; [|split]]].
  - intros cs. revert w. induction cs as [|c cs IH]; intros w Hcs; [done|].
    apply Forall_cons in Hcs as [Hc Hcs]. cbn.
    by rewrite (IH _ Hcs), run_agent_frame.
  - intros cs. revert w. induction cs as [|c cs IH]; intros w Hcs; [done|].
    apply Forall_cons in Hcs as [Hc Hcs]. cbn.
    by rewrite (IH _ Hcs), run_lock_frame.
  - intros cs. revert w. induction cs as [|c cs IH]; intros w Ha; [done|].
    cbn. by apply IH, run_agent_stays.
  - intros rec E. rewrite (heartbeat_known a rec w E). cbn.
    by rewrite lookup_insert_eq.
  - intros opts. rewrite registerAgent_run. cbn. eexists.
    split; [done|]. split; [done|]. split; [done|]. split.
    + intros Hne. rewrite put_insert by by left. by rewrite lookup_insert_eq.
    + intros -> E. by apply put_proto.
Qed.

(** ** Names that every object inherits *)

(** X25: what the engine does under a name that every object inherits
    ([constructor], [toString], [__proto__], ...) and that is not stored.
    As a workstream name it cannot be created ("already exists"), and
    adding a task to it, completing one of its tasks and asking for its
    next task raise a [TypeError]; none of the four changes the
    document, the journal or the knowledge base.  A [heartbeat] under it
    saves the document, so the version grows by one, and registers
    nobody and journals nothing.  As a resource it is granted to every
    caller and never released by [releaseLock] as long as it is not
    stored; under ["__proto__"] the grant, which is saved and
    journalled, leaves the lock table as it was, so the agent that was
    granted the lock cannot give it back. *)
Theorem inherited_names_reach_the_engine (name : string) (w : World) :
  inherited (polluted w) name ->
  (workstreams (disk w) !! name = None ->
   (forall opts,
      createWorkstream name opts w = (Threw (WorkstreamExists name), w)) /\
   (forall opts,
      fst (addTask name opts w) = Threw (TypeError "push") /\
      untouched w (snd (addTask name opts w))) /\
   (forall i res,
      completeTask name i res w = (Threw (TypeError "find"), w)) /\
   (forall a, getNextTask name a w = (Threw (TypeError "filter"), w))) /\
  (agents (disk w) !! name = None ->
   let w' := snd (heartbeat name w) in
   fst (heartbeat name w) = Returned tt /\
   version (disk w') = version (disk w) + 1 /\
   agents (disk w') = agents (disk w) /\
   journal w' = journal w) /\
  (locks (disk w) !! name = None ->
   forall a ttl,
     let w' := snd (acquireLock name a ttl w) in
     fst (acquireLock name a ttl w) = Returned true /\
     releaseLock name a w = (Returned false, w) /\
     version (disk w') = version (disk w) + 1 /\
     (name = "__proto__" ->
      locks (disk w') = locks (disk w) /\
      releaseLock name a w' = (Returned false, w'))).
Proof.
  intros Hin. split; [|split].
  - intros E.
    assert (get (polluted w) (workstreams (disk w)) name = Builtin) as G
      by by apply get_Builtin.
    split; [intros opts; by apply createWorkstream_builtin|].
    split; [intros opts; by rewrite (addTask_builtin _ _ w G)|].
    split; [intros i res; by apply completeTask_builtin|].
    intros a. by apply getNextTask_builtin.
  - intros E.
    assert (get (polluted w) (agents (disk w)) name = Builtin) as G
      by by apply get_Builtin.
    cbn zeta. by rewrite (heartbeat_builtin _ w G).
  - intros E a ttl. cbn zeta.
    assert (grantable name a (clock (ticks w)) (disk w)) as Hg
      by (unfold grantable; by rewrite E).
    rewrite (acquireLock_granted name a ttl w Hg). cbn.
    split; [done|].
    split; [apply releaseLock_not_held; intros l El; congruence|].
    split; [done|]. intros ->. rewrite put_proto by done.
    split; [done|]. apply releaseLock_not_held. cbn. intros l El. congruence.
Qed.

End Engine.

(** * Concrete runs

    A clock that advances ten milliseconds per reading, a random source
    that yields distinct bytes, one that always yields the same byte (two
    identifiers collide), and the worlds reached from the initial one by
    engine calls. *)

Module Scenario.

(** The oracles. *)

(** A clock that advances ten milliseconds per reading. *)
Definition clk (n : nat) : Z := 1700000000000 + 10 * Z.of_nat n.

(** A clock that stands still: every reading falls in the same
    millisecond. *)
Definition frozen (n : nat) : Z := 1700000000000.

(** Random bytes that differ, and random bytes that repeat. *)
Definition varied (n : nat) : Byte.byte :=
  default Byte.x00 (Byte.of_N (N.of_nat (37 * n + 11) mod 256)).

Definition stuck (n : nat) : Byte.byte := Byte.x2a.

(** Only the header of a knowledge file shows the rendering of an
    instant; any rendering serves here. *)
Definition iso (t : Z) : string := "1970-01-01T00:00:00.000Z".

(** The worlds and tasks the runs below pass through. *)

Definition no_opts : WorkstreamOpts := mkWorkstreamOpts None None.

Definition task_opts (t : string) (p : option Z) : TaskOpts :=
  mkTaskOpts t None p None.

(** The world after [createWorkstream('w')]. *)
Definition w1 : World := snd (createWorkstream clk "w" no_opts (init clk)).

(** The board of the test suite: task A with priority 3, then task B
    with priority 1. *)
Definition board (entropy : nat -> Byte.byte) : World :=
  let w := snd (addTask clk entropy "w" (task_opts "Task A" (Some 3)) w1) in
  snd (addTask clk entropy "w" (task_opts "Task B" (Some 1)) w).

(** The workstream stored under "w". *)
Definition stored (w : World) : Workstream :=
  default (mkWorkstream EmptyString 0 EmptyString [] 0)
    (workstreams (disk w) !! "w").

(** The two tasks of the board when the random bytes differ. *)
Definition task_a : Task :=
  mkTask "0b30557a" "Task A" EmptyString pending 3 None None
    (clk 4) (clk 5) JNull.

Definition task_b : Task :=
  mkTask "9fc4e90e" "Task B" EmptyString pending 1 None None
    (clk 8) (clk 9) JNull.

(** The two tasks of the board when the random bytes repeat: both carry
    the same identifier. *)
Definition twin_a : Task :=
  mkTask "2a2a2a2a" "Task A" EmptyString pending 3 None None
    (clk 4) (clk 5) JNull.

Definition twin_b : Task :=
  mkTask "2a2a2a2a" "Task B" EmptyString pending 1 None None
    (clk 8) (clk 9) JNull.

(** The world after agent a1 claimed task A. *)
Definition a_claimed : World :=
  snd (claimTask clk "w" "0b30557a" "a1" (board varied)).

(** The world after an agent whose id is the empty string claimed task
    A. *)
Definition claimed_by_nobody : World :=
  snd (claimTask clk "w" "0b30557a" EmptyString (board varied)).

(** Agent a1 holds a lease taken at the frozen instant for 0 ms; whoever
    asks next asks in the same millisecond, at the expiry instant. *)
Definition held_until_now : World :=
  snd (acquireLock frozen "res" "a1" 0 (init frozen)).

(** Agent a1 took a lease of 0 ms under the running clock. *)
Definition zero_lease : World :=
  snd (acquireLock clk "res" "a1" 0 (init clk)).

(** Agent a1 holds a five-second lease. *)
Definition leased : World :=
  snd (acquireLock clk "res" "a1" 5000 (init clk)).

(** A lease of one second, run out a minute ago, still in the document. *)
Definition stale_lease : World :=
  mkWorld (mkState 7 (clk 0) ∅ ∅ {[ "res" := mkLock "a1" (clk 0 - 60000) 1000 ]})
    [] ∅ 1 0 false.

(** The last [n] [task_created] records of the system. *)
Definition created_last (n : Z) : EventQuery :=
  mkEventQuery (Some "system") (Some "task_created") None (Some n).

(** [Object.entries] and [readdirSync] listing in key order. *)
Definition ents (V : Type) (m : gmap string V) : list (string * V) :=
  map_to_list m.

(** The life of task A on the board of the test suite. *)
Definition life_of_a : list Call :=
  [ClaimTask "w" "0b30557a" "a1"; CompleteTask "w" "0b30557a" (JStr "R")].

(** The board after task A was claimed and completed. *)
Definition a_done : World := run_all clk varied iso life_of_a (board varied).

(** What the other agents do while a1 holds its lease. *)
Definition meanwhile : list Call :=
  [CreateWorkstream "w" no_opts; AcquireLock "res" "a2" 100;
   ReleaseLock "res" "a2"].

(** Agent a1 registered with the defaults. *)
Definition staffed : World :=
  snd (registerAgent clk "a1" (mkAgentOpts None None) (init clk)).

(** A note written by a1, under a plain topic and under one whose name
    contains the extension. *)
Definition noted : World :=
  let w := snd (writeKnowledge clk iso "notes" "hello" "a1" (init clk)) in
  snd (writeKnowledge clk iso "a.md.b" "hello" "a1" w).

(** A lock request over HTTP that asks for a lease of 0 ms. *)
Definition lock_body : Body :=
  mkBody None None None None None (Some "a1") None None None None None
    (Some "res") (Some 0).

(** The server runs without a dashboard page. *)
Definition no_page : string + string :=
  inr "ENOENT: no such file or directory, open 'dashboard.html'".

(** All records of the system but the first. *)
Definition all_but_first : EventQuery :=
  mkEventQuery (Some "system") None None (Some (-1)).

(** The last record of agent a1. *)
Definition last_of_a1 : EventQuery :=
  mkEventQuery (Some "a1") None None (Some 1).

Lemma clk_monotone : monotone_clock clk.
Proof. intros i j Hij. unfold clk. lia. Qed.

Example board_ids_distinct :
  task_id <$> tasks (stored (board varied)) = ["0b30557a"; "9fc4e90e"].
Proof. vm_compute. reflexivity. Qed.

Example board_ids_collide :
  task_id <$> tasks (stored (board stuck)) = ["2a2a2a2a"; "2a2a2a2a"].
Proof. vm_compute. reflexivity. Qed.

(** *** The repository's own tests, replayed on the model *)

(** "Resource locking": a1 acquires, a2 is denied, a1 re-acquires, a1
    releases, a2 cannot release. *)
Example resource_locking_test :
  let s0 := init clk in
  let r1 := acquireLock clk "git-repo" "agent-1" 5000 s0 in
  let r2 := acquireLock clk "git-repo" "agent-2" 5000 (snd r1) in
  let r3 := acquireLock clk "git-repo" "agent-1" 5000 (snd r2) in
  let r4 := releaseLock clk "git-repo" "agent-1" (snd r3) in
  let r5 := releaseLock clk "git-repo" "agent-2" (snd r4) in
  (fst r1, fst r2, fst r3, fst r4, fst r5) =
    (Returned true, Returned false, Returned true, Returned true,
     Returned false).
Proof. vm_compute. reflexivity. Qed.

(** "Task lifecycle": add, claim, a second claim throws, complete. *)
Example task_lifecycle_test :
  let r1 := addTask clk varied "w" (mkTaskOpts "Test task" (Some "A test")
                                      (Some 2) None) w1 in
  let r2 := claimTask clk "w" "0b30557a" "agent-test" (snd r1) in
  let r3 := claimTask clk "w" "0b30557a" "agent-2" (snd r2) in
  let r4 := completeTask clk "w" "0b30557a" (JStr "Done!") (snd r3) in
  match fst r1, fst r2, fst r3, fst r4 with
  | Returned t1, Returned t2, Threw e, Returned t4 =>
      (String.length (task_id t1), status t1, title t1) =
        (8%nat, pending, "Test task") /\
      (status t2, assigned_to t2) = (in_progress, Some "agent-test") /\
      kind_of e = InvalidState /\
      (status t4, result t4) = (done_, JStr "Done!")
  | _, _, _, _ => False
  end.
Proof. vm_compute. repeat split. Qed.

(** "getNextTask": priorities 3 and 1 present, the priority-1 task is
    returned, claimed. *)
Example get_next_task_test :
  match fst (getNextTask clk "w" "agent-auto" (board varied)) with
  | Returned (Some t) => (title t, status t) = ("Task B", in_progress)
  | _ => False
  end.
Proof. vm_compute. reflexivity. Qed.

(** *** C1 at a concrete call *)

(** C1 on the first [createWorkstream] after start-up: the version goes
    from 0 to 1 and the save time does not go back. *)
Lemma mutation_bumps_version_witness :
  mutated clk varied iso (CreateWorkstream "w" no_opts) (init clk) = true /\
  version (disk w1) = version (disk (init clk)) + 1 /\
  updated_at (disk (init clk)) <= updated_at (disk w1).
Proof.
  destruct (mutation_bumps_version clk varied iso
              (CreateWorkstream "w" no_opts) (init clk) eq_refl)
    as (Hv & _ & Hmono).
  split; [reflexivity|]. split; [exact Hv|].
  apply (Hmono clk_monotone (init_settled clk clk_monotone)).
Defined.

Example versions_along_a_run :
  version (disk (init clk)) = 0 /\
  version (disk w1) = 1 /\
  version (disk (board varied)) = 3 /\
  updated_at (disk (board varied)) = clk 10.
Proof. repeat split; vm_compute; reflexivity. Qed.

(** *** C2: the boundary instant *)

Example held_until_now_entry :
  locks (disk held_until_now) !! "res" =
    Some (mkLock "a1" 1700000000000 0).
Proof. vm_compute. reflexivity. Qed.

(** C2 with the strict expiry test [acquiredAt + ttlMs < now] fails at the
    expiry instant: the entry exists, is held by a1, expires exactly now,
    and a2 is granted the lock all the same. *)
Lemma acquireLock_strict_expiry_counterexample :
  locks (disk held_until_now) !! "res" = Some (mkLock "a1" 1700000000000 0) /\
  frozen (ticks held_until_now) = 1700000000000 /\
  fst (acquireLock frozen "res" "a2" 5000 held_until_now) = Returned true /\
  ¬ acquire_rule frozen spec_grantable "res" "a2" 5000 held_until_now.
Proof.
  split; [exact held_until_now_entry|]. split; [reflexivity|].
  split; [vm_compute; reflexivity|].
  intros [[Hgrant _] _]. specialize (Hgrant eq_refl).
  vm_compute in Hgrant. destruct Hgrant as [Hlt|Heq]; discriminate.
Qed.

(** C2 at the same instant, with the test the code makes. *)
Lemma acquireLock_grants_iff_free_witness :
  "res" ≠ "__proto__" /\
  fst (acquireLock frozen "res" "a2" 5000 held_until_now) = Returned true /\
  grantable "res" "a2" (frozen (ticks held_until_now)) (disk held_until_now).
Proof.
  assert ("res" ≠ "__proto__") as Hne by discriminate.
  destruct (acquireLock_grants_iff_free frozen "res" "a2" 5000 held_until_now
              Hne) as [[Hiff _] _].
  split; [exact Hne|]. split; [reflexivity|]. apply Hiff. reflexivity.
Defined.

(** *** C9 and C10 *)

(** C9: a1 took the lock with ttl 0; a2 asks next and gets it. *)
Lemma lapsed_lock_is_acquirable_witness :
  fst (acquireLock clk "res" "a2" 5000 zero_lease) = Returned true /\
  locks (disk (snd (acquireLock clk "res" "a2" 5000 zero_lease))) !! "res" =
    Some (mkLock "a2" (clk (S (ticks zero_lease))) 5000).
Proof.
  apply (lapsed_lock_is_acquirable clk "res" "a2" 5000
           (mkLock "a1" (clk 1) 0) zero_lease).
  - reflexivity.
  - discriminate.
  - left. split; [reflexivity|]. vm_compute. discriminate.
Defined.

(** C10: a1 releases a lease that ran out a minute ago. *)
Lemma releaseLock_ignores_expiry_witness :
  acquired_at (mkLock "a1" (clk 0 - 60000) 1000)
    + ttl_ms (mkLock "a1" (clk 0 - 60000) 1000) < clk (ticks stale_lease) /\
  fst (releaseLock clk "res" "a1" stale_lease) = Returned true /\
  locks (disk (snd (releaseLock clk "res" "a1" stale_lease))) !! "res" = None.
Proof.
  destruct (releaseLock_ignores_expiry clk "res" "a1" stale_lease)
    as [_ Hrel].
  destruct (Hrel (mkLock "a1" (clk 0 - 60000) 1000) eq_refl eq_refl)
    as (Hres & _ & Hgone & _).
  split; [vm_compute; reflexivity|]. split; [exact Hres|exact Hgone].
Defined.

(** *** C3 and C5: the life of one task *)

Example board_tasks : tasks (stored (board varied)) = [task_a; task_b].
Proof. vm_compute. reflexivity. Qed.

Example board_lookup :
  workstreams (disk (board varied)) !! "w" = Some (stored (board varied)).
Proof. vm_compute. reflexivity. Qed.

Example find_task_a :
  find_task "0b30557a" (tasks (stored (board varied))) = Some (0%nat, task_a).
Proof. vm_compute. reflexivity. Qed.

Example find_task_b :
  find_task "9fc4e90e" (tasks (stored (board varied))) = Some (1%nat, task_b).
Proof. vm_compute. reflexivity. Qed.

Example a_claimed_lookup :
  workstreams (disk a_claimed) !! "w" = Some (stored a_claimed).
Proof. vm_compute. reflexivity. Qed.

Example a_claimed_find :
  find_task "0b30557a" (tasks (stored a_claimed)) =
    Some (0%nat, claimed_by "a1" (clk 12) task_a).
Proof. vm_compute. reflexivity. Qed.

Example nothing_stored_at_start (name : string) :
  workstreams (disk (init clk)) !! name = None.
Proof. apply lookup_empty. Qed.

Example constructor_is_inherited : inherited false "constructor".
Proof. left. unfold inherited_names. rewrite elem_of_cons. by left. Qed.

(** C3 right after start-up: [claimTask('constructor', 't1', 'a1')] finds
    no workstream and raises a [TypeError], which is not NotFound. *)
Lemma claimTask_inherited_name_witness :
  claimTask clk "constructor" "t1" "a1" (init clk)
    = (Threw (TypeError "find"), init clk) /\
  kind_of (TypeError "find") ≠ NotFound /\
  message (TypeError "find")
    = "Cannot read properties of undefined (reading 'find')".
Proof.
  destruct (claimTask_inherited_name clk "constructor" "t1" "a1" (init clk)
              (nothing_stored_at_start "constructor")
              constructor_is_inherited) as [Hrun Hkind].
  split; [exact Hrun|]. split; [exact Hkind|reflexivity].
Defined.

(** X23: claiming a pending task succeeds; claiming it again, by any
    agent, is InvalidState. *)
Lemma claimTask_contract_witness :
  (exists t' w',
     claimTask clk "w" "0b30557a" "a1" (board varied) = (Returned t', w') /\
     status t' = in_progress /\ assigned_to t' = Some "a1") /\
  (exists e,
     claimTask clk "w" "0b30557a" "a2" a_claimed = (Threw e, a_claimed) /\
     kind_of e = InvalidState).
Proof.
  split.
  - destruct (claimTask_contract clk "w" "0b30557a" "a1" (board varied))
      as (_ & _ & _ & Hok).
    destruct (Hok (stored (board varied)) 0%nat task_a
                board_lookup find_task_a eq_refl)
      as (t' & w' & Hrun & _ & Hst & Has & _).
    exists t', w'. split; [exact Hrun|]. split; [exact Hst|exact Has].
  - destruct (claimTask_contract clk "w" "0b30557a" "a2" a_claimed)
      as (_ & _ & Hbusy & _).
    apply (Hbusy (stored a_claimed) 0%nat (claimed_by "a1" (clk 12) task_a)
             a_claimed_lookup a_claimed_find).
    discriminate.
Defined.

(** C5: completing a task nobody claimed: it goes from pending straight
    to done, and the journal names "system". *)
Lemma completeTask_contract_witness :
  exists t' w' ev,
    completeTask clk "w" "9fc4e90e" (JStr "R") (board varied) =
      (Returned t', w') /\
    status t' = done_ /\ result t' = JStr "R" /\
    journal w' = journal (board varied) ++ [ev] /\
    agent ev = "system".
Proof.
  destruct (completeTask_contract clk "w" "9fc4e90e" (JStr "R") (board varied))
    as (Hok & _).
  destruct (Hok (stored (board varied)) 1%nat task_b board_lookup find_task_b)
    as ((t' & w' & ev & Hrun & _ & Hst & Hres & _ & _ & _ & _ & Hj & _ & _
         & Hag) & _ & Hsys).
  exists t', w', ev.
  split; [exact Hrun|]. split; [exact Hst|]. split; [exact Hres|].
  split; [exact Hj|]. rewrite Hag. apply Hsys. left. reflexivity.
Defined.

(** An empty assignee is falsy: the completion is journalled for
    "system". *)
Example empty_assignee_counts_as_none :
  (assigned_to <$> tasks (stored claimed_by_nobody)
   = [Some EmptyString; None]) /\
  (agent <$> last (journal
     (snd (completeTask clk "w" "0b30557a" JNull claimed_by_nobody)))
   = Some "system").
Proof. split; vm_compute; reflexivity. Qed.

Example claimed_by_nobody_lookup :
  workstreams (disk claimed_by_nobody) !! "w"
  = Some (stored claimed_by_nobody).
Proof. vm_compute. reflexivity. Qed.

Example claimed_by_nobody_find :
  find_task "0b30557a" (tasks (stored claimed_by_nobody)) =
    Some (0%nat, claimed_by EmptyString (clk 12) task_a).
Proof. vm_compute. reflexivity. Qed.

(** C5 with "the task's current assignee, or system if unassigned" fails
    for a task whose assignee is the empty string: the task was claimed,
    by the agent [""], and its completion is journalled for "system". *)
Lemma completeTask_empty_assignee_counterexample :
  claimed_by_nobody
    = snd (claimTask clk "w" "0b30557a" EmptyString (board varied)) /\
  workstreams (disk claimed_by_nobody) !! "w"
    = Some (stored claimed_by_nobody) /\
  find_task "0b30557a" (tasks (stored claimed_by_nobody))
    = Some (0%nat, claimed_by EmptyString (clk 12) task_a) /\
  assigned_to (claimed_by EmptyString (clk 12) task_a) = Some EmptyString /\
  ¬ completion_rule clk assignee_or_system "w" "0b30557a" JNull
      (stored claimed_by_nobody) 0%nat
      (claimed_by EmptyString (clk 12) task_a) claimed_by_nobody.
Proof.
  split; [reflexivity|].
  split; [exact claimed_by_nobody_lookup|].
  split; [exact claimed_by_nobody_find|].
  split; [reflexivity|].
  intros (t' & w' & ev & Hrun & _ & _ & _ & _ & _ & _ & _ & Hj & _ & _ & Hag).
  pose proof (proj2 empty_assignee_counts_as_none) as Hsys.
  rewrite Hrun in Hsys. cbn [snd] in Hsys.
  rewrite Hj, last_snoc in Hsys. cbn in Hsys.
  rewrite Hag in Hsys. discriminate Hsys.
Qed.

(** *** C4: the most urgent pending task *)

Lemma b_first_lowest (a b : Task) :
  status b = pending -> priority b < priority a ->
  first_lowest_pending [a] b [].
Proof.
  intros Hb Hlt. split; [exact Hb|]. split.
  - intros u Hu _. by apply list_elem_of_singleton in Hu as ->.
  - intros u Hu. by apply elem_of_nil in Hu.
Qed.

Example board_ids_nodup : NoDup (task_id <$> tasks (stored (board varied))).
Proof.
  rewrite board_ids_distinct. apply NoDup_cons. split; [|apply NoDup_singleton].
  intros Hin. apply list_elem_of_singleton in Hin. discriminate.
Qed.

(** C4 on the board of the test suite: B, of priority 1, is claimed and
    returned although A was created first. *)
Lemma getNextTask_selects_first_lowest_witness :
  exists t' w',
    getNextTask clk "w" "agent-auto" (board varied) = (Returned (Some t'), w') /\
    title t' = "Task B" /\ priority t' = 1 /\
    status t' = in_progress /\ assigned_to t' = Some "agent-auto".
Proof.
  destruct (getNextTask_selects_first_lowest clk "w" "agent-auto"
              (stored (board varied)) (board varied)
              board_lookup board_ids_nodup)
    as (_ & _ & Hsel).
  destruct (Hsel [task_a] task_b [] board_tasks
              (b_first_lowest task_a task_b eq_refl eq_refl))
    as (t' & w' & Hrun & Ht' & _).
  exists t', w'. split; [exact Hrun|]. rewrite Ht'. by repeat split.
Defined.

(** With colliding identifiers task B is still the most urgent pending
    task, but the call claims and returns task A, the first task that
    carries the identifier of B. *)
Example colliding_board_tasks :
  tasks (stored (board stuck)) = [twin_a; twin_b].
Proof. vm_compute. reflexivity. Qed.

Example colliding_board_lookup :
  workstreams (disk (board stuck)) !! "w" = Some (stored (board stuck)).
Proof. vm_compute. reflexivity. Qed.

Example colliding_board_next :
  fst (getNextTask clk "w" "agent-auto" (board stuck)) =
    Returned (Some (claimed_by "agent-auto" (clk 12) twin_a)).
Proof. vm_compute. reflexivity. Qed.

(** C4 without the uniqueness of ids fails on that board, which three
    engine calls produce from the initial world: the selected task is B,
    the claimed and returned one is A. *)
Lemma getNextTask_duplicate_id_counterexample :
  board stuck =
    snd (addTask clk stuck "w" (task_opts "Task B" (Some 1))
           (snd (addTask clk stuck "w" (task_opts "Task A" (Some 3))
                   (snd (createWorkstream clk "w" no_opts (init clk)))))) /\
  workstreams (disk (board stuck)) !! "w" = Some (stored (board stuck)) /\
  tasks (stored (board stuck)) = [twin_a; twin_b] /\
  first_lowest_pending [twin_a] twin_b [] /\
  ¬ next_task_rule clk "w" "agent-auto" (stored (board stuck)) (board stuck).
Proof.
  split; [reflexivity|].
  split; [exact colliding_board_lookup|].
  split; [exact colliding_board_tasks|].
  split; [exact (b_first_lowest twin_a twin_b eq_refl eq_refl)|].
  intros (_ & _ & Hsel).
  destruct (Hsel [twin_a] twin_b [] colliding_board_tasks
              (b_first_lowest twin_a twin_b eq_refl eq_refl))
    as (t' & w' & Hrun & Ht' & _).
  pose proof colliding_board_next as Hnext.
  rewrite Hrun in Hnext. cbn [fst] in Hnext.
  injection Hnext as Hnext. rewrite Ht' in Hnext.
  apply (f_equal title) in Hnext. discriminate Hnext.
Qed.

(** *** C6: calls that fail *)

Example leased_entry :
  locks (disk leased) !! "res" = Some (mkLock "a1" (clk 1) 5000).
Proof. vm_compute. reflexivity. Qed.

(** C6: a2 is denied the lock a1 holds, and "w" cannot be created
    twice; neither call leaves a trace. *)
Lemma failing_call_changes_nothing_witness :
  (fst (acquireLock clk "res" "a2" 5000 leased) = Returned false /\
   untouched leased (snd (acquireLock clk "res" "a2" 5000 leased))) /\
  createWorkstream clk "w" no_opts w1 = (Threw (WorkstreamExists "w"), w1).
Proof.
  destruct (failing_call_changes_nothing clk varied iso)
    as (_ & Hdenied & _ & Htwice).
  split.
  - apply (Hdenied "res" "a2" 5000 (mkLock "a1" (clk 1) 5000) leased).
    + exact leased_entry.
    + vm_compute. reflexivity.
    + discriminate.
  - apply (Htwice "w" no_opts no_opts (init clk)).
Defined.

(** *** C7: a new task *)

Example w1_lookup : workstreams (disk w1) !! "w" = Some (stored w1).
Proof. vm_compute. reflexivity. Qed.

(** C7 for a task of priority 2. *)
Lemma addTask_returns_pending_task_witness :
  addTask_rule clk varied (fun o => num_or o 5) "w"
    (task_opts "T" (Some 2)) (stored w1) w1.
Proof.
  apply (addTask_returns_pending_task clk varied "w"
           (task_opts "T" (Some 2)) (stored w1) w1).
  exact w1_lookup.
Defined.

Example addTask_priorities :
  (priority <$> tasks (stored
     (snd (addTask clk varied "w" (task_opts "T" (Some 2)) w1))) = [2]) /\
  (priority <$> tasks (stored
     (snd (addTask clk varied "w" (task_opts "T" None) w1))) = [5]) /\
  (priority <$> tasks (stored
     (snd (addTask clk varied "w" (task_opts "T" (Some (-1))) w1))) = [-1]) /\
  (priority <$> tasks (stored
     (snd (addTask clk varied "w" (task_opts "T" (Some 0)) w1))) = [5]).
Proof. repeat split; vm_compute; reflexivity. Qed.

(** A caller who supplies priority 0 gets a task of priority 5. *)
Example addTask_priority_zero :
  fst (addTask clk varied "w" (task_opts "T" (Some 0)) w1) =
    Returned (mkTask "0b30557a" "T" EmptyString pending 5 None None
                (clk 4) (clk 5) JNull).
Proof. vm_compute. reflexivity. Qed.

(** C7 with "the supplied priority, whatever it is" fails for priority
    0: the returned task has priority 5. *)
Lemma addTask_priority_zero_counterexample :
  workstreams (disk w1) !! "w" = Some (stored w1) /\
  ¬ addTask_rule clk varied supplied_or_5 "w" (task_opts "T" (Some 0))
      (stored w1) w1.
Proof.
  split; [exact w1_lookup|].
  intros (t & w' & Hrun & _ & _ & _ & _ & _ & Hprio & _).
  pose proof addTask_priority_zero as Hzero.
  rewrite Hrun in Hzero. cbn [fst] in Hzero. injection Hzero as ->.
  discriminate Hprio.
Qed.

(** *** C8: querying the journal *)

Example board_journal :
  (fun e => (agent e, action e)) <$> journal (board varied) =
    [("system", "workstream_created"); ("system", "task_created");
     ("system", "task_created")].
Proof. vm_compute. reflexivity. Qed.

(** C8: the last [task_created] record of the system. *)
Lemma getEvents_filters_then_limits_witness :
  exists res,
    getEvents (created_last 1) (board varied) = (Returned res, board varied) /\
    res = [mkEvent (clk 11) "system" "task_created"
             [("workstream", JStr "w"); ("task_id", JStr "9fc4e90e");
              ("title", JStr "Task B")]].
Proof.
  destruct (getEvents_filters_then_limits (created_last 1) (board varied))
    as ((res & Hrun & _ & Hlast) & _).
  destruct (Hlast 1 eq_refl) as (Hres & _); [lia|].
  exists res. split; [exact Hrun|]. rewrite Hres. vm_compute. reflexivity.
Defined.

(** An empty agent is no filter: all three records come back, though
    none was logged by an agent of that name. *)
Example empty_agent_is_no_filter :
  match fst (getEvents (mkEventQuery (Some EmptyString) None None None)
               (board varied)) with
  | Returned res => length res
  | Threw _ => 0%nat
  end = 3%nat.
Proof. vm_compute. reflexivity. Qed.

(** [last = 0] does not limit: all three records come back. *)
Example last_zero_returns_all :
  match fst (getEvents (mkEventQuery None None None (Some 0))
               (board varied)) with
  | Returned res => length res
  | Threw _ => 0%nat
  end = 3%nat.
Proof. vm_compute. reflexivity. Qed.

(** C8 with "every N" fails for N = 0: three records are more than 0. *)
Lemma getEvents_last_zero_counterexample :
  ¬ query_rule (fun _ => True) (mkEventQuery None None None (Some 0))
      (board varied).
Proof.
  intros (res & Hrun & _ & Hlast).
  destruct (Hlast 0 eq_refl I) as (_ & _ & Hlen).
  pose proof last_zero_returns_all as Hall.
  rewrite Hrun in Hall. cbn [fst] in Hall.
  rewrite Hall in Hlen. lia.
Qed.

(** *** Further properties, on the same worlds *)

Lemma ents_ok : entries_ok ents.
Proof. intros V m. reflexivity. Qed.

Example board_task_a_first : tasks (stored (board varied)) !! 0%nat = Some task_a.
Proof. vm_compute. reflexivity. Qed.

(** X1 on the board of the test suite: after task A was claimed and
    completed it is still the first task of "w", under its id and title. *)
Lemma board_only_moves_forward_witness :
  exists ws' t',
    workstreams (disk a_done) !! "w" = Some ws' /\
    tasks ws' !! 0%nat = Some t' /\
    task_id t' = "0b30557a" /\ title t' = "Task A" /\
    (status_rank pending <= status_rank (status t'))%nat.
Proof.
  destruct (board_only_moves_forward clk varied iso life_of_a (board varied)
              "w" (stored (board varied)) 0%nat task_a
              board_lookup board_task_a_first)
    as (ws' & t' & E & Hi & _ & Hid & Hti & _ & _ & _ & _ & Hrank).
  exists ws', t'. repeat split; assumption.
Defined.

Example a_done_statuses :
  status <$> tasks (stored a_done) = [done_; pending].
Proof. vm_compute. reflexivity. Qed.

(** X3 from start-up: the journal of the finished board is in time
    order. *)
Lemma journal_stays_chronological_witness :
  chronological clk
    (run_all clk varied iso
       [CreateWorkstream "w" no_opts; AddTask "w" (task_opts "Task A" (Some 3))]
       (init clk)).
Proof.
  apply (journal_stays_chronological clk varied iso _ (init clk)
           clk_monotone (init_chronological clk)).
Defined.

Example board_stamps : ts <$> journal (board varied) = [clk 3; clk 7; clk 11].
Proof. vm_compute. reflexivity. Qed.

Lemma board_journal_sorted : StronglySorted by_ts (journal (board varied)).
Proof.
  pose proof board_stamps as H.
  destruct (journal (board varied)) as [|e1 [|e2 [|e3 [|]]]]; try discriminate.
  injection H as H1 H2 H3.
  repeat constructor; unfold by_ts; rewrite ?H1, ?H2, ?H3; unfold clk; lia.
Qed.

(** X4 on the board: the records since the creation of task A are the
    last two. *)
Lemma since_query_returns_a_tail_witness :
  exists res,
    getEvents (mkEventQuery None None (Some (clk 7)) None) (board varied)
      = (Returned res, board varied) /\
    res `suffix_of` journal (board varied).
Proof.
  destruct (since_query_returns_a_tail (clk 7) (board varied)
              board_journal_sorted) as (res & Hrun & Hsuf & _).
  exists res. split; assumption.
Defined.

Example since_query_on_the_board :
  action <$> default []
    (match fst (getEvents (mkEventQuery None None (Some (clk 7)) None)
                  (board varied)) with
     | Returned l => Some l
     | Threw _ => None
     end) = ["task_created"; "task_created"].
Proof. vm_compute. reflexivity. Qed.

Example meanwhile_leaves_lease : Forall (leaves_lease "res" "a1") meanwhile.
Proof.
  unfold meanwhile.
  apply Forall_cons_2; [exact I|].
  apply Forall_cons_2; [right; discriminate|].
  apply Forall_cons_2; [right; discriminate|].
  apply Forall_nil_2.
Qed.

Example meanwhile_in_time :
  clk (ticks (run_all clk varied iso meanwhile leased))
  < acquired_at (mkLock "a1" (clk 1) 5000) + ttl_ms (mkLock "a1" (clk 1) 5000).
Proof. vm_compute. reflexivity. Qed.

(** X5: while a1 holds its five-second lease, a workstream is created and
    a2 tries to take and to release the lock; the lease is still a1's and
    a3 is denied. *)
Lemma lease_excludes_others_witness :
  locks (disk (run_all clk varied iso meanwhile leased)) !! "res"
    = Some (mkLock "a1" (clk 1) 5000) /\
  fst (acquireLock clk "res" "a3" 5000
         (run_all clk varied iso meanwhile leased)) = Returned false.
Proof.
  destruct (lease_excludes_others clk varied iso meanwhile "res"
              (mkLock "a1" (clk 1) 5000) leased
              clk_monotone leased_entry meanwhile_leaves_lease
              meanwhile_in_time) as [Hkept Hden].
  split; [exact Hkept|]. apply Hden. discriminate.
Defined.

Example init_grantable : grantable "res" "a1" (clk (ticks (init clk))) (disk (init clk)).
Proof. vm_compute. exact I. Qed.

(** X6 at start-up: a1 takes and returns the lock; the lock table is
    empty again and the version is 2. *)
Lemma acquire_then_release_witness :
  let w1 := snd (acquireLock clk "res" "a1" 5000 (init clk)) in
  let w2 := snd (releaseLock clk "res" "a1" w1) in
  locks (disk w2) = locks (disk (init clk)) /\
  version (disk w2) = version (disk (init clk)) + 2.
Proof.
  assert ("res" ≠ "__proto__") as Hne by discriminate.
  destruct (acquire_then_release clk "res" "a1" 5000 (init clk) Hne
              init_grantable)
    as (_ & _ & _ & Hsame & _ & _ & Hv & _).
  split; [|exact Hv]. apply Hsame. vm_compute. reflexivity.
Defined.

Example twin_b_first_lowest : first_lowest_pending [twin_a] twin_b [].
Proof. apply b_first_lowest; [reflexivity|]. cbn. lia. Qed.

(** X8 on the board with colliding ids: the most urgent task is B, the
    first task with its id is A, at position 0, and A is pending. *)
Lemma getNextTask_acts_on_first_with_id_witness :
  exists i u,
    find_task (task_id twin_b) (tasks (stored (board stuck))) = Some (i, u) /\
    (i <= 1)%nat /\
    (status u = pending ->
     fst (getNextTask clk "w" "a1" (board stuck))
       = Returned (Some (claimed_by "a1" (clk (ticks (board stuck))) u))).
Proof.
  destruct (getNextTask_acts_on_first_with_id clk "w" "a1"
              (stored (board stuck)) (board stuck) [twin_a] [] twin_b
              colliding_board_lookup colliding_board_tasks
              twin_b_first_lowest) as (i & u & Hf & Hi & Hp & _).
  exists i, u. split; [exact Hf|]. split; [exact Hi|].
  intros Hst. by rewrite (Hp Hst).
Defined.

(** X9 on the board. *)
Lemma listWorkstreams_lists_all_by_priority_witness :
  exists lines,
    listWorkstreams ents (board varied) = (Returned lines, board varied) /\
    summarize ("w", stored (board varied)) ∈ lines.
Proof.
  destruct (listWorkstreams_lists_all_by_priority ents (board varied) ents_ok)
    as (lines & Hrun & _ & _ & Hin & _).
  exists lines. split; [exact Hrun|]. apply Hin. exact board_lookup.
Defined.

Example board_listing :
  (fun s => (s_name s, task_count s, n_pending s, n_in_progress s, n_done s))
    <$> default []
          (match fst (listWorkstreams ents a_done) with
           | Returned l => Some l
           | Threw _ => None
           end)
  = [("w", 2%nat, 1%nat, 0%nat, 1%nat)].
Proof. vm_compute. reflexivity. Qed.

(** X10 on the empty workstream "w": a new task is one more pending
    task. *)
Lemma counts_follow_the_lifecycle_witness :
  exists t w' ws',
    addTask clk varied "w" (task_opts "T" None) w1 = (Returned t, w') /\
    workstreams (disk w') !! "w" = Some ws' /\
    count_status pending (tasks ws')
      = S (count_status pending (tasks (stored w1))).
Proof.
  destruct (counts_follow_the_lifecycle clk varied "w" (stored w1) w1 w1_lookup)
    as (Hadd & _ & _).
  destruct (Hadd (task_opts "T" None)) as (t & w' & ws' & Hrun & E & Hp & _).
  exists t, w', ws'. split; [exact Hrun|]. split; [exact E|exact Hp].
Defined.

(** X11 while a1 holds its lease: the snapshot changes nothing and shows
    the version of the document. *)
Lemma status_lists_the_running_leases_witness :
  exists s w',
    status_snapshot clk ents leased = (Returned s, w') /\
    untouched leased w' /\
    snap_version s = version (disk leased) /\
    recent_events s = last_n 10 (journal leased).
Proof.
  destruct (status_lists_the_running_leases clk ents leased ents_ok
              clk_monotone) as (s & w' & Hrun & Hsame & Hv & Hev & _).
  exists s, w'. split; [exact Hrun|]. split; [exact Hsame|].
  split; [exact Hv|exact Hev].
Defined.

(** A running lease is listed as active, one of 0 ms is not. *)
Example active_locks_of_status :
  let shown w :=
    match fst (status_snapshot clk ents w) with
    | Returned s => fst <$> active_locks s
    | Threw _ => []
    end in
  shown leased = ["res"] /\ shown zero_lease = [].
Proof. split; vm_compute; reflexivity. Qed.

Example staffed_agent : is_Some (agents (disk staffed) !! "a1").
Proof.
  exists (mkAgent "general" "active" [] (clk 1) (clk 2)).
  vm_compute. reflexivity.
Qed.

Example staffed_in_time :
  clk (ticks (snd (status_snapshot clk ents
                     (run_all clk varied iso [CreateWorkstream "w" no_opts]
                        (snd (heartbeat clk "a1" staffed))))))
  - clk (ticks staffed) <= stale_after.
Proof. vm_compute. discriminate. Qed.

(** X12: a1 sends a heartbeat, a workstream is created, and the snapshot
    taken next shows a1 as not stale. *)
Lemma heartbeat_keeps_agent_fresh_witness :
  exists s v,
    fst (status_snapshot clk ents
           (run_all clk varied iso [CreateWorkstream "w" no_opts]
              (snd (heartbeat clk "a1" staffed)))) = Returned s /\
    v ∈ snap_agents s /\ av_id v = "a1" /\ stale v = false.
Proof.
  destruct (heartbeat_keeps_agent_fresh clk varied iso ents "a1"
              [CreateWorkstream "w" no_opts] staffed
              ents_ok clk_monotone staffed_agent staffed_in_time)
    as (s & v & Hrun & Hin & Hid & Hfresh & _).
  exists s, v. split; [exact Hrun|]. split; [exact Hin|].
  split; [exact Hid|exact Hfresh].
Defined.

(** An agent last seen more than five minutes ago is shown as stale; at
    exactly five minutes it is not. *)
Example stale_after_five_minutes :
  let seen (ago : Z) : World :=
    mkWorld
      (mkState 1 (clk 0) ∅
         {[ "a1" := mkAgent "general" "active" [] (clk 0) (clk 1 - ago) ]} ∅)
      [] ∅ 1 0 false in
  let shown w :=
    match fst (status_snapshot clk ents w) with
    | Returned s => stale <$> snap_agents s
    | Threw _ => []
    end in
  shown (seen 300000) = [false] /\ shown (seen 300001) = [true].
Proof. split; vm_compute; reflexivity. Qed.

(** X13 on a note of a1. *)
Example knowledge_round_trip_example :
  let w := snd (writeKnowledge clk iso "notes" "hello" "a1" (init clk)) in
  fst (readKnowledge "notes" w)
    = Returned (Some ("<!-- Updated by a1 at 1970-01-01T00:00:00.000Z -->"
                        ++ newline ++ "hello")%string) /\
  fst (deleteKnowledge clk "notes" "a2" w) = Returned true /\
  fst (readKnowledge "notes" (snd (deleteKnowledge clk "notes" "a2" w)))
    = Returned None.
Proof. repeat split; vm_compute; reflexivity. Qed.

Example noted_topics :
  is_Some (knowledge noted !! "notes") /\
  is_Some (knowledge noted !! ("a" ++ ".md" ++ ".b")%string).
Proof.
  split.
  - destruct (knowledge noted !! "notes") eqn:E; [by eexists|].
    vm_compute in E. discriminate.
  - destruct (knowledge noted !! ("a" ++ ".md" ++ ".b")%string) eqn:E;
      [by eexists|].
    vm_compute in E. discriminate.
Qed.

(** X14: the topic "notes" is listed under its name, the topic "a.md.b"
    as "a.b.md". *)
Lemma listKnowledge_names_witness :
  exists names,
    listKnowledge ents noted = (Returned names, noted) /\
    "notes" ∈ names /\ "a.b.md" ∈ names.
Proof.
  destruct (listKnowledge_names ents noted ents_ok)
    as (names & Hrun & _ & Hplain & Hext).
  exists names. split; [exact Hrun|]. split.
  - apply Hplain; [exact (proj1 noted_topics)|]. vm_compute. reflexivity.
  - apply (Hext "a" ".b"); [exact (proj2 noted_topics)|].
    vm_compute. reflexivity.
Defined.

Example noted_listing :
  fst (listKnowledge ents noted) = Returned ["a.b.md"; "notes"].
Proof. vm_compute. reflexivity. Qed.

Example ping_matches :
  matches last_of_a1 (mkEvent (clk (ticks (init clk))) "a1" "ping" []).
Proof.
  split; [|split]; intros x Hx; vm_compute in Hx.
  - by injection Hx as <-.
  - discriminate.
  - discriminate.
Qed.

(** X15: a1 logs a record and asks for its last record. *)
Lemma logged_event_is_found_last_witness :
  exists res,
    getEvents last_of_a1 (snd (logEvent clk "a1" "ping" [] (init clk)))
      = (Returned res, snd (logEvent clk "a1" "ping" [] (init clk))) /\
    last res = Some (mkEvent (clk 1) "a1" "ping" []).
Proof.
  assert (plain_payload []) as Hplain.
  { intros k _ Hk. by apply elem_of_nil in Hk. }
  destruct (logged_event_is_found_last clk "a1" "ping" [] last_of_a1
              (init clk) Hplain ping_matches) as (_ & res & Hrun & Hlast).
  - intros n [= <-]. lia.
  - exists res. split; [exact Hrun|exact Hlast].
Defined.

(** X16 on the board: [last = -1] returns the two records after the
    first. *)
Lemma getEvents_negative_last_witness :
  getEvents all_but_first (board varied)
  = (Returned
       (drop 1 (filter (matches all_but_first) (journal (board varied)))),
     board varied).
Proof.
  apply (getEvents_negative_last all_but_first (-1) (board varied)).
  - reflexivity.
  - lia.
Defined.

Example negative_last_on_the_board :
  action <$> default []
    (match fst (getEvents all_but_first (board varied)) with
     | Returned l => Some l
     | Threw _ => None
     end) = ["task_created"; "task_created"].
Proof. vm_compute. reflexivity. Qed.

Example board_settled : settled clk (board varied).
Proof. vm_compute. discriminate. Qed.

(** X17 over the life of task A. *)
Lemma document_history_witness :
  version (disk a_done)
    = version (disk (board varied))
      + mutations clk varied iso life_of_a (board varied) /\
  updated_at (disk (board varied)) <= updated_at (disk a_done).
Proof.
  destruct (document_history clk varied iso life_of_a (board varied)
              clk_monotone board_settled) as (Hv & _ & Hu).
  split; [exact Hv|exact Hu].
Defined.

Example life_of_a_counts :
  mutations clk varied iso life_of_a (board varied) = 2 /\
  version (disk a_done) = 5.
Proof. split; vm_compute; reflexivity. Qed.

(** X18 after task A was completed. *)
Lemma collectResults_sorts_the_board_witness :
  exists s w' lines,
    collectResults clk ents a_done = (Returned s, w') /\
    untouched a_done w' /\
    listWorkstreams ents a_done = (Returned lines, a_done) /\
    length (completed_this_cycle s) = sum_list_with n_done lines.
Proof.
  destruct (collectResults_sorts_the_board clk varied iso ents a_done ents_ok)
    as (s & w' & lines & Hrun & Hsame & Hl & _ & _ & Hdone & _).
  exists s, w', lines. split; [exact Hrun|]. split; [exact Hsame|].
  split; [exact Hl|exact Hdone].
Defined.

Example collected_after_a :
  match fst (collectResults clk ents a_done) with
  | Returned s =>
      completed_this_cycle s
        = [mkCompleted "w" "0b30557a" "Task A" (JStr "R")] /\
      still_in_progress s = []
  | Threw _ => False
  end.
Proof. vm_compute. split; reflexivity. Qed.

(** X19, X20 and X21 on single requests. *)
Example http_codes :
  let answer q w :=
    from_option code 0 (fst (handle clk varied iso ents no_page q w)) in
  let by_a2 :=
    Json (mkBody None None None None None (Some "a2") None None None None
            None (Some "res") None) in
  answer (POST_locks by_a2) leased = 409 /\
  answer (POST_locks (Json lock_body)) leased = 200 /\
  answer (POST_claim "w" "0b30557a" by_a2) a_claimed = 500 /\
  answer (POST_claim "w" "0b30557a" InvalidJSON) (board varied) = 500 /\
  answer (POST_next "w" by_a2) a_done = 200 /\
  answer (POST_heartbeat "nobody") leased = 200 /\
  answer (GET_topic "notes") leased = 404 /\
  answer OPTIONS leased = 204 /\
  answer (GET_events last_of_a1) leased = 200 /\
  answer (POST_locks JsonNull) leased = 500 /\
  answer (GET_tasks "toString") leased = 200 /\
  answer (POST_next "toString" by_a2) leased = 500 /\
  answer GET_dashboard leased = 500 /\
  answer GET_status_text leased = 200.
Proof. repeat split; vm_compute; reflexivity. Qed.

Example lock_body_fields :
  truthy_str (b_resource lock_body) = Some "res" /\
  truthy_str (b_agent lock_body) = Some "a1".
Proof. split; vm_compute; reflexivity. Qed.

(** X20: a1 asks for a lease of 0 ms over HTTP and gets one of a
    minute. *)
Lemma http_lock_request_witness :
  exists resp l,
    fst (handle clk varied iso ents no_page (POST_locks (Json lock_body))
           (init clk)) = Some resp /\
    code resp = 200 /\
    locks (disk (snd (handle clk varied iso ents no_page
                        (POST_locks (Json lock_body)) (init clk)))) !! "res"
      = Some l /\
    lock_agent l = "a1" /\ ttl_ms l = 60000.
Proof.
  destruct (http_lock_request clk varied iso ents no_page lock_body "res" "a1"
              (init clk) (proj1 lock_body_fields) (proj2 lock_body_fields))
    as (resp & Hresp & Hok & _ & _ & Hlease & _).
  pose proof (proj2 Hok init_grantable) as Hcode.
  assert ("res" ≠ "__proto__") as Hne by discriminate.
  destruct (Hlease Hcode Hne) as (l & El & Ha & _ & _ & Hmin).
  exists resp, l. split; [exact Hresp|]. split; [exact Hcode|].
  split; [exact El|]. split; [exact Ha|]. apply Hmin. by right.
Defined.

Example no_such_workstream : workstreams (disk (board varied)) !! "nope" = None.
Proof. vm_compute. reflexivity. Qed.

Example nope_is_not_inherited : ¬ inherited false "nope".
Proof.
  apply (bool_decide_eq_false_1 (inherited false "nope")).
  vm_compute. reflexivity.
Qed.

(** X21 for a workstream that does not exist. *)
Lemma http_unknown_workstream_witness :
  code <$> fst (handle clk varied iso ents no_page (GET_tasks "nope")
                  (board varied)) = Some 404 /\
  code <$> fst (handle clk varied iso ents no_page
                  (POST_complete "nope" "0b30557a" (Json lock_body))
                  (board varied)) = Some 500.
Proof.
  destruct (http_unknown_workstream clk varied iso ents no_page "nope"
              (board varied) no_such_workstream) as [Hplain _].
  destruct (Hplain nope_is_not_inherited) as (Hget & _ & _ & Hdone & _).
  split; [rewrite Hget|rewrite Hdone]; reflexivity.
Defined.

(** *** The text of the status *)

(** X24 right after start-up. *)
Example status_text_at_start :
  fst (statusText clk iso ents (init clk)) =
    Returned
      (join newline
         ["=== OpSpawn Orchestrator Status ===";
          "State version: 0 | Updated: 1970-01-01T00:00:00.000Z";
          "";
          "--- Workstreams ---";
          "";
          "--- Agents ---";
          "(none registered)";
          "";
          "--- Active Locks ---";
          "(none)";
          "";
          "--- Recent Events ---";
          "";
          "--- Knowledge Base ---";
          "(empty)"]).
Proof. vm_compute. reflexivity. Qed.

(** X24 on the board while a1 holds its lease. *)
Example status_text_of_the_board :
  fst (statusText clk iso ents
         (snd (acquireLock clk "res" "a1" 5000 (board varied)))) =
    Returned
      (join newline
         ["=== OpSpawn Orchestrator Status ===";
          "State version: 4 | Updated: 1970-01-01T00:00:00.000Z";
          "";
          "--- Workstreams ---";
          "[P5] w: 2 pending, 0 active, 0 done";
          "";
          "--- Agents ---";
          "(none registered)";
          "";
          "--- Active Locks ---";
          "res: held by a1";
          "";
          "--- Recent Events ---";
          "[00:00:00] system: workstream_created";
          "[00:00:00] system: task_created";
          "[00:00:00] system: task_created";
          "[00:00:00] a1: lock_acquired";
          "";
          "--- Knowledge Base ---";
          "(empty)"]).
Proof. vm_compute. reflexivity. Qed.

(** With a rendering of instants that has no ['T'] the first journal
    record makes [statusText] throw, and the request for the text is not
    answered. *)
Example status_text_unanswered :
  fst (statusText clk (fun _ => "12:00") ents w1) = Threw (TypeError "split")
  /\ fst (handle clk varied (fun _ => "12:00") ents no_page GET_status_text w1)
     = None.
Proof. split; vm_compute; reflexivity. Qed.

(** *** Names that every object inherits *)

(** X25 for the name ["constructor"] right after start-up. *)
Lemma inherited_names_reach_the_engine_witness :
  createWorkstream clk "constructor" no_opts (init clk)
    = (Threw (WorkstreamExists "constructor"), init clk) /\
  version (disk (snd (heartbeat clk "constructor" (init clk))))
    = version (disk (init clk)) + 1 /\
  fst (acquireLock clk "constructor" "a1" 5000 (init clk)) = Returned true.
Proof.
  destruct (inherited_names_reach_the_engine clk varied "constructor"
              (init clk) constructor_is_inherited) as (Hws & Hag & Hlk).
  destruct (Hws (lookup_empty _)) as (Hnew & _).
  destruct (Hag (lookup_empty _)) as (_ & Hv & _).
  destruct (Hlk (lookup_empty _) "a1" 5000) as (Hgot & _).
  split; [apply Hnew|]. split; [exact Hv|exact Hgot].
Defined.

(** A heartbeat under ["constructor"], which nobody registered, saves
    the document: the version goes from 0 to 1 and no agent is stored. *)
Example heartbeat_under_inherited_name :
  let w := snd (heartbeat clk "constructor" (init clk)) in
  version (disk w) = 1 /\ agents (disk w) = ∅ /\
  mutated clk varied iso (Heartbeat "constructor") (init clk) = true /\
  mutated clk varied iso (Heartbeat "nobody") (init clk) = false.
Proof. repeat split; vm_compute; reflexivity. Qed.

(** A lock on ["__proto__"] is granted, to a1 and then to a2, and never
    stored: a1 cannot give it back. *)
Example lock_on_proto :
  let r1 := acquireLock clk "__proto__" "a1" 5000 (init clk) in
  let r2 := acquireLock clk "__proto__" "a2" 5000 (snd r1) in
  let r3 := releaseLock clk "__proto__" "a1" (snd r1) in
  (fst r1, fst r2, fst r3) = (Returned true, Returned true, Returned false)
  /\ locks (disk (snd r1)) = ∅
  /\ version (disk (snd r1)) = 1
  /\ action <$> journal (snd r1) = ["lock_acquired"].
Proof. repeat split; vm_compute; reflexivity. Qed.

(** An agent registered as ["__proto__"] is logged and returned, and not
    stored. *)
Example agent_named_proto :
  let r := registerAgent clk "__proto__" (mkAgentOpts None None) (init clk) in
  fst r = Returned (mkAgent "general" "active" [] (clk 1) (clk 2)) /\
  agents (disk (snd r)) = ∅ /\
  version (disk (snd r)) = 1 /\
  action <$> journal (snd r) = ["agent_registered"].
Proof. repeat split; vm_compute; reflexivity. Qed.

(** A heartbeat under ["__proto__"] writes [last_seen] and [status] onto
    the object every other object inherits from: from then on, in the
    same process, a workstream named ["status"] that does not exist is
    no longer reported as not found. *)
Example heartbeat_under_proto :
  let w := snd (heartbeat clk "__proto__" (init clk)) in
  fst (claimTask clk "status" "t1" "a1" (init clk))
    = Threw (WorkstreamNotFound "status") /\
  fst (claimTask clk "status" "t1" "a1" w) = Threw (TypeError "find") /\
  fst (createWorkstream clk "last_seen" no_opts w)
    = Threw (WorkstreamExists "last_seen").
Proof. repeat split; vm_compute; reflexivity. Qed.

End Scenario.
